(** * Xilinx SDFEC driver (drivers/misc/xilinx_sdfec.c): a shallow embedding

    The driver programs a soft-decision FEC accelerator through a
    memory-mapped register window.  The embedding keeps the C structure:

    - a value of type [u32] is an integer reduced modulo 2^32 wherever the
      C expression wraps, and an [int] status is an integer, negative for
      an error;
    - the driver data [struct xsdfec_dev] is a record threaded through a
      small state monad, so that a function taking [struct xsdfec_dev *]
      reads like its C text;
    - the register window is a store of words indexed by byte offset, and
      every [iowrite32] and [ioread32] is also appended to a log, which is
      what "no hardware access" is stated on;
    - [dev_err] appends its format string to a message log; [dev_dbg] and
      [WARN_ON] have no effect on the driver data and are left out;
    - what the kernel or the user-space header provides (copies to and
      from user space, allocation, ioctl command codes, enumeration
      numbering, table base addresses) enters as an argument of the call
      or as a field of [uapi_header].

    The file has two parts: the model of the driver, then its
    properties. *)

From Stdlib Require Import ZArith List Bool String Lia.
Import ListNotations.
Local Open Scope string_scope.
Local Open Scope list_scope.
Local Open Scope Z_scope.

(** ** Machine integers *)

(** [u32]: the value of a C expression of type [u32]. *)
Definition u32 (x : Z) : Z := x mod 2 ^ 32.

(** [s32]: conversion of a 32-bit pattern to [int]. *)
Definition s32 (x : Z) : Z :=
  let y := x mod 2 ^ 32 in if y <? 2 ^ 31 then y else y - 2 ^ 32.

(** [u8] and [u16]: the narrowing done when a [u32] is passed for a
    parameter declared [u8] or [u16]. *)
Definition u8 (x : Z) : Z := x mod 2 ^ 8.
Definition u16 (x : Z) : Z := x mod 2 ^ 16.

(** The operator [~] on a 32-bit operand. *)
Definition not32 (x : Z) : Z := u32 (Z.lnot x).

(** The operator [<<] on a [u32]. *)
Definition shl32 (x n : Z) : Z := u32 (Z.shiftl x n).

Fixpoint popcount (n : nat) (w : Z) : Z :=
  match n with
  | O => 0
  | S n' => Z.b2z (Z.odd w) + popcount n' (Z.div2 w)
  end.

(** Modelled from the spec: [hweight32] comes from the kernel bit
    operations, which are not in the driver file; the spec calls it the
    population count of the status bits. *)
Definition hweight32 (w : Z) : Z := popcount 32 (u32 w).

(** Error numbers used by the driver (errno-base.h). *)
Definition EPERM : Z := 1.
Definition EIO : Z := 5.
Definition EAGAIN : Z := 11.
Definition ENOMEM : Z := 12.
Definition EFAULT : Z := 14.
Definition EBUSY : Z := 16.
Definition EINVAL : Z := 22.
Definition ENOTTY : Z := 25.

(** ** Register map *)

Definition XSDFEC_AXI_WR_PROTECT_ADDR : Z := 0x00000.
Definition XSDFEC_CODE_WR_PROTECT_ADDR : Z := 0x00004.
Definition XSDFEC_ACTIVE_ADDR : Z := 0x00008.
Definition XSDFEC_AXIS_WIDTH_ADDR : Z := 0x0000c.
Definition XSDFEC_AXIS_ENABLE_ADDR : Z := 0x00010.
Definition XSDFEC_AXIS_ENABLE_MASK : Z := 0x0003F.
Definition XSDFEC_FEC_CODE_ADDR : Z := 0x00014.
Definition XSDFEC_ORDER_ADDR : Z := 0x00018.
Definition XSDFEC_ISR_MASK : Z := 0x0003F.
Definition XSDFEC_ISR_ADDR : Z := 0x0001c.
Definition XSDFEC_IER_ADDR : Z := 0x00020.
Definition XSDFEC_IDR_ADDR : Z := 0x00024.
Definition XSDFEC_IMR_ADDR : Z := 0x00028.
Definition XSDFEC_ECC_ISR_SBE : Z := 0x7FF.
Definition XSDFEC_ECC_ISR_MBE : Z := 0x3FF800.
Definition XSDFEC_ECC_ISR_MASK : Z :=
  Z.lor XSDFEC_ECC_ISR_SBE XSDFEC_ECC_ISR_MBE.
Definition XSDFEC_ECC_MULTI_BIT_POS : Z := 11.
Definition XSDFEC_ERROR_MAX_THRESHOLD : Z := 100.
Definition XSDFEC_ECC_ISR_ADDR : Z := 0x0002c.
Definition XSDFEC_ECC_IER_ADDR : Z := 0x00030.
Definition XSDFEC_ECC_IDR_ADDR : Z := 0x00034.
Definition XSDFEC_ECC_IMR_ADDR : Z := 0x00038.
Definition XSDFEC_BYPASS_ADDR : Z := 0x0003c.
Definition XSDFEC_TURBO_ADDR : Z := 0x00100.
Definition XSDFEC_LDPC_CODE_REG0_ADDR_BASE : Z := 0x02000.
Definition XSDFEC_LDPC_CODE_REG0_ADDR_HIGH : Z := 0x021fc.
Definition XSDFEC_LDPC_CODE_REG1_ADDR_BASE : Z := 0x02004.
Definition XSDFEC_LDPC_CODE_REG1_ADDR_HIGH : Z := 0x02200.
Definition XSDFEC_LDPC_CODE_REG2_ADDR_BASE : Z := 0x02008.
Definition XSDFEC_LDPC_CODE_REG2_ADDR_HIGH : Z := 0x02204.
Definition XSDFEC_LDPC_CODE_REG3_ADDR_BASE : Z := 0x0200c.
Definition XSDFEC_LDPC_CODE_REG3_ADDR_HIGH : Z := 0x02208.

Definition XSDFEC_WRITE_PROTECT_ENABLE : Z := 1.
Definition XSDFEC_WRITE_PROTECT_DISABLE : Z := 0.
Definition XSDFEC_IS_ACTIVITY_SET : Z := 0x1.

(** ** Types of the user-space interface *)

(** Modelled from the spec: [enum xsdfec_state] is declared in
    uapi/misc/xilinx_sdfec.h, which is not among the sources; the spec
    lists the states INIT, STARTED, STOPPED and NEEDS_RESET. *)
Inductive xsdfec_state : Type :=
| XSDFEC_INIT
| XSDFEC_STARTED
| XSDFEC_STOPPED
| XSDFEC_NEEDS_RESET.

(** Modelled from the spec: [enum xsdfec_code] (same header); the spec
    gives the code family as Invalid, LDPC or Turbo. *)
Inductive xsdfec_code : Type :=
| XSDFEC_CODE_INVALID
| XSDFEC_TURBO_CODE
| XSDFEC_LDPC_CODE.

(** Modelled from the spec: [enum xsdfec_axis_width] (same header), the
    three discrete stream width classes. *)
Inductive xsdfec_axis_width : Type :=
| XSDFEC_1x128b
| XSDFEC_2x128b
| XSDFEC_4x128b.

(** Modelled from the spec: [enum xsdfec_axis_word_include] (same header),
    the three word-inclusion modes. *)
Inductive xsdfec_axis_word_include : Type :=
| XSDFEC_FIXED_VALUE
| XSDFEC_IN_BLOCK
| XSDFEC_PER_AXI_TRANSACTION.

Definition state_eqb (a b : xsdfec_state) : bool :=
  match a, b with
  | XSDFEC_INIT, XSDFEC_INIT
  | XSDFEC_STARTED, XSDFEC_STARTED
  | XSDFEC_STOPPED, XSDFEC_STOPPED
  | XSDFEC_NEEDS_RESET, XSDFEC_NEEDS_RESET => true
  | _, _ => false
  end.

Definition code_eqb (a b : xsdfec_code) : bool :=
  match a, b with
  | XSDFEC_CODE_INVALID, XSDFEC_CODE_INVALID
  | XSDFEC_TURBO_CODE, XSDFEC_TURBO_CODE
  | XSDFEC_LDPC_CODE, XSDFEC_LDPC_CODE => true
  | _, _ => false
  end.

(** [struct xsdfec_config]; [order] keeps the numeric value of
    [enum xsdfec_order], which the driver compares and subtracts from. *)
Record xsdfec_config : Type := mk_config {
  fec_id : Z;
  code : xsdfec_code;
  order : Z;
  din_width : xsdfec_axis_width;
  din_word_include : xsdfec_axis_word_include;
  dout_width : xsdfec_axis_width;
  dout_word_include : xsdfec_axis_word_include
}.

Record xsdfec_status : Type := mk_status {
  st_fec_id : Z;
  st_state : xsdfec_state;
  st_activity : Z
}.

Record xsdfec_irq : Type := mk_irq {
  enable_isr : bool;
  enable_ecc_isr : bool
}.

Record xsdfec_turbo : Type := mk_turbo {
  alg : Z;
  scale : Z
}.

Record xsdfec_stats : Type := mk_stats {
  us_isr_err_count : Z;
  us_cecc_count : Z;
  us_uecc_count : Z
}.

(** [struct xsdfec_ldpc_params].  Every scalar is a 32-bit word; the three
    tables are arrays of words, read and written by index. *)
Record xsdfec_ldpc_params : Type := mk_ldpc {
  n : Z;
  k : Z;
  psize : Z;
  nlayers : Z;
  nqc : Z;
  nmqc : Z;
  nm : Z;
  norm_type : Z;
  no_packing : Z;
  special_qc : Z;
  no_final_parity : Z;
  max_schedule : Z;
  sc_off : Z;
  la_off : Z;
  qc_off : Z;
  sc_table : Z -> Z;
  la_table : Z -> Z;
  qc_table : Z -> Z;
  code_id : Z
}.

(** Constants of the absent header that the driver uses by name: the base
    addresses of the three LDPC tables, the numbering of the enumerations
    it does arithmetic on, and the ioctl command codes. *)
Record uapi_header : Type := mk_header {
  XSDFEC_LDPC_SC_TABLE_ADDR_BASE : Z;
  XSDFEC_LDPC_LA_TABLE_ADDR_BASE : Z;
  XSDFEC_LDPC_QC_TABLE_ADDR_BASE : Z;
  code_val : xsdfec_code -> Z;
  XSDFEC_INVALID_ORDER : Z;
  XSDFEC_ORDER_MAX : Z;
  XSDFEC_MAGIC : Z;
  XSDFEC_START_DEV : Z;
  XSDFEC_STOP_DEV : Z;
  XSDFEC_CLEAR_STATS : Z;
  XSDFEC_GET_STATS : Z;
  XSDFEC_GET_STATUS : Z;
  XSDFEC_GET_CONFIG : Z;
  XSDFEC_SET_DEFAULT_CONFIG : Z;
  XSDFEC_SET_IRQ : Z;
  XSDFEC_SET_TURBO : Z;
  XSDFEC_GET_TURBO : Z;
  XSDFEC_ADD_LDPC_CODE_PARAMS : Z;
  XSDFEC_GET_LDPC_CODE_PARAMS : Z;
  XSDFEC_SET_ORDER : Z;
  XSDFEC_SET_BYPASS : Z;
  XSDFEC_IS_ACTIVE : Z
}.

(** ** Driver data *)

(** One access to the register window. *)
Inductive io_event : Type :=
| IoWrite (addr value : Z)
| IoRead (addr value : Z).

(** [struct xsdfec_dev].  [regs] is the register window, a store of words
    indexed by byte offset ([iowrite32] stores, [ioread32] returns the
    stored word); [io_log] lists the accesses in the order they happen;
    [dmesg] lists the [dev_err] messages; [wakeups] counts the calls of
    [wake_up_interruptible] on [waitq].  The counters are [atomic_t]. *)
Record xsdfec_dev : Type := mk_dev {
  regs : Z -> Z;
  io_log : list io_event;
  dmesg : list string;
  state : xsdfec_state;
  config : xsdfec_config;
  intr_enabled : bool;
  wr_protect : bool;
  isr_err_count : Z;
  cecc_count : Z;
  uecc_count : Z;
  open_count : Z;
  irq : Z;
  wakeups : nat
}.

Definition set_hw (r : Z -> Z) (l : list io_event) (d : xsdfec_dev) : xsdfec_dev :=
  mk_dev r l (dmesg d) (state d) (config d) (intr_enabled d) (wr_protect d)
         (isr_err_count d) (cecc_count d) (uecc_count d) (open_count d)
         (irq d) (wakeups d).

Definition set_dmesg (m : list string) (d : xsdfec_dev) : xsdfec_dev :=
  mk_dev (regs d) (io_log d) m (state d) (config d) (intr_enabled d)
         (wr_protect d) (isr_err_count d) (cecc_count d) (uecc_count d)
         (open_count d) (irq d) (wakeups d).

Definition set_state (s : xsdfec_state) (d : xsdfec_dev) : xsdfec_dev :=
  mk_dev (regs d) (io_log d) (dmesg d) s (config d) (intr_enabled d)
         (wr_protect d) (isr_err_count d) (cecc_count d) (uecc_count d)
         (open_count d) (irq d) (wakeups d).

Definition set_config (c : xsdfec_config) (d : xsdfec_dev) : xsdfec_dev :=
  mk_dev (regs d) (io_log d) (dmesg d) (state d) c (intr_enabled d)
         (wr_protect d) (isr_err_count d) (cecc_count d) (uecc_count d)
         (open_count d) (irq d) (wakeups d).

Definition set_wr_protect (b : bool) (d : xsdfec_dev) : xsdfec_dev :=
  mk_dev (regs d) (io_log d) (dmesg d) (state d) (config d) (intr_enabled d)
         b (isr_err_count d) (cecc_count d) (uecc_count d)
         (open_count d) (irq d) (wakeups d).

Definition set_counters (i c u : Z) (d : xsdfec_dev) : xsdfec_dev :=
  mk_dev (regs d) (io_log d) (dmesg d) (state d) (config d) (intr_enabled d)
         (wr_protect d) i c u (open_count d) (irq d) (wakeups d).

Definition set_open_count (o : Z) (d : xsdfec_dev) : xsdfec_dev :=
  mk_dev (regs d) (io_log d) (dmesg d) (state d) (config d) (intr_enabled d)
         (wr_protect d) (isr_err_count d) (cecc_count d) (uecc_count d)
         o (irq d) (wakeups d).

Definition set_wakeups (w : nat) (d : xsdfec_dev) : xsdfec_dev :=
  mk_dev (regs d) (io_log d) (dmesg d) (state d) (config d) (intr_enabled d)
         (wr_protect d) (isr_err_count d) (cecc_count d) (uecc_count d)
         (open_count d) (irq d) w.

Definition set_code (c : xsdfec_code) (cfg : xsdfec_config) : xsdfec_config :=
  mk_config (fec_id cfg) c (order cfg) (din_width cfg) (din_word_include cfg)
            (dout_width cfg) (dout_word_include cfg).

Definition set_order (o : Z) (cfg : xsdfec_config) : xsdfec_config :=
  mk_config (fec_id cfg) (code cfg) o (din_width cfg) (din_word_include cfg)
            (dout_width cfg) (dout_word_include cfg).

(** ** The driver monad: functions taking [struct xsdfec_dev *] *)

Definition M (A : Type) : Type := xsdfec_dev -> A * xsdfec_dev.

Definition ret {A : Type} (a : A) : M A := fun d => (a, d).

Definition bind {A B : Type} (m : M A) (f : A -> M B) : M B :=
  fun d => let r := m d in f (fst r) (snd r).

Definition get : M xsdfec_dev := fun d => (d, d).

Definition modify (f : xsdfec_dev -> xsdfec_dev) : M unit := fun d => (tt, f d).

Declare Scope drv_scope.
Delimit Scope drv_scope with drv.
Notation "x <- m ;; f" := (bind m (fun x => f))
  (at level 61, m at next level, right associativity) : drv_scope.
Notation "m ;; f" := (bind m (fun _ => f))
  (at level 61, right associativity) : drv_scope.
Local Open Scope drv_scope.

(** [dev_err]: the format string is kept, its arguments are not. *)
Definition dev_err (msg : string) : M unit :=
  modify (fun d => set_dmesg (dmesg d ++ [msg]) d).

Definition upd (r : Z -> Z) (a v : Z) : Z -> Z :=
  fun a' => if a' =? a then v else r a'.

(** Modelled from the spec: [iowrite32] and [ioread32] are the kernel's
    accessors of the mapped register window, not part of the driver file;
    the spec treats the window as registers that hold what was written. *)
Definition iowrite32 (value addr : Z) : M unit :=
  modify (fun d => set_hw (upd (regs d) addr value)
                          (io_log d ++ [IoWrite addr value]) d).

Definition ioread32 (addr : Z) : M Z :=
  fun d => let v := u32 (regs d addr) in
           (v, set_hw (regs d) (io_log d ++ [IoRead addr v]) d).

Definition xsdfec_regwrite (addr value : Z) : M unit :=
  d <- get ;;
  if wr_protect d then dev_err "SDFEC in write protect"
  else iowrite32 value addr.

Definition xsdfec_regread (addr : Z) : M Z :=
  rval <- ioread32 addr ;;
  ret rval.

Definition xsdfec_wr_protect (wr_pr : bool) : M unit :=
  if wr_pr then
    xsdfec_regwrite XSDFEC_CODE_WR_PROTECT_ADDR XSDFEC_WRITE_PROTECT_ENABLE ;;
    xsdfec_regwrite XSDFEC_AXI_WR_PROTECT_ADDR XSDFEC_WRITE_PROTECT_ENABLE ;;
    modify (set_wr_protect wr_pr)
  else
    modify (set_wr_protect wr_pr) ;;
    xsdfec_regwrite XSDFEC_AXI_WR_PROTECT_ADDR XSDFEC_WRITE_PROTECT_DISABLE ;;
    xsdfec_regwrite XSDFEC_CODE_WR_PROTECT_ADDR XSDFEC_WRITE_PROTECT_DISABLE.

(** C truth value of an integer expression. *)
Definition nz (x : Z) : bool := negb (x =? 0).

Definition when (b : bool) (m : M unit) : M unit := if b then m else ret tt.

(** [for (reg = 0; reg < len; reg++) acc = body(reg, acc)], entered with
    [cnt] iterations left. *)
Fixpoint for_reg {A : Type} (cnt : nat) (reg : Z) (body : Z -> A -> M A)
         (acc : A) : M A :=
  match cnt with
  | O => ret acc
  | S cnt' => acc' <- body reg acc ;; for_reg cnt' (reg + 1) body acc'
  end.

(** ** Register bitfield codec *)

Definition XSDFEC_LDPC_REG_JUMP : Z := 0x10.
Definition XSDFEC_REG0_N_MASK : Z := 0x0000FFFF.
Definition XSDFEC_REG0_N_LSB : Z := 0.
Definition XSDFEC_REG0_K_MASK : Z := 0x7fff0000.
Definition XSDFEC_REG0_K_LSB : Z := 16.

Definition xsdfec_reg0_write (n k offset : Z) : M Z :=
  when (nz (Z.land n (not32 XSDFEC_REG0_N_MASK)))
       (dev_err "N value is beyond 16 bits") ;;
  let n := Z.land n XSDFEC_REG0_N_MASK in
  let n := shl32 n XSDFEC_REG0_N_LSB in
  when (nz (Z.land k XSDFEC_REG0_K_MASK))
       (dev_err "K value is beyond 16 bits") ;;
  let k := Z.land (shl32 k XSDFEC_REG0_K_LSB) XSDFEC_REG0_K_MASK in
  let wdata := Z.lor k n in
  if u32 (XSDFEC_LDPC_CODE_REG0_ADDR_BASE + u32 (offset * XSDFEC_LDPC_REG_JUMP))
     >? XSDFEC_LDPC_CODE_REG0_ADDR_HIGH
  then
    dev_err "Writing outside of LDPC reg0 space 0x%x" ;;
    ret (- EINVAL)
  else
    xsdfec_regwrite
      (u32 (XSDFEC_LDPC_CODE_REG0_ADDR_BASE + u32 (offset * XSDFEC_LDPC_REG_JUMP)))
      wdata ;;
    ret 0.

Definition set_reg0_fields (n' k' : Z) (p : xsdfec_ldpc_params) : xsdfec_ldpc_params :=
  mk_ldpc n' k' (psize p) (nlayers p) (nqc p) (nmqc p) (nm p) (norm_type p)
          (no_packing p) (special_qc p) (no_final_parity p) (max_schedule p)
          (sc_off p) (la_off p) (qc_off p) (sc_table p) (la_table p)
          (qc_table p) (code_id p).

Definition xsdfec_collect_ldpc_reg0 (code_id : Z) (ldpc_params : xsdfec_ldpc_params)
  : M (Z * xsdfec_ldpc_params) :=
  let reg_addr :=
    u32 (XSDFEC_LDPC_CODE_REG0_ADDR_BASE + u32 (code_id * XSDFEC_LDPC_REG_JUMP)) in
  if reg_addr >? XSDFEC_LDPC_CODE_REG0_ADDR_HIGH then
    dev_err "Accessing outside of LDPC reg0 for code_id %d" ;;
    ret (- EINVAL, ldpc_params)
  else
    reg_value <- xsdfec_regread reg_addr ;;
    ret (0, set_reg0_fields
              (Z.land (Z.shiftr reg_value XSDFEC_REG0_N_LSB) XSDFEC_REG0_N_MASK)
              (Z.land (Z.shiftr reg_value XSDFEC_REG0_K_LSB) XSDFEC_REG0_K_MASK)
              ldpc_params).

Definition XSDFEC_REG1_PSIZE_MASK : Z := 0x000001ff.
Definition XSDFEC_REG1_NO_PACKING_MASK : Z := 0x00000400.
Definition XSDFEC_REG1_NO_PACKING_LSB : Z := 10.
Definition XSDFEC_REG1_NM_MASK : Z := 0x000ff800.
Definition XSDFEC_REG1_NM_LSB : Z := 11.
Definition XSDFEC_REG1_BYPASS_MASK : Z := 0x00100000.

Definition xsdfec_reg1_write (psize no_packing nm offset : Z) : M Z :=
  when (nz (Z.land psize (not32 XSDFEC_REG1_PSIZE_MASK)))
       (dev_err "Psize is beyond 10 bits") ;;
  let psize := Z.land psize XSDFEC_REG1_PSIZE_MASK in
  when (negb (no_packing =? 0) && negb (no_packing =? 1))
       (dev_err "No-packing bit register invalid") ;;
  let no_packing :=
    Z.land (shl32 no_packing XSDFEC_REG1_NO_PACKING_LSB)
           XSDFEC_REG1_NO_PACKING_MASK in
  when (nz (Z.land nm (not32 (Z.shiftr XSDFEC_REG1_NM_MASK XSDFEC_REG1_NM_LSB))))
       (dev_err "NM is beyond 10 bits") ;;
  let nm := Z.land (shl32 nm XSDFEC_REG1_NM_LSB) XSDFEC_REG1_NM_MASK in
  let wdata := Z.lor (Z.lor nm no_packing) psize in
  if u32 (XSDFEC_LDPC_CODE_REG1_ADDR_BASE + u32 (offset * XSDFEC_LDPC_REG_JUMP))
     >? XSDFEC_LDPC_CODE_REG1_ADDR_HIGH
  then
    dev_err "Writing outside of LDPC reg1 space 0x%x" ;;
    ret (- EINVAL)
  else
    xsdfec_regwrite
      (u32 (XSDFEC_LDPC_CODE_REG1_ADDR_BASE + u32 (offset * XSDFEC_LDPC_REG_JUMP)))
      wdata ;;
    ret 0.

Definition set_reg1_fields (psize' no_packing' nm' : Z) (p : xsdfec_ldpc_params)
  : xsdfec_ldpc_params :=
  mk_ldpc (n p) (k p) psize' (nlayers p) (nqc p) (nmqc p) nm' (norm_type p)
          no_packing' (special_qc p) (no_final_parity p) (max_schedule p)
          (sc_off p) (la_off p) (qc_off p) (sc_table p) (la_table p)
          (qc_table p) (code_id p).

Definition xsdfec_collect_ldpc_reg1 (code_id : Z) (ldpc_params : xsdfec_ldpc_params)
  : M (Z * xsdfec_ldpc_params) :=
  let reg_addr :=
    u32 (XSDFEC_LDPC_CODE_REG1_ADDR_BASE + u32 (code_id * XSDFEC_LDPC_REG_JUMP)) in
  if reg_addr >? XSDFEC_LDPC_CODE_REG1_ADDR_HIGH then
    dev_err "Accessing outside of LDPC reg1 for code_id %d" ;;
    ret (- EINVAL, ldpc_params)
  else
    reg_value <- xsdfec_regread reg_addr ;;
    ret (0, set_reg1_fields
              (Z.land reg_value XSDFEC_REG1_PSIZE_MASK)
              (Z.land (Z.shiftr reg_value XSDFEC_REG1_NO_PACKING_LSB)
                      XSDFEC_REG1_NO_PACKING_MASK)
              (Z.land (Z.shiftr reg_value XSDFEC_REG1_NM_LSB) XSDFEC_REG1_NM_MASK)
              ldpc_params).

Definition XSDFEC_REG2_NLAYERS_MASK : Z := 0x000001FF.
Definition XSDFEC_REG2_NLAYERS_LSB : Z := 0.
Definition XSDFEC_REG2_NNMQC_MASK : Z := 0x000FFE00.
Definition XSDFEC_REG2_NMQC_LSB : Z := 9.
Definition XSDFEC_REG2_NORM_TYPE_MASK : Z := 0x00100000.
Definition XSDFEC_REG2_NORM_TYPE_LSB : Z := 20.
Definition XSDFEC_REG2_SPECIAL_QC_MASK : Z := 0x00200000.
Definition XSDFEC_REG2_SPEICAL_QC_LSB : Z := 21.
Definition XSDFEC_REG2_NO_FINAL_PARITY_MASK : Z := 0x00400000.
Definition XSDFEC_REG2_NO_FINAL_PARITY_LSB : Z := 22.
Definition XSDFEC_REG2_MAX_SCHEDULE_MASK : Z := 0x01800000.
Definition XSDFEC_REG2_MAX_SCHEDULE_LSB : Z := 23.

Definition xsdfec_reg2_write
           (nlayers nmqc norm_type special_qc no_final_parity max_schedule offset : Z)
  : M Z :=
  when (nz (Z.land nlayers
                   (not32 (Z.shiftr XSDFEC_REG2_NLAYERS_MASK XSDFEC_REG2_NLAYERS_LSB))))
       (dev_err "Nlayers exceeds 9 bits") ;;
  let nlayers := Z.land nlayers XSDFEC_REG2_NLAYERS_MASK in
  when (nz (Z.land nmqc
                   (not32 (Z.shiftr XSDFEC_REG2_NNMQC_MASK XSDFEC_REG2_NMQC_LSB))))
       (dev_err "NMQC exceeds 11 bits") ;;
  let nmqc := Z.land (shl32 nmqc XSDFEC_REG2_NMQC_LSB) XSDFEC_REG2_NNMQC_MASK in
  when (norm_type >? 1) (dev_err "Norm type is invalid") ;;
  let norm_type :=
    Z.land (shl32 norm_type XSDFEC_REG2_NORM_TYPE_LSB) XSDFEC_REG2_NORM_TYPE_MASK in
  when (special_qc >? 1) (dev_err "Special QC in invalid") ;;
  let special_qc :=
    Z.land (shl32 special_qc XSDFEC_REG2_SPEICAL_QC_LSB) XSDFEC_REG2_SPECIAL_QC_MASK in
  when (no_final_parity >? 1) (dev_err "No final parity check invalid") ;;
  let no_final_parity :=
    Z.land (shl32 no_final_parity XSDFEC_REG2_NO_FINAL_PARITY_LSB)
           XSDFEC_REG2_NO_FINAL_PARITY_MASK in
  when (nz (Z.land max_schedule
                   (not32 (Z.shiftr XSDFEC_REG2_MAX_SCHEDULE_MASK
                                    XSDFEC_REG2_MAX_SCHEDULE_LSB))))
       (dev_err "Max Schdule exceeds 2 bits") ;;
  let max_schedule :=
    Z.land (shl32 max_schedule XSDFEC_REG2_MAX_SCHEDULE_LSB)
           XSDFEC_REG2_MAX_SCHEDULE_MASK in
  let wdata :=
    Z.lor (Z.lor (Z.lor (Z.lor (Z.lor max_schedule no_final_parity) special_qc)
                        norm_type) nmqc) nlayers in
  if u32 (XSDFEC_LDPC_CODE_REG2_ADDR_BASE + u32 (offset * XSDFEC_LDPC_REG_JUMP))
     >? XSDFEC_LDPC_CODE_REG2_ADDR_HIGH
  then
    dev_err "Writing outside of LDPC reg2 space 0x%x" ;;
    ret (- EINVAL)
  else
    xsdfec_regwrite
      (u32 (XSDFEC_LDPC_CODE_REG2_ADDR_BASE + u32 (offset * XSDFEC_LDPC_REG_JUMP)))
      wdata ;;
    ret 0.

Definition set_reg2_fields
           (nlayers' nmqc' norm_type' special_qc' no_final_parity' max_schedule' : Z)
           (p : xsdfec_ldpc_params) : xsdfec_ldpc_params :=
  mk_ldpc (n p) (k p) (psize p) nlayers' (nqc p) nmqc' (nm p) norm_type'
          (no_packing p) special_qc' no_final_parity' max_schedule'
          (sc_off p) (la_off p) (qc_off p) (sc_table p) (la_table p)
          (qc_table p) (code_id p).

Definition xsdfec_collect_ldpc_reg2 (code_id : Z) (ldpc_params : xsdfec_ldpc_params)
  : M (Z * xsdfec_ldpc_params) :=
  let reg_addr :=
    u32 (XSDFEC_LDPC_CODE_REG2_ADDR_BASE + u32 (code_id * XSDFEC_LDPC_REG_JUMP)) in
  if reg_addr >? XSDFEC_LDPC_CODE_REG2_ADDR_HIGH then
    dev_err "Accessing outside of LDPC reg2 for code_id %d" ;;
    ret (- EINVAL, ldpc_params)
  else
    reg_value <- xsdfec_regread reg_addr ;;
    ret (0, set_reg2_fields
              (Z.land (Z.shiftr reg_value XSDFEC_REG2_NLAYERS_LSB)
                      XSDFEC_REG2_NLAYERS_MASK)
              (Z.land (Z.shiftr reg_value XSDFEC_REG2_NMQC_LSB)
                      XSDFEC_REG2_NNMQC_MASK)
              (Z.land (Z.shiftr reg_value XSDFEC_REG2_NORM_TYPE_LSB)
                      XSDFEC_REG2_NORM_TYPE_MASK)
              (Z.land (Z.shiftr reg_value XSDFEC_REG2_SPEICAL_QC_LSB)
                      XSDFEC_REG2_SPECIAL_QC_MASK)
              (Z.land (Z.shiftr reg_value XSDFEC_REG2_NO_FINAL_PARITY_LSB)
                      XSDFEC_REG2_NO_FINAL_PARITY_MASK)
              (Z.land (Z.shiftr reg_value XSDFEC_REG2_MAX_SCHEDULE_LSB)
                      XSDFEC_REG2_MAX_SCHEDULE_MASK)
              ldpc_params).

Definition XSDFEC_REG3_LA_OFF_LSB : Z := 8.
Definition XSDFEC_REG3_QC_OFF_LSB : Z := 16.

(** The offsets arrive narrowed to [u8], [u8] and [u16]. *)
Definition xsdfec_reg3_write (sc_off la_off qc_off offset : Z) : M Z :=
  let sc_off := u8 sc_off in
  let la_off := u8 la_off in
  let qc_off := u16 qc_off in
  let wdata :=
    u32 (Z.lor (Z.lor (Z.shiftl qc_off XSDFEC_REG3_QC_OFF_LSB)
                      (Z.shiftl la_off XSDFEC_REG3_LA_OFF_LSB)) sc_off) in
  if u32 (XSDFEC_LDPC_CODE_REG3_ADDR_BASE + u32 (offset * XSDFEC_LDPC_REG_JUMP))
     >? XSDFEC_LDPC_CODE_REG3_ADDR_HIGH
  then
    dev_err "Writing outside of LDPC reg3 space 0x%x" ;;
    ret (- EINVAL)
  else
    xsdfec_regwrite
      (u32 (XSDFEC_LDPC_CODE_REG3_ADDR_BASE + u32 (offset * XSDFEC_LDPC_REG_JUMP)))
      wdata ;;
    ret 0.

Definition set_offsets (sc_off' la_off' qc_off' : Z) (p : xsdfec_ldpc_params)
  : xsdfec_ldpc_params :=
  mk_ldpc (n p) (k p) (psize p) (nlayers p) (nqc p) (nmqc p) (nm p)
          (norm_type p) (no_packing p) (special_qc p) (no_final_parity p)
          (max_schedule p) sc_off' la_off' qc_off' (sc_table p) (la_table p)
          (qc_table p) (code_id p).

(** The three offsets are taken from [reg_addr]; [reg_value] is read and
    not used. *)
Definition xsdfec_collect_ldpc_reg3 (code_id : Z) (ldpc_params : xsdfec_ldpc_params)
  : M (Z * xsdfec_ldpc_params) :=
  let reg_addr :=
    u32 (XSDFEC_LDPC_CODE_REG3_ADDR_BASE + u32 (code_id * XSDFEC_LDPC_REG_JUMP)) in
  if reg_addr >? XSDFEC_LDPC_CODE_REG3_ADDR_HIGH then
    dev_err "Accessing outside of LDPC reg3 for code_id %d" ;;
    ret (- EINVAL, ldpc_params)
  else
    reg_value <- xsdfec_regread reg_addr ;;
    let qc_off' := Z.land (Z.shiftr reg_addr XSDFEC_REG3_QC_OFF_LSB) 0xFF in
    let la_off' := Z.land (Z.shiftr reg_addr XSDFEC_REG3_LA_OFF_LSB) 0xFF in
    let sc_off' := Z.land reg_addr 0xFF in
    ret (0, set_offsets sc_off' la_off' qc_off' ldpc_params).

(** ** Table window manager and LDPC programming protocol *)

Definition XSDFEC_SC_TABLE_DEPTH : Z := 0x3fc.
Definition XSDFEC_REG_WIDTH_JUMP : Z := 4.
Definition XSDFEC_LA_TABLE_DEPTH : Z := 0xFFC.
Definition XSDFEC_QC_TABLE_DEPTH : Z := 0x7FFC.

(** Modelled from the spec: [kzalloc], [copy_from_user] and [copy_to_user]
    belong to the kernel, not to the driver file.  One call of a handler
    sees whether the allocation fails and how many bytes each copy leaves
    uncopied (zero when the copy succeeds), the "payload copy across the
    control boundary" of the spec. *)
Record uaccess : Type := mk_uaccess {
  kzalloc_fails : bool;
  copy_from_user : Z;
  copy_to_user : Z
}.

Definition set_sc_table (t : Z -> Z) (p : xsdfec_ldpc_params) : xsdfec_ldpc_params :=
  mk_ldpc (n p) (k p) (psize p) (nlayers p) (nqc p) (nmqc p) (nm p)
          (norm_type p) (no_packing p) (special_qc p) (no_final_parity p)
          (max_schedule p) (sc_off p) (la_off p) (qc_off p) t (la_table p)
          (qc_table p) (code_id p).

Definition set_la_table (t : Z -> Z) (p : xsdfec_ldpc_params) : xsdfec_ldpc_params :=
  mk_ldpc (n p) (k p) (psize p) (nlayers p) (nqc p) (nmqc p) (nm p)
          (norm_type p) (no_packing p) (special_qc p) (no_final_parity p)
          (max_schedule p) (sc_off p) (la_off p) (qc_off p) (sc_table p) t
          (qc_table p) (code_id p).

Definition set_qc_table (t : Z -> Z) (p : xsdfec_ldpc_params) : xsdfec_ldpc_params :=
  mk_ldpc (n p) (k p) (psize p) (nlayers p) (nqc p) (nmqc p) (nm p)
          (norm_type p) (no_packing p) (special_qc p) (no_final_parity p)
          (max_schedule p) (sc_off p) (la_off p) (qc_off p) (sc_table p)
          (la_table p) t (code_id p).

Section Driver.

Variable hdr : uapi_header.

(** Address of word [reg] of a table window starting at word [offset]. *)
Definition table_addr (base offset reg : Z) : Z :=
  u32 (base + u32 (u32 (offset + reg) * XSDFEC_REG_WIDTH_JUMP)).

Definition xsdfec_sc_table_write (offset : Z) (sc_ptr : Z -> Z) (len : Z) : M Z :=
  if u32 (XSDFEC_REG_WIDTH_JUMP * u32 (offset + len)) >? XSDFEC_SC_TABLE_DEPTH then
    dev_err "Write exceeds SC table length" ;;
    ret (- EINVAL)
  else
    for_reg (Z.to_nat len) 0
            (fun reg _ =>
               xsdfec_regwrite
                 (table_addr (XSDFEC_LDPC_SC_TABLE_ADDR_BASE hdr) offset reg)
                 (sc_ptr reg))
            tt ;;
    ret (s32 len).

Definition xsdfec_collect_sc_table (offset : Z) (sc_ptr : Z -> Z) (len : Z)
  : M (Z * (Z -> Z)) :=
  let deepest_reach := u32 (XSDFEC_REG_WIDTH_JUMP * u32 (offset + len)) in
  if deepest_reach >? XSDFEC_SC_TABLE_DEPTH then
    dev_err "Access will exceed SC table length" ;;
    ret (- EINVAL, sc_ptr)
  else
    sc_ptr' <- for_reg (Z.to_nat len) 0
                 (fun reg ptr =>
                    let reg_addr :=
                      table_addr (XSDFEC_LDPC_SC_TABLE_ADDR_BASE hdr) offset reg in
                    v <- xsdfec_regread reg_addr ;;
                    ret (upd ptr reg v))
                 sc_ptr ;;
    ret (0, sc_ptr').

Definition xsdfec_la_table_write (offset : Z) (la_ptr : Z -> Z) (len : Z) : M Z :=
  if u32 (XSDFEC_REG_WIDTH_JUMP * u32 (offset + len)) >? XSDFEC_LA_TABLE_DEPTH then
    dev_err "Write exceeds LA table length" ;;
    ret (- EINVAL)
  else
    for_reg (Z.to_nat len) 0
            (fun reg _ =>
               xsdfec_regwrite
                 (table_addr (XSDFEC_LDPC_LA_TABLE_ADDR_BASE hdr) offset reg)
                 (la_ptr reg))
            tt ;;
    ret (s32 len).

Definition xsdfec_collect_la_table (offset : Z) (la_ptr : Z -> Z) (len : Z)
  : M (Z * (Z -> Z)) :=
  let deepest_reach := u32 (XSDFEC_REG_WIDTH_JUMP * u32 (offset + len)) in
  if deepest_reach >? XSDFEC_LA_TABLE_DEPTH then
    dev_err "Access will exceed LA table length" ;;
    ret (- EINVAL, la_ptr)
  else
    la_ptr' <- for_reg (Z.to_nat len) 0
                 (fun reg ptr =>
                    let reg_addr :=
                      table_addr (XSDFEC_LDPC_LA_TABLE_ADDR_BASE hdr) offset reg in
                    v <- xsdfec_regread reg_addr ;;
                    ret (upd ptr reg v))
                 la_ptr ;;
    ret (0, la_ptr').

Definition xsdfec_qc_table_write (offset : Z) (qc_ptr : Z -> Z) (len : Z) : M Z :=
  if u32 (XSDFEC_REG_WIDTH_JUMP * u32 (offset + len)) >? XSDFEC_QC_TABLE_DEPTH then
    dev_err "Write exceeds QC table length" ;;
    ret (- EINVAL)
  else
    for_reg (Z.to_nat len) 0
            (fun reg _ =>
               xsdfec_regwrite
                 (table_addr (XSDFEC_LDPC_QC_TABLE_ADDR_BASE hdr) offset reg)
                 (qc_ptr reg))
            tt ;;
    ret (s32 len).

Definition xsdfec_collect_qc_table (offset : Z) (qc_ptr : Z -> Z) (len : Z)
  : M (Z * (Z -> Z)) :=
  let deepest_reach := u32 (XSDFEC_REG_WIDTH_JUMP * u32 (offset + len)) in
  if deepest_reach >? XSDFEC_QC_TABLE_DEPTH then
    dev_err "Access will exceed QC table length" ;;
    ret (- EINVAL, qc_ptr)
  else
    qc_ptr' <- for_reg (Z.to_nat len) 0
                 (fun reg ptr =>
                    let reg_addr :=
                      table_addr (XSDFEC_LDPC_QC_TABLE_ADDR_BASE hdr) offset reg in
                    v <- xsdfec_regread reg_addr ;;
                    ret (upd ptr reg v))
                 qc_ptr ;;
    ret (0, qc_ptr').

(** [arg] is the descriptor found at the user address. *)
Definition xsdfec_add_ldpc (ua : uaccess) (arg : xsdfec_ldpc_params) : M Z :=
  if kzalloc_fails ua then ret (- ENOMEM) else
  let ldpc := arg in
  let err := s32 (copy_from_user ua) in
  if nz err then
    dev_err "%s failed to copy from user for SDFEC%d" ;;
    ret err
  else
  d <- get ;;
  if code_eqb (code (config d)) XSDFEC_TURBO_CODE then
    dev_err "%s: Unable to write LDPC to SDFEC%d check DT" ;;
    ret err
  else
  when (wr_protect d) (xsdfec_wr_protect false) ;;
  err <- xsdfec_reg0_write (n ldpc) (k ldpc) (code_id ldpc) ;;
  if nz err then ret err else
  err <- xsdfec_reg1_write (psize ldpc) (no_packing ldpc) (nm ldpc) (code_id ldpc) ;;
  if nz err then ret err else
  err <- xsdfec_reg2_write (nlayers ldpc) (nmqc ldpc) (norm_type ldpc)
                           (special_qc ldpc) (no_final_parity ldpc)
                           (max_schedule ldpc) (code_id ldpc) ;;
  if nz err then ret err else
  err <- xsdfec_reg3_write (sc_off ldpc) (la_off ldpc) (qc_off ldpc) (code_id ldpc) ;;
  if nz err then ret err else
  err <- xsdfec_sc_table_write (sc_off ldpc) (sc_table ldpc) (nlayers ldpc) ;;
  if err <? 0 then ret err else
  err <- xsdfec_la_table_write (u32 (4 * la_off ldpc)) (la_table ldpc) (nlayers ldpc) ;;
  if err <? 0 then ret err else
  err <- xsdfec_qc_table_write (u32 (4 * qc_off ldpc)) (qc_table ldpc) (nqc ldpc) ;;
  if err <? 0 then ret err else
  ret 0.

(** The second component is what [copy_to_user] delivers to the caller:
    the descriptor when the copy succeeds, nothing otherwise. *)
Definition xsdfec_get_ldpc_code_params (ua : uaccess) (arg : xsdfec_ldpc_params)
  : M (Z * option xsdfec_ldpc_params) :=
  d <- get ;;
  if code_eqb (code (config d)) XSDFEC_TURBO_CODE then
    dev_err "%s: SDFEC%d is configured for TURBO, check DT" ;;
    ret (- EIO, None)
  else
  if kzalloc_fails ua then ret (- ENOMEM, None) else
  let ldpc_params := arg in
  let err := s32 (copy_from_user ua) in
  if nz err then
    dev_err "%s failed to copy from user for SDFEC%d" ;;
    ret (err, None)
  else
  r <- xsdfec_collect_ldpc_reg0 (code_id ldpc_params) ldpc_params ;;
  let (err, ldpc_params) := r in
  if nz err then ret (err, None) else
  r <- xsdfec_collect_ldpc_reg1 (code_id ldpc_params) ldpc_params ;;
  let (err, ldpc_params) := r in
  if nz err then ret (err, None) else
  r <- xsdfec_collect_ldpc_reg2 (code_id ldpc_params) ldpc_params ;;
  let (err, ldpc_params) := r in
  if nz err then ret (err, None) else
  r <- xsdfec_collect_ldpc_reg3 (code_id ldpc_params) ldpc_params ;;
  let (err, ldpc_params) := r in
  if nz err then ret (err, None) else
  r <- xsdfec_collect_sc_table (sc_off ldpc_params) (sc_table ldpc_params)
                               (nlayers ldpc_params) ;;
  let (err, t) := r in
  let ldpc_params := set_sc_table t ldpc_params in
  if err <? 0 then ret (err, None) else
  r <- xsdfec_collect_la_table (u32 (4 * la_off ldpc_params)) (la_table ldpc_params)
                               (nlayers ldpc_params) ;;
  let (err, t) := r in
  let ldpc_params := set_la_table t ldpc_params in
  if err <? 0 then ret (err, None) else
  r <- xsdfec_collect_qc_table (u32 (4 * qc_off ldpc_params)) (qc_table ldpc_params)
                               (nqc ldpc_params) ;;
  let (err, t) := r in
  let ldpc_params := set_qc_table t ldpc_params in
  if err <? 0 then ret (err, None) else
  let err := s32 (copy_to_user ua) in
  if nz err then
    dev_err "%s failed for SDFEC%d" ;;
    let err := - EFAULT in
    ret (0, None)
  else
    ret (0, Some ldpc_params).

(** ** Status, configuration and interrupt masks *)

Definition xsdfec_get_status (ua : uaccess) : M (Z * option xsdfec_status) :=
  d <- get ;;
  act <- xsdfec_regread XSDFEC_ACTIVE_ADDR ;;
  let status :=
    mk_status (fec_id (config d)) (state d) (Z.land act XSDFEC_IS_ACTIVITY_SET) in
  let err := s32 (copy_to_user ua) in
  if nz err then
    dev_err "%s failed for SDFEC%d" ;;
    ret (- EFAULT, None)
  else ret (err, Some status).

Definition xsdfec_get_config (ua : uaccess) : M (Z * option xsdfec_config) :=
  d <- get ;;
  let err := s32 (copy_to_user ua) in
  if nz err then
    dev_err "%s failed for SDFEC%d" ;;
    ret (- EFAULT, None)
  else ret (err, Some (config d)).

Definition xsdfec_isr_enable (enable : bool) : M Z :=
  if enable then
    xsdfec_regwrite XSDFEC_IER_ADDR XSDFEC_ISR_MASK ;;
    mask_read <- xsdfec_regread XSDFEC_IMR_ADDR ;;
    if nz (Z.land mask_read XSDFEC_ISR_MASK) then
      dev_err "SDFEC enabling irq with IER failed" ;;
      ret (- EIO)
    else ret 0
  else
    xsdfec_regwrite XSDFEC_IDR_ADDR XSDFEC_ISR_MASK ;;
    mask_read <- xsdfec_regread XSDFEC_IMR_ADDR ;;
    if negb (Z.land mask_read XSDFEC_ISR_MASK =? XSDFEC_ISR_MASK) then
      dev_err "SDFEC disabling irq with IDR failed" ;;
      ret (- EIO)
    else ret 0.

Definition xsdfec_ecc_isr_enable (enable : bool) : M Z :=
  if enable then
    xsdfec_regwrite XSDFEC_ECC_IER_ADDR XSDFEC_ECC_ISR_MASK ;;
    mask_read <- xsdfec_regread XSDFEC_ECC_IMR_ADDR ;;
    if nz (Z.land mask_read XSDFEC_ECC_ISR_MASK) then
      dev_err "SDFEC enabling ECC irq with ECC IER failed" ;;
      ret (- EIO)
    else ret 0
  else
    xsdfec_regwrite XSDFEC_ECC_IDR_ADDR XSDFEC_ECC_ISR_MASK ;;
    mask_read <- xsdfec_regread XSDFEC_ECC_IMR_ADDR ;;
    if negb (Z.land mask_read XSDFEC_ECC_ISR_MASK =? XSDFEC_ECC_ISR_MASK) then
      dev_err "SDFEC disable ECC irq with ECC IDR failed" ;;
      ret (- EIO)
    else ret 0.

Definition xsdfec_set_irq (ua : uaccess) (arg : xsdfec_irq) : M Z :=
  let irq := arg in
  let err := s32 (copy_from_user ua) in
  if nz err then
    dev_err "%s failed for SDFEC%d" ;;
    ret (- EFAULT)
  else
  err <- (if enable_isr irq then xsdfec_isr_enable true else ret err) ;;
  if err <? 0 then ret err else
  err <- (if enable_ecc_isr irq then xsdfec_ecc_isr_enable true else ret err) ;;
  if err <? 0 then ret err else
  ret 0.

(** ** Turbo parameters *)

Definition XSDFEC_TURBO_SCALE_MASK : Z := 0xF.
Definition XSDFEC_TURBO_SCALE_BIT_POS : Z := 8.

Definition xsdfec_set_turbo (ua : uaccess) (arg : xsdfec_turbo) : M Z :=
  let turbo := arg in
  let err := s32 (copy_from_user ua) in
  if nz err then
    dev_err "%s failed for SDFEC%d" ;;
    ret (- EFAULT)
  else
  d <- get ;;
  if code_eqb (code (config d)) XSDFEC_LDPC_CODE then
    dev_err "%s: Unable to write Turbo to SDFEC%d check DT" ;;
    ret (- EIO)
  else
  when (code_eqb (code (config d)) XSDFEC_CODE_INVALID)
       (modify (fun d => set_config (set_code XSDFEC_TURBO_CODE (config d)) d)) ;;
  d <- get ;;
  when (wr_protect d) (xsdfec_wr_protect false) ;;
  let turbo_write :=
    u32 (Z.lor (Z.shiftl (Z.land (scale turbo) XSDFEC_TURBO_SCALE_MASK)
                         XSDFEC_TURBO_SCALE_BIT_POS)
               (alg turbo)) in
  xsdfec_regwrite XSDFEC_TURBO_ADDR turbo_write ;;
  ret err.

Definition xsdfec_get_turbo (ua : uaccess) : M (Z * option xsdfec_turbo) :=
  d <- get ;;
  if code_eqb (code (config d)) XSDFEC_LDPC_CODE then
    dev_err "%s: SDFEC%d is configured for LDPC, check DT" ;;
    ret (- EIO, None)
  else
  reg_value <- xsdfec_regread XSDFEC_TURBO_ADDR ;;
  let turbo_params :=
    mk_turbo (Z.land reg_value 0x1)
             (Z.shiftr (Z.land reg_value XSDFEC_TURBO_SCALE_MASK)
                       XSDFEC_TURBO_SCALE_BIT_POS) in
  let err := s32 (copy_to_user ua) in
  if nz err then
    dev_err "%s failed for SDFEC%d" ;;
    ret (- EFAULT, None)
  else ret (err, Some turbo_params).

(** ** Order, bypass, activity *)

(** [arg] is the value found at the user address. *)
Definition xsdfec_set_order (arg : Z) : M Z :=
  let order := arg in
  let order_out_of_range :=
    (order <=? XSDFEC_INVALID_ORDER hdr) || (order >=? XSDFEC_ORDER_MAX hdr) in
  if order_out_of_range then
    dev_err "%s invalid order value %d for SDFEC%d" ;;
    ret (- EINVAL)
  else
  d <- get ;;
  if state_eqb (state d) XSDFEC_STARTED then
    dev_err "%s attempting to set Order while started for SDFEC%d" ;;
    ret (- EIO)
  else
  xsdfec_regwrite XSDFEC_ORDER_ADDR (u32 (order - 1)) ;;
  modify (fun d => set_config (set_order order (config d)) d) ;;
  ret 0.

Definition xsdfec_set_bypass (arg : Z) : M Z :=
  let bypass := arg in
  if bypass >? 1 then
    dev_err "%s invalid bypass value %ld for SDFEC%d" ;;
    ret (- EINVAL)
  else
  d <- get ;;
  if state_eqb (state d) XSDFEC_STARTED then
    dev_err "%s attempting to set bypass while started for SDFEC%d" ;;
    ret (- EIO)
  else
  xsdfec_regwrite XSDFEC_BYPASS_ADDR (u32 bypass) ;;
  ret 0.

Definition xsdfec_is_active : M (Z * option bool) :=
  reg_value <- xsdfec_regread XSDFEC_ACTIVE_ADDR ;;
  ret (0, Some (nz (Z.land reg_value XSDFEC_IS_ACTIVITY_SET))).

(** ** Stream configuration *)

Definition xsdfec_translate_axis_width_cfg_val (axis_width_cfg : xsdfec_axis_width) : Z :=
  match axis_width_cfg with
  | XSDFEC_1x128b => 0
  | XSDFEC_2x128b => 1
  | XSDFEC_4x128b => 2
  end.

Definition xsdfec_translate_axis_words_cfg_val
           (axis_word_inc_cfg : xsdfec_axis_word_include) : Z :=
  match axis_word_inc_cfg with
  | XSDFEC_FIXED_VALUE | XSDFEC_IN_BLOCK => 0
  | XSDFEC_PER_AXI_TRANSACTION => 1
  end.

Definition XSDFEC_AXIS_DOUT_WORDS_LSB : Z := 5.
Definition XSDFEC_AXIS_DOUT_WIDTH_LSB : Z := 3.
Definition XSDFEC_AXIS_DIN_WORDS_LSB : Z := 2.
Definition XSDFEC_AXIS_DIN_WIDTH_LSB : Z := 0.

Definition xsdfec_cfg_axi_streams : M Z :=
  d <- get ;;
  let config := config d in
  let dout_words_field :=
    xsdfec_translate_axis_words_cfg_val (dout_word_include config) in
  let dout_width_field :=
    xsdfec_translate_axis_width_cfg_val (dout_width config) in
  let din_words_field :=
    xsdfec_translate_axis_words_cfg_val (din_word_include config) in
  let din_width_field :=
    xsdfec_translate_axis_width_cfg_val (din_width config) in
  let reg_value := shl32 dout_words_field XSDFEC_AXIS_DOUT_WORDS_LSB in
  let reg_value := Z.lor reg_value (shl32 dout_width_field XSDFEC_AXIS_DOUT_WIDTH_LSB) in
  let reg_value := Z.lor reg_value (shl32 din_words_field XSDFEC_AXIS_DIN_WORDS_LSB) in
  let reg_value := Z.lor reg_value (shl32 din_width_field XSDFEC_AXIS_DIN_WIDTH_LSB) in
  xsdfec_regwrite XSDFEC_AXIS_WIDTH_ADDR reg_value ;;
  ret 0.

(** ** Device state machine *)

Definition xsdfec_start : M Z :=
  d <- get ;;
  if code_eqb (code (config d)) XSDFEC_CODE_INVALID then
    dev_err "%s : set code before start for SDFEC%d" ;;
    ret (- EINVAL)
  else
  regread <- xsdfec_regread XSDFEC_FEC_CODE_ADDR ;;
  let regread := Z.land regread 0x1 in
  if negb (regread =? u32 (code_val hdr (code (config d)) - 1)) then
    dev_err "%s SDFEC HW code does not match driver code, reg %d, code %d" ;;
    ret (- EINVAL)
  else
  if order (config d) =? XSDFEC_INVALID_ORDER hdr then
    dev_err "%s : set order before starting SDFEC%d" ;;
    ret (- EINVAL)
  else
  xsdfec_regwrite XSDFEC_AXIS_ENABLE_ADDR XSDFEC_AXIS_ENABLE_MASK ;;
  xsdfec_wr_protect true ;;
  modify (set_state XSDFEC_STARTED) ;;
  ret 0.

Definition xsdfec_stop : M Z :=
  d <- get ;;
  when (negb (state_eqb (state d) XSDFEC_STARTED))
       (dev_err "Device not started correctly") ;;
  xsdfec_wr_protect false ;;
  regread <- xsdfec_regread XSDFEC_AXIS_ENABLE_ADDR ;;
  let regread := Z.land regread (not32 XSDFEC_AXIS_ENABLE_MASK) in
  xsdfec_regwrite XSDFEC_AXIS_ENABLE_ADDR regread ;;
  modify (set_state XSDFEC_STOPPED) ;;
  ret 0.

Definition xsdfec_clear_stats : M Z :=
  modify (set_counters 0 0 0) ;;
  ret 0.

Definition xsdfec_get_stats (ua : uaccess) : M (Z * option xsdfec_stats) :=
  d <- get ;;
  let user_stats := mk_stats (isr_err_count d) (cecc_count d) (uecc_count d) in
  let err := s32 (copy_to_user ua) in
  if nz err then
    dev_err "%s failed for SDFEC%d" ;;
    ret (- EFAULT, None)
  else ret (err, Some user_stats).

Definition xsdfec_set_default_config : M Z :=
  modify (set_state XSDFEC_INIT) ;;
  modify (fun d => set_config (set_order (XSDFEC_INVALID_ORDER hdr) (config d)) d) ;;
  modify (set_wr_protect false) ;;
  xsdfec_wr_protect false ;;
  d <- get ;;
  xsdfec_regwrite XSDFEC_FEC_CODE_ADDR (u32 (code_val hdr (code (config d)) - 1)) ;;
  xsdfec_cfg_axi_streams ;;
  ret 0.

(** ** Control dispatch *)

(** Modelled from the spec: the command decoding macros of
    asm-generic/ioctl.h are not in the driver file; a command code packs a
    direction, a size, a type ("magic") and a number. *)
Definition _IOC_TYPE (cmd : Z) : Z := Z.land (Z.shiftr cmd 8) 0xFF.
Definition _IOC_SIZE (cmd : Z) : Z := Z.land (Z.shiftr cmd 16) 0x3FFF.
Definition _IOC_DIR (cmd : Z) : Z := Z.land (Z.shiftr cmd 30) 0x3.
Definition _IOC_NONE : Z := 0.
Definition _IOC_WRITE : Z := 1.
Definition _IOC_READ : Z := 2.
Definition VERIFY_READ : Z := 0.
Definition VERIFY_WRITE : Z := 1.

(** The argument of one ioctl call: the raw [data] word, the answer of
    [access_ok] for each access type, the outcome of the kernel copies,
    and the object at the user address seen at each of the types the
    handlers read it at. *)
Record ioctl_arg : Type := mk_ioctl_arg {
  data : Z;
  access_ok : Z -> bool;
  user : uaccess;
  as_irq : xsdfec_irq;
  as_turbo : xsdfec_turbo;
  as_ldpc : xsdfec_ldpc_params;
  as_order : Z;
  as_bypass : Z
}.

(** What a call leaves at the user address. *)
Inductive ioctl_out : Type :=
| OutNothing
| OutStatus (s : xsdfec_status)
| OutConfig (c : xsdfec_config)
| OutTurbo (t : xsdfec_turbo)
| OutLdpc (p : xsdfec_ldpc_params)
| OutStats (s : xsdfec_stats)
| OutActive (b : bool).

Definition out_of {A : Type} (f : A -> ioctl_out) (r : Z * option A) : Z * ioctl_out :=
  (fst r, match snd r with Some a => f a | None => OutNothing end).

(** The device is [fptr->private_data]; the call on a file without one
    (which returns -EINVAL at once) has no driver data to run on. *)
Definition xsdfec_dev_ioctl (cmd : Z) (a : ioctl_arg) : M (Z * ioctl_out) :=
  let rval := - EINVAL in
  let err := 0 in
  d <- get ;;
  if state_eqb (state d) XSDFEC_NEEDS_RESET &&
     (negb (cmd =? XSDFEC_SET_DEFAULT_CONFIG hdr) &&
      negb (cmd =? XSDFEC_GET_STATUS hdr) &&
      negb (cmd =? XSDFEC_GET_STATS hdr) &&
      negb (cmd =? XSDFEC_CLEAR_STATS hdr))
  then
    dev_err "SDFEC%d in failed state. Reset Required" ;;
    ret (- EPERM, OutNothing)
  else
  if negb (_IOC_TYPE cmd =? XSDFEC_MAGIC hdr) then
    dev_err "Not a xilinx sdfec ioctl" ;;
    ret (- ENOTTY, OutNothing)
  else
  if negb (_IOC_DIR cmd =? _IOC_NONE) && (data a =? 0) then
    dev_err "xilinx sdfec ioctl argument is NULL Pointer" ;;
    ret (rval, OutNothing)
  else
  let err :=
    if nz (Z.land (_IOC_DIR cmd) _IOC_READ) then
      Z.b2z (negb (access_ok a VERIFY_WRITE))
    else if nz (Z.land (_IOC_DIR cmd) _IOC_WRITE) then
      Z.b2z (negb (access_ok a VERIFY_READ))
    else err in
  if nz err then
    dev_err "Invalid xilinx sdfec ioctl argument" ;;
    ret (- EFAULT, OutNothing)
  else
  if cmd =? XSDFEC_START_DEV hdr then
    rval <- xsdfec_start ;; ret (rval, OutNothing)
  else if cmd =? XSDFEC_STOP_DEV hdr then
    rval <- xsdfec_stop ;; ret (rval, OutNothing)
  else if cmd =? XSDFEC_CLEAR_STATS hdr then
    rval <- xsdfec_clear_stats ;; ret (rval, OutNothing)
  else if cmd =? XSDFEC_GET_STATS hdr then
    r <- xsdfec_get_stats (user a) ;; ret (out_of OutStats r)
  else if cmd =? XSDFEC_GET_STATUS hdr then
    r <- xsdfec_get_status (user a) ;; ret (out_of OutStatus r)
  else if cmd =? XSDFEC_GET_CONFIG hdr then
    r <- xsdfec_get_config (user a) ;; ret (out_of OutConfig r)
  else if cmd =? XSDFEC_SET_DEFAULT_CONFIG hdr then
    rval <- xsdfec_set_default_config ;; ret (rval, OutNothing)
  else if cmd =? XSDFEC_SET_IRQ hdr then
    rval <- xsdfec_set_irq (user a) (as_irq a) ;; ret (rval, OutNothing)
  else if cmd =? XSDFEC_SET_TURBO hdr then
    rval <- xsdfec_set_turbo (user a) (as_turbo a) ;; ret (rval, OutNothing)
  else if cmd =? XSDFEC_GET_TURBO hdr then
    r <- xsdfec_get_turbo (user a) ;; ret (out_of OutTurbo r)
  else if cmd =? XSDFEC_ADD_LDPC_CODE_PARAMS hdr then
    rval <- xsdfec_add_ldpc (user a) (as_ldpc a) ;; ret (rval, OutNothing)
  else if cmd =? XSDFEC_GET_LDPC_CODE_PARAMS hdr then
    r <- xsdfec_get_ldpc_code_params (user a) (as_ldpc a) ;; ret (out_of OutLdpc r)
  else if cmd =? XSDFEC_SET_ORDER hdr then
    rval <- xsdfec_set_order (as_order a) ;; ret (rval, OutNothing)
  else if cmd =? XSDFEC_SET_BYPASS hdr then
    rval <- xsdfec_set_bypass (as_bypass a) ;; ret (rval, OutNothing)
  else if cmd =? XSDFEC_IS_ACTIVE hdr then
    r <- xsdfec_is_active ;; ret (out_of OutActive r)
  else
    dev_err "Undefined SDFEC IOCTL" ;;
    ret (rval, OutNothing).

(** The case labels of the switch, which C requires to be distinct. *)
Definition ioctl_cases : list Z :=
  [ XSDFEC_START_DEV hdr; XSDFEC_STOP_DEV hdr; XSDFEC_CLEAR_STATS hdr;
    XSDFEC_GET_STATS hdr; XSDFEC_GET_STATUS hdr; XSDFEC_GET_CONFIG hdr;
    XSDFEC_SET_DEFAULT_CONFIG hdr; XSDFEC_SET_IRQ hdr; XSDFEC_SET_TURBO hdr;
    XSDFEC_GET_TURBO hdr; XSDFEC_ADD_LDPC_CODE_PARAMS hdr;
    XSDFEC_GET_LDPC_CODE_PARAMS hdr; XSDFEC_SET_ORDER hdr;
    XSDFEC_SET_BYPASS hdr; XSDFEC_IS_ACTIVE hdr ].

(** ** Fault detection and escalation *)

(** [atomic_add_return] on an [atomic_t]: 32-bit signed, wrapping. *)
Definition atomic_add (i v : Z) : Z := s32 (v + i).

Definition xsdfec_log_ecc_errors (ecc_err : Z) : M unit :=
  let cecc := Z.land ecc_err XSDFEC_ECC_ISR_SBE in
  let uecc := Z.land ecc_err XSDFEC_ECC_ISR_MBE in
  d <- get ;;
  let uecc_cnt := atomic_add (hweight32 uecc) (uecc_count d) in
  modify (fun d => set_counters (isr_err_count d) (cecc_count d) uecc_cnt d) ;;
  modify (fun d => set_counters (isr_err_count d)
                                (atomic_add (hweight32 cecc) (cecc_count d))
                                (uecc_count d) d) ;;
  when ((uecc_cnt >? 0) && (uecc_cnt <? XSDFEC_ERROR_MAX_THRESHOLD))
       (dev_err "Multi-bit error on xsdfec%d. Needs reset") ;;
  xsdfec_regwrite XSDFEC_ECC_ISR_ADDR 0.

Definition xsdfec_log_isr_errors (isr_err : Z) : M unit :=
  d <- get ;;
  let isr_err_cnt := atomic_add (hweight32 isr_err) (isr_err_count d) in
  modify (fun d => set_counters isr_err_cnt (cecc_count d) (uecc_count d) d) ;;
  when ((isr_err_cnt >? 0) && (isr_err_cnt <? XSDFEC_ERROR_MAX_THRESHOLD))
       (dev_err "Tlast,or DIN_WORDS or DOUT_WORDS not correct") ;;
  xsdfec_regwrite XSDFEC_ECC_ISR_ADDR 0.

Definition xsdfec_reset_required : M unit :=
  modify (set_state XSDFEC_NEEDS_RESET).

Inductive irqreturn_t : Type :=
| IRQ_NONE
| IRQ_HANDLED.

(** Modelled from the spec: [wake_up_interruptible] is the kernel's wait
    queue primitive; the spec has it wake the threads waiting for the
    device-ready notification.  The model counts the calls. *)
Definition wake_up_interruptible : M unit :=
  modify (fun d => set_wakeups (S (wakeups d)) d).

(** The threaded interrupt handler.  The second component of the result
    is [fatal_err]. *)
Definition xsdfec_irq_thread : M (irqreturn_t * bool) :=
  xsdfec_isr_enable false ;;
  xsdfec_ecc_isr_enable false ;;
  ecc_err <- xsdfec_regread XSDFEC_ECC_ISR_ADDR ;;
  isr_err <- xsdfec_regread XSDFEC_ISR_ADDR ;;
  r <- (if nz (Z.land ecc_err XSDFEC_ECC_ISR_MBE) then
          xsdfec_log_ecc_errors ecc_err ;;
          xsdfec_reset_required ;;
          ret (IRQ_HANDLED, true)
        else if nz (Z.land isr_err XSDFEC_ISR_MASK) then
          xsdfec_log_isr_errors isr_err ;;
          xsdfec_reset_required ;;
          ret (IRQ_HANDLED, true)
        else if nz (Z.land ecc_err XSDFEC_ECC_ISR_SBE) then
          xsdfec_log_ecc_errors ecc_err ;;
          ret (IRQ_HANDLED, false)
        else
          ret (IRQ_NONE, false)) ;;
  when (snd r) wake_up_interruptible ;;
  xsdfec_isr_enable true ;;
  xsdfec_ecc_isr_enable true ;;
  ret r.

End Driver.

(** ** A header instance and sample devices, to run the model *)

(** Command code built the way [_IO], [_IOR] and [_IOW] build it. *)
Definition ioc (dir size nr : Z) : Z :=
  Z.lor (Z.lor (Z.lor (Z.shiftl dir 30) (Z.shiftl size 16)) (Z.shiftl 102 8)) nr.

(** Table bases above the code registers, enumerations numbered from zero
    in the order Invalid, Turbo, LDPC, and fifteen distinct command codes
    with magic 102. *)
Definition sample_hdr : uapi_header :=
  mk_header 0x10000 0x18000 0x20000
            (fun c => match c with
                      | XSDFEC_CODE_INVALID => 0
                      | XSDFEC_TURBO_CODE => 1
                      | XSDFEC_LDPC_CODE => 2
                      end)
            0 3 102
            (ioc _IOC_NONE 0 0) (ioc _IOC_NONE 0 1) (ioc _IOC_NONE 0 2)
            (ioc _IOC_READ 8 3) (ioc _IOC_READ 8 4) (ioc _IOC_READ 8 5)
            (ioc _IOC_NONE 0 6) (ioc _IOC_WRITE 8 7) (ioc _IOC_WRITE 8 8)
            (ioc _IOC_READ 8 9) (ioc _IOC_WRITE 8 10) (ioc 3 8 11)
            (ioc _IOC_WRITE 8 12) (ioc _IOC_WRITE 8 13) (ioc _IOC_READ 8 14).

Definition sample_config (c : xsdfec_code) (o : Z) : xsdfec_config :=
  mk_config 0 c o XSDFEC_1x128b XSDFEC_FIXED_VALUE XSDFEC_1x128b XSDFEC_FIXED_VALUE.

(** A device with the given register contents, state, code family, order
    and write-protect flag; nothing logged, counters at zero. *)
Definition sample_dev (r : Z -> Z) (s : xsdfec_state) (c : xsdfec_code) (o : Z)
           (wp : bool) : xsdfec_dev :=
  mk_dev r [] [] s (sample_config c o) false wp 0 0 0 0 0 0%nat.

Definition zero_regs : Z -> Z := fun _ => 0.

Definition array_of (l : list Z) : Z -> Z := fun i => nth (Z.to_nat i) l 0.

(** Every copy and allocation succeeds. *)
Definition ua_ok : uaccess := mk_uaccess false 0 0.

(** The descriptor of the spec's scenario: code 3, n = 64800, k = 32400,
    four layers, eight quantization codes. *)
Definition sample_ldpc : xsdfec_ldpc_params :=
  mk_ldpc 64800 32400 360 4 8 8 90 1 1 1 1 1 1 1 1
          (array_of [11; 12; 13; 14]) (array_of [21; 22; 23; 24])
          (array_of [31; 32; 33; 34; 35; 36; 37; 38]) 3.

(** The addresses written among the events of a log. *)
Definition written (l : list io_event) : list Z :=
  flat_map (fun e => match e with IoWrite a _ => [a] | IoRead _ _ => [] end) l.

(** ** Statements of the spec, in the spec's words *)

(** Register 0 as the spec describes the codec: each field masked to its
    declared width and shifted to its offset. *)
Definition encode_reg0 (n k : Z) : Z :=
  Z.lor (Z.shiftl (Z.land k 0x7FFF) 16) (Z.shiftl (Z.land n 0xFFFF) 0).

Definition encode_reg2
           (nlayers nmqc norm_type special_qc no_final_parity max_schedule : Z) : Z :=
  Z.lor (Z.lor (Z.lor (Z.lor (Z.lor (Z.shiftl (Z.land max_schedule 0x3) 23)
                                    (Z.shiftl (Z.land no_final_parity 0x1) 22))
                             (Z.shiftl (Z.land special_qc 0x1) 21))
                      (Z.shiftl (Z.land norm_type 0x1) 20))
               (Z.shiftl (Z.land nmqc 0x7FF) 9))
        (Z.shiftl (Z.land nlayers 0x1FF) 0).

(** The register writes of one table payload: word [i] of [ptr] goes to
    word [offset + i] of the table at [base]. *)
Definition table_writes (base offset : Z) (ptr : Z -> Z) (len : Z) : list io_event :=
  map (fun i => IoWrite (table_addr base offset (Z.of_nat i)) (ptr (Z.of_nat i)))
      (seq 0 (Z.to_nat len)).

(** The preconditions of [start]: code family set, hardware code register
    matching it, decode order set. *)
Definition start_preconditions (hdr : uapi_header) (d : xsdfec_dev) : bool :=
  negb (code_eqb (code (config d)) XSDFEC_CODE_INVALID) &&
  (Z.land (u32 (regs d XSDFEC_FEC_CODE_ADDR)) 0x1
   =? u32 (code_val hdr (code (config d)) - 1)) &&
  negb (order (config d) =? XSDFEC_INVALID_ORDER hdr).

(** ** Frame conditions *)

(** [keeps proj m]: running [m] leaves the part [proj] of the driver data
    as it was. *)
Definition keeps {A B : Type} (proj : xsdfec_dev -> B) (m : M A) : Prop :=
  forall d, proj (snd (m d)) = proj d.

(** A component of the driver data that neither the register window nor
    the message log is part of. *)
Definition driver_part {B : Type} (proj : xsdfec_dev -> B) : Prop :=
  (forall m d, proj (set_dmesg m d) = proj d) /\
  (forall r l d, proj (set_hw r l d) = proj d).

(** Such a component that is not the write-protect flag either. *)
Definition software_part {B : Type} (proj : xsdfec_dev -> B) : Prop :=
  driver_part proj /\
  (forall b d, proj (set_wr_protect b d) = proj d).

(** [same_status r1 r2]: two runs of a handler hand the same status code
    back to the caller, and the second delivers nothing to user space. *)
Definition same_status {A : Type} (r1 r2 : (Z * option A) * xsdfec_dev) : Prop :=
  fst (fst r1) = fst (fst r2) /\ snd (fst r2) = None.

(** The writes that [xsdfec_wr_protect false] issues when [xsdfec_add_ldpc]
    finds the device protected. *)
Definition unprotect_log (d : xsdfec_dev) : list io_event :=
  if wr_protect d then
    [IoWrite XSDFEC_AXI_WR_PROTECT_ADDR XSDFEC_WRITE_PROTECT_DISABLE;
     IoWrite XSDFEC_CODE_WR_PROTECT_ADDR XSDFEC_WRITE_PROTECT_DISABLE]
  else [].

Definition code_reg_addr_of (base code_id : Z) : Z :=
  u32 (base + u32 (code_id * XSDFEC_LDPC_REG_JUMP)).

(** The programming sequence of one descriptor: four code register writes
    with words [w0] to [w3], then the sc, la and qc payloads, the sc
    payload starting at table word [sc_start]. *)
Definition ldpc_program_log (hdr : uapi_header) (sc_start : Z)
           (ldpc : xsdfec_ldpc_params) (w0 w1 w2 w3 : Z) : list io_event :=
  [IoWrite (code_reg_addr_of XSDFEC_LDPC_CODE_REG0_ADDR_BASE (code_id ldpc)) w0;
   IoWrite (code_reg_addr_of XSDFEC_LDPC_CODE_REG1_ADDR_BASE (code_id ldpc)) w1;
   IoWrite (code_reg_addr_of XSDFEC_LDPC_CODE_REG2_ADDR_BASE (code_id ldpc)) w2;
   IoWrite (code_reg_addr_of XSDFEC_LDPC_CODE_REG3_ADDR_BASE (code_id ldpc)) w3]
  ++ table_writes (XSDFEC_LDPC_SC_TABLE_ADDR_BASE hdr) sc_start
                  (sc_table ldpc) (nlayers ldpc)
  ++ table_writes (XSDFEC_LDPC_LA_TABLE_ADDR_BASE hdr) (u32 (4 * la_off ldpc))
                  (la_table ldpc) (nlayers ldpc)
  ++ table_writes (XSDFEC_LDPC_QC_TABLE_ADDR_BASE hdr) (u32 (4 * qc_off ldpc))
                  (qc_table ldpc) (nqc ldpc).

(** Claim C4 as the spec states it, for one call: a successful
    [xsdfec_add_ldpc] issues the four register writes and then the three
    payloads, each at table word 4 times its offset field. *)
Definition add_ldpc_as_specified (hdr : uapi_header) (ua : uaccess)
           (arg : xsdfec_ldpc_params) (d : xsdfec_dev) : Prop :=
  let r := xsdfec_add_ldpc hdr ua arg d in
  fst r = 0 ->
  exists w0 w1 w2 w3,
    io_log (snd r)
    = io_log d ++ unprotect_log d
      ++ ldpc_program_log hdr (u32 (4 * sc_off arg)) arg w0 w1 w2 w3.

(** [leaves_alone addrs d d']: between [d] and [d'] the registers at
    [addrs] keep their contents and none of them is written. *)
Definition leaves_alone (addrs : list Z) (d d' : xsdfec_dev) : Prop :=
  (forall a, In a addrs -> regs d' a = regs d a) /\
  exists l, io_log d' = io_log d ++ l /\
            forall a, In a addrs -> ~ In a (written l).

(** [hw_frame addrs m]: running [m] leaves the registers at [addrs] alone. *)
Definition hw_frame {A : Type} (addrs : list Z) (m : M A) : Prop :=
  forall d, leaves_alone addrs d (snd (m d)).

(** The software side of the driver data seen by the fault handler. *)
Definition sw_view (d : xsdfec_dev)
  : xsdfec_state * bool * (Z * Z * Z) * nat :=
  (state d, wr_protect d, (isr_err_count d, cecc_count d, uecc_count d), wakeups d).


(** ** File operations: session and poll *)

(** [container_of] on the character device of the inode gives the driver
    data, which is never null; [atomic_dec_and_test] and [atomic_inc] act
    on [open_count]; the store to [fptr->private_data] is the link the
    later calls come through and is not part of the driver data. *)
Definition xsdfec_dev_open : M Z :=
  d <- get ;;
  let c := atomic_add (- 1) (open_count d) in
  modify (set_open_count c) ;;
  if negb (c =? 0) then
    modify (fun d => set_open_count (atomic_add 1 (open_count d)) d) ;;
    ret (- EBUSY)
  else ret 0.

Definition xsdfec_dev_release : M Z :=
  modify (fun d => set_open_count (atomic_add 1 (open_count d)) d) ;;
  ret 0.

(** Poll event bits (asm-generic/poll.h). *)
Definition POLLIN : Z := 0x0001.
Definition POLLPRI : Z := 0x0002.
Definition POLLERR : Z := 0x0008.
Definition POLLHUP : Z := 0x0010.
Definition POLLNVAL : Z := 0x0020.
Definition POLLRDNORM : Z := 0x0040.

(** The device is [file->private_data]; the call on a file without one
    (which returns POLLNVAL | POLLHUP at once) has no driver data to run
    on.  [poll_wait] queues the caller on [waitq] and changes nothing in
    the driver data. *)
Definition xsdfec_poll : M Z :=
  d <- get ;;
  if state_eqb (state d) XSDFEC_NEEDS_RESET then
    ret (Z.lor POLLIN POLLRDNORM)
  else
    ret (Z.lor POLLPRI POLLERR).

(** ** Invariants and views used by the further properties *)

(** An idle device (INIT or STOPPED) is not write-protected. *)
Definition unprotected_when_idle (d : xsdfec_dev) : Prop :=
  state d = XSDFEC_INIT \/ state d = XSDFEC_STOPPED -> wr_protect d = false.

(** The three error counters hold 32-bit signed values. *)
Definition counters_in_range (d : xsdfec_dev) : Prop :=
  - 2 ^ 31 <= isr_err_count d < 2 ^ 31 /\
  - 2 ^ 31 <= cecc_count d < 2 ^ 31 /\
  - 2 ^ 31 <= uecc_count d < 2 ^ 31.

(** The word [xsdfec_reg1_write] is meant to build: each field masked to
    the width of its mask and shifted to its position. *)
Definition encode_reg1 (psize no_packing nm : Z) : Z :=
  Z.lor (Z.lor (Z.shiftl (Z.land nm 0x1FF) 11)
               (Z.shiftl (Z.land no_packing 0x1) 10))
        (Z.land psize 0x1FF).

(** The word of register 3: the three offsets narrowed to 16, 8 and 8
    bits. *)
Definition encode_reg3 (sc_off la_off qc_off : Z) : Z :=
  Z.lor (Z.lor (Z.shiftl (qc_off mod 2 ^ 16) 16) (Z.shiftl (la_off mod 2 ^ 8) 8))
        (sc_off mod 2 ^ 8).

(** No register write among the events of a log. *)
Definition read_only (l : list io_event) : Prop := written l = [].

(** [respects R m]: every run of [m] takes a device to one related to it
    by [R]. *)
Definition respects {A : Type} (R : xsdfec_dev -> xsdfec_dev -> Prop) (m : M A)
  : Prop :=
  forall d, R d (snd (m d)).

(** [reads_only d d']: the registers of [d'] are those of [d] and the
    events added to the log are all reads. *)
Definition reads_only (d d' : xsdfec_dev) : Prop :=
  regs d' = regs d /\ exists l, io_log d' = io_log d ++ l /\ read_only l.

(** [writes_nothing m]: [m] never writes a register. *)
Definition writes_nothing {A : Type} (m : M A) : Prop := respects reads_only m.

(** [stays_protected d d']: if [d] is write-protected then so is [d'], and
    no register was written in between. *)
Definition stays_protected (d d' : xsdfec_dev) : Prop :=
  wr_protect d = true -> wr_protect d' = true /\ reads_only d d'.

(** [protection_not_raised d d']: the state is the same and an unprotected
    device is still unprotected. *)
Definition protection_not_raised (d d' : xsdfec_dev) : Prop :=
  state d' = state d /\ (wr_protect d = false -> wr_protect d' = false).

(** [untouched d d']: the same device up to the message log. *)
Definition untouched (d d' : xsdfec_dev) : Prop :=
  regs d' = regs d /\ io_log d' = io_log d /\ state d' = state d /\
  config d' = config d /\ wr_protect d' = wr_protect d /\
  isr_err_count d' = isr_err_count d /\ cecc_count d' = cecc_count d /\
  uecc_count d' = uecc_count d /\ open_count d' = open_count d /\
  wakeups d' = wakeups d.

(** The stream-width word as a function of the configuration: output
    word mode in bit 5, output width class in bits 3 and 4, input word
    mode in bit 2, input width class in bits 0 and 1. *)
Definition axis_width_word (c : xsdfec_config) : Z :=
  Z.lor (Z.lor (Z.lor
    (Z.shiftl (xsdfec_translate_axis_words_cfg_val (dout_word_include c)) 5)
    (Z.shiftl (xsdfec_translate_axis_width_cfg_val (dout_width c)) 3))
    (Z.shiftl (xsdfec_translate_axis_words_cfg_val (din_word_include c)) 2))
    (xsdfec_translate_axis_width_cfg_val (din_width c)).

(** [rejected code msg d r]: the call [r] on [d] returned [code], delivered
    nothing to user space, logged [msg] and left the rest of the device as
    it was. *)
Definition rejected (code : Z) (msg : string) (d : xsdfec_dev)
           (r : (Z * ioctl_out) * xsdfec_dev) : Prop :=
  fst r = (code, OutNothing) /\
  untouched d (snd r) /\
  dmesg (snd r) = dmesg d ++ [msg].
(** * Properties *)

(** ** Monad steps *)

Lemma bind_run {A B : Type} (m : M A) (f : A -> M B) (d : xsdfec_dev) :
  bind m f d = f (fst (m d)) (snd (m d)).
Proof. reflexivity. Qed.

Lemma bind_eq {A B : Type} (m : M A) (f : A -> M B) (d d' : xsdfec_dev) (a : A) :
  m d = (a, d') -> bind m f d = f a d'.
Proof. intros H. rewrite bind_run, H. reflexivity. Qed.

Lemma regwrite_run (addr value : Z) (d : xsdfec_dev) :
  xsdfec_regwrite addr value d =
  (tt, if wr_protect d
       then set_dmesg (dmesg d ++ ["SDFEC in write protect"]) d
       else set_hw (upd (regs d) addr value) (io_log d ++ [IoWrite addr value]) d).
Proof.
  unfold xsdfec_regwrite, bind, get, dev_err, iowrite32, modify; cbn.
  destruct (wr_protect d); reflexivity.
Qed.

Lemma regread_run (addr : Z) (d : xsdfec_dev) :
  xsdfec_regread addr d =
  (u32 (regs d addr),
   set_hw (regs d) (io_log d ++ [IoRead addr (u32 (regs d addr))]) d).
Proof. reflexivity. Qed.

Lemma dev_err_run (msg : string) (d : xsdfec_dev) :
  dev_err msg d = (tt, set_dmesg (dmesg d ++ [msg]) d).
Proof. reflexivity. Qed.

Lemma when_log_run (b : bool) (msg : string) (d : xsdfec_dev) :
  when b (dev_err msg) d
  = (tt, set_dmesg (dmesg d ++ (if b then [msg] else [])) d).
Proof.
  destruct d as [r l m s c ie wp ic cc uc oc iq wk].
  destruct b; cbn; rewrite ?app_nil_r; reflexivity.
Qed.

(** Reduces the projections of a device built by the setters. *)
Ltac dev_simpl :=
  cbn [fst snd ret regs io_log dmesg state config intr_enabled wr_protect
       isr_err_count cecc_count uecc_count open_count irq wakeups
       set_hw set_dmesg set_state set_config set_wr_protect set_counters
       set_open_count set_wakeups].

Ltac dev_simpl_in H :=
  cbn [fst snd ret regs io_log dmesg state config intr_enabled wr_protect
       isr_err_count cecc_count uecc_count open_count irq wakeups
       set_hw set_dmesg set_state set_config set_wr_protect set_counters
       set_open_count set_wakeups] in H.

Lemma u32_range (x : Z) : 0 <= u32 x < 2 ^ 32.
Proof. unfold u32. apply Z.mod_pos_bound. lia. Qed.

Lemma u32_small (x : Z) : 0 <= x < 2 ^ 32 -> u32 x = x.
Proof. intros H. unfold u32. apply Z.mod_small. exact H. Qed.

Lemma nz_false (x : Z) : nz x = false <-> x = 0.
Proof.
  unfold nz. rewrite negb_false_iff. apply Z.eqb_eq.
Qed.

Lemma nz_true (x : Z) : nz x = true <-> x <> 0.
Proof.
  unfold nz. rewrite negb_true_iff. apply Z.eqb_neq.
Qed.

(** ** Write protection (claim C8) *)

(** Claim C8: for every register address and value, [xsdfec_regwrite]
    called while the write-protect flag is set performs no access to the
    register window (the event log is unchanged), leaves every register
    as it was, so that reading the target register before and after gives
    the same value, and only records the rejection message. *)
Theorem regwrite_protected_no_access (addr value : Z) (d : xsdfec_dev) :
  wr_protect d = true ->
  let d' := snd (xsdfec_regwrite addr value d) in
  io_log d' = io_log d /\
  regs d' = regs d /\
  fst (xsdfec_regread addr d') = fst (xsdfec_regread addr d) /\
  dmesg d' = dmesg d ++ ["SDFEC in write protect"].
Proof.
  intros Hwp. rewrite regwrite_run, Hwp. cbn. repeat split.
Qed.

Lemma regwrite_protected_no_access_witness :
  let d := sample_dev zero_regs XSDFEC_STARTED XSDFEC_LDPC_CODE 1 true in
  let d' := snd (xsdfec_regwrite XSDFEC_TURBO_ADDR 0x301 d) in
  io_log d' = io_log d /\
  regs d' = regs d /\
  fst (xsdfec_regread XSDFEC_TURBO_ADDR d') = fst (xsdfec_regread XSDFEC_TURBO_ADDR d) /\
  dmesg d' = dmesg d ++ ["SDFEC in write protect"].
Proof.
  apply (regwrite_protected_no_access XSDFEC_TURBO_ADDR 0x301
           (sample_dev zero_regs XSDFEC_STARTED XSDFEC_LDPC_CODE 1 true)).
  reflexivity.
Defined.

(** The same call with the flag clear does reach the register. *)
Lemma regwrite_unprotected_stores (addr value : Z) (d : xsdfec_dev) :
  wr_protect d = false ->
  let d' := snd (xsdfec_regwrite addr value d) in
  io_log d' = io_log d ++ [IoWrite addr value] /\
  fst (xsdfec_regread addr d') = u32 value.
Proof.
  intros Hwp. rewrite regwrite_run, Hwp. cbn. unfold upd.
  rewrite Z.eqb_refl. split; reflexivity.
Qed.

(** ** Frame lemmas: what the programming helpers leave alone *)

Section Frame.

Context {B : Type} (proj : xsdfec_dev -> B).
Hypothesis Hdp : driver_part proj.

Lemma keeps_ret {A : Type} (a : A) : keeps proj (ret a).
Proof. intros d. reflexivity. Qed.

Lemma keeps_get : keeps proj get.
Proof. intros d. reflexivity. Qed.

Lemma keeps_bind {A C : Type} (m : M A) (f : A -> M C) :
  keeps proj m -> (forall a, keeps proj (f a)) -> keeps proj (bind m f).
Proof.
  intros Hm Hf d. rewrite bind_run, Hf. apply Hm.
Qed.

Lemma keeps_dev_err (msg : string) : keeps proj (dev_err msg).
Proof. intros d. rewrite dev_err_run. cbn. apply Hdp. Qed.

Lemma keeps_when (b : bool) (m : M unit) : keeps proj m -> keeps proj (when b m).
Proof. intros Hm. destruct b; [exact Hm | apply keeps_ret]. Qed.

Lemma keeps_if {A : Type} (b : bool) (m1 m2 : M A) :
  keeps proj m1 -> keeps proj m2 -> keeps proj (if b then m1 else m2).
Proof. destruct b; auto. Qed.

Lemma keeps_regwrite (addr value : Z) : keeps proj (xsdfec_regwrite addr value).
Proof.
  intros d. rewrite regwrite_run. cbn. destruct (wr_protect d); apply Hdp.
Qed.

Lemma keeps_regread (addr : Z) : keeps proj (xsdfec_regread addr).
Proof. intros d. rewrite regread_run. cbn. apply Hdp. Qed.

Lemma keeps_for_reg {A : Type} (body : Z -> A -> M A) (cnt : nat) :
  (forall reg acc, keeps proj (body reg acc)) ->
  forall reg acc, keeps proj (for_reg cnt reg body acc).
Proof.
  intros Hbody. induction cnt as [| cnt IH]; intros reg acc; cbn [for_reg].
  - apply keeps_ret.
  - apply keeps_bind; [apply Hbody | intros a; apply IH].
Qed.

End Frame.

Create HintDb frame.

#[local] Hint Resolve keeps_ret keeps_get keeps_dev_err keeps_when keeps_if
  keeps_regwrite keeps_regread : frame.

(** Splits a sequence of steps into its steps. *)
Ltac keeps_steps :=
  repeat match goal with
         | |- keeps _ (bind _ _) => apply keeps_bind; [ | intros ? ]
         | |- keeps _ (if _ then _ else _) => apply keeps_if
         | |- keeps _ (when _ _) => apply keeps_when
         | |- keeps _ (for_reg _ _ _ _) => apply keeps_for_reg; intros ? ?
         | |- keeps _ (let (_, _) := ?r in _) => destruct r
         end;
  eauto with frame.

Section FrameOps.

Context {B : Type} (proj : xsdfec_dev -> B).
Hypothesis Hdp : driver_part proj.
Variable hdr : uapi_header.

Lemma keeps_reg0_write (n k offset : Z) : keeps proj (xsdfec_reg0_write n k offset).
Proof. unfold xsdfec_reg0_write. keeps_steps. Qed.

Lemma keeps_reg1_write (psize no_packing nm offset : Z) :
  keeps proj (xsdfec_reg1_write psize no_packing nm offset).
Proof. unfold xsdfec_reg1_write. keeps_steps. Qed.

Lemma keeps_reg2_write (a b c e f g offset : Z) :
  keeps proj (xsdfec_reg2_write a b c e f g offset).
Proof. unfold xsdfec_reg2_write. keeps_steps. Qed.

Lemma keeps_reg3_write (sc la qc offset : Z) :
  keeps proj (xsdfec_reg3_write sc la qc offset).
Proof. unfold xsdfec_reg3_write. keeps_steps. Qed.

Lemma keeps_sc_table_write (offset : Z) (ptr : Z -> Z) (len : Z) :
  keeps proj (xsdfec_sc_table_write hdr offset ptr len).
Proof. unfold xsdfec_sc_table_write. keeps_steps. Qed.

Lemma keeps_la_table_write (offset : Z) (ptr : Z -> Z) (len : Z) :
  keeps proj (xsdfec_la_table_write hdr offset ptr len).
Proof. unfold xsdfec_la_table_write. keeps_steps. Qed.

Lemma keeps_qc_table_write (offset : Z) (ptr : Z -> Z) (len : Z) :
  keeps proj (xsdfec_qc_table_write hdr offset ptr len).
Proof. unfold xsdfec_qc_table_write. keeps_steps. Qed.

Lemma keeps_isr_enable (enable : bool) : keeps proj (xsdfec_isr_enable enable).
Proof. unfold xsdfec_isr_enable. keeps_steps. Qed.

Lemma keeps_ecc_isr_enable (enable : bool) : keeps proj (xsdfec_ecc_isr_enable enable).
Proof. unfold xsdfec_ecc_isr_enable. keeps_steps. Qed.

End FrameOps.

#[local] Hint Resolve keeps_reg0_write keeps_reg1_write keeps_reg2_write
  keeps_reg3_write keeps_sc_table_write keeps_la_table_write
  keeps_qc_table_write keeps_isr_enable keeps_ecc_isr_enable : frame.

Section FrameSoftware.

Context {B : Type} (proj : xsdfec_dev -> B).
Hypothesis Hsw : software_part proj.
Variable hdr : uapi_header.

Lemma keeps_set_wr_protect (b : bool) : keeps proj (modify (set_wr_protect b)).
Proof. intros d. cbn. apply Hsw. Qed.

Lemma keeps_wr_protect (wr_pr : bool) : keeps proj (xsdfec_wr_protect wr_pr).
Proof.
  destruct Hsw as [Hdp _].
  unfold xsdfec_wr_protect.
  destruct wr_pr; keeps_steps; apply keeps_set_wr_protect.
Qed.

Lemma keeps_add_ldpc (ua : uaccess) (arg : xsdfec_ldpc_params) :
  keeps proj (xsdfec_add_ldpc hdr ua arg).
Proof.
  destruct Hsw as [Hdp _].
  unfold xsdfec_add_ldpc. keeps_steps. apply keeps_wr_protect.
Qed.

End FrameSoftware.

Lemma wr_protect_driver_part : driver_part wr_protect.
Proof. repeat split. Qed.

Lemma state_driver_part : driver_part state.
Proof. repeat split. Qed.

Lemma config_software_part : software_part config.
Proof. repeat split. Qed.

Lemma state_software_part : software_part state.
Proof. repeat split. Qed.

(** ** LDPC programming: code family handling (claim C2) *)

(** Claim C2: [xsdfec_add_ldpc] is said to return an error when the code
    family is Turbo and to adopt LDPC when the family is Invalid.  The
    code does neither: with allocation and copy-in succeeding, a Turbo
    device makes it log the refusal, touch no register and return 0 (the
    status variable still holds the result of the copy), and on an Invalid
    device the code family is still Invalid afterwards. *)
Theorem add_ldpc_turbo_returns_zero_invalid_not_adopted
        (hdr : uapi_header) (ua : uaccess) (arg : xsdfec_ldpc_params)
        (d : xsdfec_dev) :
  kzalloc_fails ua = false ->
  s32 (copy_from_user ua) = 0 ->
  (code (config d) = XSDFEC_TURBO_CODE ->
   fst (xsdfec_add_ldpc hdr ua arg d) = 0 /\
   io_log (snd (xsdfec_add_ldpc hdr ua arg d)) = io_log d) /\
  (code (config d) = XSDFEC_CODE_INVALID ->
   code (config (snd (xsdfec_add_ldpc hdr ua arg d))) = XSDFEC_CODE_INVALID).
Proof.
  intros Hk Hc. split.
  - intros Ht. unfold xsdfec_add_ldpc. rewrite Hk, Hc.
    cbn [nz Z.eqb negb]. rewrite bind_run. cbn [get fst snd].
    rewrite Ht. cbn. split; reflexivity.
  - intros Hi.
    rewrite (keeps_add_ldpc config config_software_part hdr ua arg d).
    exact Hi.
Qed.

Lemma add_ldpc_turbo_returns_zero_invalid_not_adopted_witness :
  (let d := sample_dev zero_regs XSDFEC_INIT XSDFEC_TURBO_CODE 1 false in
   fst (xsdfec_add_ldpc sample_hdr ua_ok sample_ldpc d) = 0 /\
   io_log (snd (xsdfec_add_ldpc sample_hdr ua_ok sample_ldpc d)) = io_log d) /\
  (let d := sample_dev zero_regs XSDFEC_INIT XSDFEC_CODE_INVALID 1 false in
   code (config (snd (xsdfec_add_ldpc sample_hdr ua_ok sample_ldpc d)))
   = XSDFEC_CODE_INVALID).
Proof.
  split.
  - apply (add_ldpc_turbo_returns_zero_invalid_not_adopted sample_hdr ua_ok
             sample_ldpc (sample_dev zero_regs XSDFEC_INIT XSDFEC_TURBO_CODE 1 false));
      reflexivity.
  - apply (add_ldpc_turbo_returns_zero_invalid_not_adopted sample_hdr ua_ok
             sample_ldpc (sample_dev zero_regs XSDFEC_INIT XSDFEC_CODE_INVALID 1 false));
      reflexivity.
Defined.

(** The sibling handler does adopt its family when none is set. *)
Lemma set_turbo_adopts_turbo (ua : uaccess) (arg : xsdfec_turbo) (d : xsdfec_dev) :
  s32 (copy_from_user ua) = 0 ->
  code (config d) = XSDFEC_CODE_INVALID ->
  code (config (snd (xsdfec_set_turbo ua arg d))) = XSDFEC_TURBO_CODE.
Proof.
  intros Hc Hi. unfold xsdfec_set_turbo. rewrite Hc. cbn [nz Z.eqb negb].
  rewrite bind_run. cbn [get fst snd]. rewrite Hi. cbn [code_eqb when].
  rewrite bind_run.
  rewrite (keeps_bind config get _ (keeps_get config)).
  - reflexivity.
  - intros d1. pose proof config_software_part as [Hdp Hwp].
    keeps_steps. apply (keeps_wr_protect config config_software_part).
Qed.

(** and the read-back handler does refuse a Turbo device with an error. *)
Lemma get_ldpc_turbo_returns_eio
      (hdr : uapi_header) (ua : uaccess) (arg : xsdfec_ldpc_params) (d : xsdfec_dev) :
  code (config d) = XSDFEC_TURBO_CODE ->
  fst (xsdfec_get_ldpc_code_params hdr ua arg d) = (- EIO, None).
Proof.
  intros Ht. unfold xsdfec_get_ldpc_code_params.
  rewrite bind_run. cbn [get fst snd]. rewrite Ht. reflexivity.
Qed.

(** ** Reading a code back: the status of a failed copy-out (claim C10) *)

Lemma bind_same_status {A C : Type} (m : M A)
      (f1 f2 : A -> M (Z * option C)) (d : xsdfec_dev) :
  (forall a d', same_status (f1 a d') (f2 a d')) ->
  same_status (bind m f1 d) (bind m f2 d).
Proof. intros H. rewrite !bind_run. apply H. Qed.

(** The status code of [xsdfec_get_ldpc_code_params] does not depend on
    the outcome of the final [copy_to_user]. *)
Lemma get_ldpc_status_ignores_copy_out
      (hdr : uapi_header) (kf : bool) (cfu ctu1 ctu2 : Z)
      (arg : xsdfec_ldpc_params) (d : xsdfec_dev) :
  s32 ctu2 <> 0 ->
  same_status
    (xsdfec_get_ldpc_code_params hdr (mk_uaccess kf cfu ctu1) arg d)
    (xsdfec_get_ldpc_code_params hdr (mk_uaccess kf cfu ctu2) arg d).
Proof.
  intros Hfail. apply nz_true in Hfail.
  unfold xsdfec_get_ldpc_code_params.
  cbn [kzalloc_fails copy_from_user copy_to_user].
  repeat match goal with
         | |- same_status (bind ?m _ _) (bind ?m _ _) =>
             apply bind_same_status; intros ? ?
         | |- same_status ((let (_, _) := ?r in _) _) _ => destruct r
         | |- same_status ((if ?c then _ else _) _) _ => destruct c
         end;
    try (split; reflexivity).
  all: rewrite Hfail; split; reflexivity.
Qed.

(** Claim C10: when every register and table read of
    [xsdfec_get_ldpc_code_params] succeeds (with a working copy-out the
    call returns 0 and delivers a descriptor [p]) but [copy_to_user]
    fails, the call still returns 0 and delivers nothing: the -EFAULT it
    records is dropped. *)
Theorem get_ldpc_copy_out_failure_returns_zero
        (hdr : uapi_header) (kf : bool) (cfu ctu : Z)
        (arg p : xsdfec_ldpc_params) (d : xsdfec_dev) :
  fst (xsdfec_get_ldpc_code_params hdr (mk_uaccess kf cfu 0) arg d) = (0, Some p) ->
  s32 ctu <> 0 ->
  fst (xsdfec_get_ldpc_code_params hdr (mk_uaccess kf cfu ctu) arg d) = (0, None).
Proof.
  intros Hok Hfail.
  destruct (get_ldpc_status_ignores_copy_out hdr kf cfu 0 ctu arg d Hfail)
    as [Hst Hnone].
  rewrite Hok in Hst. cbn [fst] in Hst.
  destruct (xsdfec_get_ldpc_code_params hdr (mk_uaccess kf cfu ctu) arg d)
    as [[st out] d'].
  cbn [fst snd] in *. subst. reflexivity.
Qed.

Lemma get_ldpc_copy_out_failure_returns_zero_witness :
  let d := snd (xsdfec_add_ldpc sample_hdr ua_ok sample_ldpc
                  (sample_dev zero_regs XSDFEC_INIT XSDFEC_LDPC_CODE 1 false)) in
  exists p,
    fst (xsdfec_get_ldpc_code_params sample_hdr (mk_uaccess false 0 0) sample_ldpc d)
    = (0, Some p) /\
    fst (xsdfec_get_ldpc_code_params sample_hdr (mk_uaccess false 0 8) sample_ldpc d)
    = (0, None).
Proof.
  cbv zeta. eexists. split.
  - vm_compute. reflexivity.
  - eapply (get_ldpc_copy_out_failure_returns_zero sample_hdr false 0 8 sample_ldpc).
    + vm_compute. reflexivity.
    + vm_compute. discriminate.
Defined.

(** ** Control dispatch gate (claim C7) *)

Lemma eqb_false_of_neq (x y : Z) : x <> y -> (x =? y) = false.
Proof. apply Z.eqb_neq. Qed.

(** The case labels that precede the four exempt commands in the switch
    differ from them. *)
Lemma exempt_cases_distinct (hdr : uapi_header) :
  NoDup (ioctl_cases hdr) ->
  (XSDFEC_CLEAR_STATS hdr <> XSDFEC_START_DEV hdr /\
   XSDFEC_CLEAR_STATS hdr <> XSDFEC_STOP_DEV hdr) /\
  (XSDFEC_GET_STATS hdr <> XSDFEC_START_DEV hdr /\
   XSDFEC_GET_STATS hdr <> XSDFEC_STOP_DEV hdr /\
   XSDFEC_GET_STATS hdr <> XSDFEC_CLEAR_STATS hdr) /\
  (XSDFEC_GET_STATUS hdr <> XSDFEC_START_DEV hdr /\
   XSDFEC_GET_STATUS hdr <> XSDFEC_STOP_DEV hdr /\
   XSDFEC_GET_STATUS hdr <> XSDFEC_CLEAR_STATS hdr /\
   XSDFEC_GET_STATUS hdr <> XSDFEC_GET_STATS hdr) /\
  (XSDFEC_SET_DEFAULT_CONFIG hdr <> XSDFEC_START_DEV hdr /\
   XSDFEC_SET_DEFAULT_CONFIG hdr <> XSDFEC_STOP_DEV hdr /\
   XSDFEC_SET_DEFAULT_CONFIG hdr <> XSDFEC_CLEAR_STATS hdr /\
   XSDFEC_SET_DEFAULT_CONFIG hdr <> XSDFEC_GET_STATS hdr /\
   XSDFEC_SET_DEFAULT_CONFIG hdr <> XSDFEC_GET_STATUS hdr /\
   XSDFEC_SET_DEFAULT_CONFIG hdr <> XSDFEC_GET_CONFIG hdr).
Proof.
  unfold ioctl_cases. intros H.
  repeat match goal with
         | H : NoDup (_ :: _) |- _ =>
             let Hn := fresh "Hn" in
             let Hd := fresh "Hd" in
             apply NoDup_cons_iff in H; destruct H as [Hn Hd]
         end.
  repeat split; intros E;
    match goal with
    | Hn : ~ In ?x _ |- _ =>
        match type of E with
        | _ = x => apply Hn; rewrite <- E; cbn; tauto
        end
    end.
Qed.

Lemma status_of_out_of {A : Type} (f : A -> ioctl_out) (r : Z * option A) :
  fst (out_of f r) = fst r.
Proof. reflexivity. Qed.

Lemma get_stats_status (ua : uaccess) (d : xsdfec_dev) :
  fst (fst (xsdfec_get_stats ua d)) = 0 \/
  fst (fst (xsdfec_get_stats ua d)) = - EFAULT.
Proof.
  unfold xsdfec_get_stats. rewrite bind_run. cbn [get fst snd].
  destruct (nz (s32 (copy_to_user ua))) eqn:E.
  - right. reflexivity.
  - left. apply nz_false in E. exact E.
Qed.

Lemma get_status_status (ua : uaccess) (d : xsdfec_dev) :
  fst (fst (xsdfec_get_status ua d)) = 0 \/
  fst (fst (xsdfec_get_status ua d)) = - EFAULT.
Proof.
  unfold xsdfec_get_status. rewrite !bind_run. cbn [get fst snd].
  destruct (nz (s32 (copy_to_user ua))) eqn:E.
  - right. reflexivity.
  - left. apply nz_false in E. exact E.
Qed.

Lemma set_default_config_status (hdr : uapi_header) (d : xsdfec_dev) :
  fst (xsdfec_set_default_config hdr d) = 0.
Proof.
  unfold xsdfec_set_default_config. rewrite !bind_run. reflexivity.
Qed.

(** Claim C7: while the state is NEEDS_RESET, a command other than
    set-default-config, get-status, get-stats and clear-stats returns
    -EPERM, only logs the refusal and accesses no register; each of the
    four exempt commands passes the gate, so its status is never -EPERM
    (the case labels of the switch being distinct, as C requires). *)
Theorem ioctl_needs_reset_gate
        (hdr : uapi_header) (cmd : Z) (a : ioctl_arg) (d : xsdfec_dev) :
  state d = XSDFEC_NEEDS_RESET ->
  NoDup (ioctl_cases hdr) ->
  (~ In cmd [XSDFEC_SET_DEFAULT_CONFIG hdr; XSDFEC_GET_STATUS hdr;
             XSDFEC_GET_STATS hdr; XSDFEC_CLEAR_STATS hdr] ->
   fst (xsdfec_dev_ioctl hdr cmd a d) = (- EPERM, OutNothing) /\
   snd (xsdfec_dev_ioctl hdr cmd a d)
   = set_dmesg (dmesg d ++ ["SDFEC%d in failed state. Reset Required"]) d /\
   io_log (snd (xsdfec_dev_ioctl hdr cmd a d)) = io_log d /\
   regs (snd (xsdfec_dev_ioctl hdr cmd a d)) = regs d) /\
  (In cmd [XSDFEC_SET_DEFAULT_CONFIG hdr; XSDFEC_GET_STATUS hdr;
           XSDFEC_GET_STATS hdr; XSDFEC_CLEAR_STATS hdr] ->
   fst (fst (xsdfec_dev_ioctl hdr cmd a d)) <> - EPERM).
Proof.
  intros Hst Hnd. split.
  - intros Hnot. cbn [In] in Hnot.
    assert (H1 : (cmd =? XSDFEC_SET_DEFAULT_CONFIG hdr) = false)
      by (apply eqb_false_of_neq; intros E; apply Hnot; auto).
    assert (H2 : (cmd =? XSDFEC_GET_STATUS hdr) = false)
      by (apply eqb_false_of_neq; intros E; apply Hnot; auto).
    assert (H3 : (cmd =? XSDFEC_GET_STATS hdr) = false)
      by (apply eqb_false_of_neq; intros E; apply Hnot; auto).
    assert (H4 : (cmd =? XSDFEC_CLEAR_STATS hdr) = false)
      by (apply eqb_false_of_neq; intros E; apply Hnot; auto 6).
    unfold xsdfec_dev_ioctl. rewrite bind_run. cbn [get fst snd].
    rewrite Hst, H1, H2, H3, H4. cbn. repeat split.
  - intros Hin.
    destruct (exempt_cases_distinct hdr Hnd)
      as [[C1 C2] [[S1 [S2 S3]] [[T1 [T2 [T3 T4]]] [D1 [D2 [D3 [D4 [D5 D6]]]]]]]].
    unfold xsdfec_dev_ioctl. rewrite bind_run. cbn [get fst snd].
    rewrite Hst. cbn [state_eqb andb].
    assert (Hgate :
              negb (cmd =? XSDFEC_SET_DEFAULT_CONFIG hdr) &&
              negb (cmd =? XSDFEC_GET_STATUS hdr) &&
              negb (cmd =? XSDFEC_GET_STATS hdr) &&
              negb (cmd =? XSDFEC_CLEAR_STATS hdr) = false).
    { cbn [In] in Hin.
      destruct Hin as [E | [E | [E | [E | []]]]]; subst cmd;
        rewrite Z.eqb_refl; cbn [negb andb];
        rewrite ?andb_false_r; reflexivity. }
    rewrite Hgate.
    destruct (negb (_IOC_TYPE cmd =? XSDFEC_MAGIC hdr)); [cbn; discriminate |].
    destruct (negb (_IOC_DIR cmd =? _IOC_NONE) && (data a =? 0));
      [cbn; discriminate |].
    match goal with
    | |- context [if nz ?e then _ else _] => destruct (nz e)
    end; [cbn; discriminate |].
    cbn [In] in Hin.
    destruct Hin as [E | [E | [E | [E | []]]]]; subst cmd;
      repeat match goal with
             | H : ?x <> ?y |- context [?x =? ?y] =>
                 rewrite (eqb_false_of_neq x y H)
             end;
      rewrite Z.eqb_refl; rewrite bind_run; cbn [ret fst snd];
      rewrite ?status_of_out_of.
    + rewrite set_default_config_status. discriminate.
    + destruct (get_status_status (user a) d) as [E | E]; rewrite E; discriminate.
    + destruct (get_stats_status (user a) d) as [E | E]; rewrite E; discriminate.
    + discriminate.
Qed.

Lemma ioctl_needs_reset_gate_witness :
  let d := sample_dev zero_regs XSDFEC_NEEDS_RESET XSDFEC_LDPC_CODE 1 true in
  let a := mk_ioctl_arg 0 (fun _ => true) ua_ok (mk_irq true true) (mk_turbo 0 0)
                        sample_ldpc 1 0 in
  fst (xsdfec_dev_ioctl sample_hdr (XSDFEC_START_DEV sample_hdr) a d)
  = (- EPERM, OutNothing) /\
  io_log (snd (xsdfec_dev_ioctl sample_hdr (XSDFEC_START_DEV sample_hdr) a d)) = [] /\
  fst (fst (xsdfec_dev_ioctl sample_hdr (XSDFEC_CLEAR_STATS sample_hdr) a d))
  <> - EPERM.
Proof.
  intros d a.
  assert (Hnd : NoDup (ioctl_cases sample_hdr)).
  { unfold ioctl_cases.
    repeat (apply NoDup_cons; [ cbn; intuition discriminate | ]).
    apply NoDup_nil. }
  assert (Hst : state d = XSDFEC_NEEDS_RESET) by reflexivity.
  split; [ | split ].
  - apply (ioctl_needs_reset_gate sample_hdr (XSDFEC_START_DEV sample_hdr)
             a d Hst Hnd).
    cbn. intuition discriminate.
  - apply (ioctl_needs_reset_gate sample_hdr (XSDFEC_START_DEV sample_hdr)
             a d Hst Hnd).
    cbn. intuition discriminate.
  - apply (ioctl_needs_reset_gate sample_hdr (XSDFEC_CLEAR_STATS sample_hdr)
             a d Hst Hnd).
    cbn. auto 6.
Defined.

(** ** Device state machine: start (claim C6) *)

(** [xsdfec_start] on any device, idle or not: it returns -EINVAL and
    leaves state and write-protect flag as they were when the code family
    is Invalid, the hardware code register does not match it, or the
    decode order is Invalid; otherwise it returns 0, sets the
    write-protect flag and moves to STARTED.  The write of the AXI-stream
    enable bits and the two writes to the protection registers reach the
    register window only when write protection was clear on entry; when
    it was already set, [xsdfec_regwrite] drops all three. *)
Theorem start_characterised (hdr : uapi_header) (d : xsdfec_dev) :
  let r := xsdfec_start hdr d in
  let pre := start_preconditions hdr d in
  fst r = (if pre then 0 else - EINVAL) /\
  state (snd r) = (if pre then XSDFEC_STARTED else state d) /\
  wr_protect (snd r) = (if pre then true else wr_protect d) /\
  io_log (snd r) =
    io_log d
    ++ (if code_eqb (code (config d)) XSDFEC_CODE_INVALID then []
        else [IoRead XSDFEC_FEC_CODE_ADDR (u32 (regs d XSDFEC_FEC_CODE_ADDR))])
    ++ (if pre && negb (wr_protect d)
        then [IoWrite XSDFEC_AXIS_ENABLE_ADDR XSDFEC_AXIS_ENABLE_MASK;
              IoWrite XSDFEC_CODE_WR_PROTECT_ADDR XSDFEC_WRITE_PROTECT_ENABLE;
              IoWrite XSDFEC_AXI_WR_PROTECT_ADDR XSDFEC_WRITE_PROTECT_ENABLE]
        else []).
Proof.
  cbv zeta. unfold start_preconditions, xsdfec_start.
  rewrite bind_run. cbn [get fst snd].
  destruct (code_eqb (code (config d)) XSDFEC_CODE_INVALID) eqn:Ec; cbn [negb andb].
  - cbn. rewrite app_nil_r. repeat split; reflexivity.
  - rewrite bind_run, regread_run. cbn [fst snd].
    destruct (Z.land (u32 (regs d XSDFEC_FEC_CODE_ADDR)) 1
              =? u32 (code_val hdr (code (config d)) - 1)) eqn:Em; cbn [negb andb].
    + destruct (order (config d) =? XSDFEC_INVALID_ORDER hdr) eqn:Eo; cbn [negb andb].
      * cbn. repeat split; reflexivity.
      * unfold xsdfec_wr_protect.
        rewrite !bind_run, !regwrite_run. clear Ec Em Eo.
        destruct d as [r l m s c ie wp ic cc uc oc iq wk].
        destruct wp; cbn; rewrite <- ?app_assoc; repeat split; reflexivity.
    + cbn. repeat split; reflexivity.
Qed.

(** Claim C6: the transition from INIT or STOPPED to STARTED.  An idle
    device is never write-protected (the default configuration
    establishes this and every control call and interrupt preserves it),
    and on such a device [xsdfec_start] does what the claim says: when
    the code family is Invalid, the hardware code register does not match
    it, or the decode order is Invalid, it fails with -EINVAL and leaves
    the state as it was; when all three preconditions hold it returns 0,
    writes the AXI-stream enable bits, asserts write protection (both
    protection registers and the flag) and moves to STARTED. *)
Theorem start_from_idle (hdr : uapi_header) (d : xsdfec_dev) :
  state d = XSDFEC_INIT \/ state d = XSDFEC_STOPPED ->
  unprotected_when_idle d ->
  let r := xsdfec_start hdr d in
  if start_preconditions hdr d then
    fst r = 0 /\
    io_log (snd r)
    = io_log d
      ++ [IoRead XSDFEC_FEC_CODE_ADDR (u32 (regs d XSDFEC_FEC_CODE_ADDR));
          IoWrite XSDFEC_AXIS_ENABLE_ADDR XSDFEC_AXIS_ENABLE_MASK;
          IoWrite XSDFEC_CODE_WR_PROTECT_ADDR XSDFEC_WRITE_PROTECT_ENABLE;
          IoWrite XSDFEC_AXI_WR_PROTECT_ADDR XSDFEC_WRITE_PROTECT_ENABLE] /\
    regs (snd r) XSDFEC_AXIS_ENABLE_ADDR = XSDFEC_AXIS_ENABLE_MASK /\
    regs (snd r) XSDFEC_CODE_WR_PROTECT_ADDR = XSDFEC_WRITE_PROTECT_ENABLE /\
    regs (snd r) XSDFEC_AXI_WR_PROTECT_ADDR = XSDFEC_WRITE_PROTECT_ENABLE /\
    wr_protect (snd r) = true /\
    state (snd r) = XSDFEC_STARTED
  else
    fst r = - EINVAL /\
    state (snd r) = state d /\
    written (skipn (List.length (io_log d)) (io_log (snd r))) = [].
Proof.
  intros Hidle Hinv. assert (Hwp : wr_protect d = false) by (apply Hinv, Hidle).
  clear Hidle Hinv. cbv zeta. unfold start_preconditions, xsdfec_start.
  rewrite bind_run. cbn [get fst snd].
  destruct (code_eqb (code (config d)) XSDFEC_CODE_INVALID) eqn:Ec; cbn [negb andb].
  - cbn [dev_err modify bind ret fst snd set_dmesg io_log state].
    rewrite skipn_all. repeat split; reflexivity.
  - rewrite bind_run, regread_run. cbn [fst snd].
    destruct (Z.land (u32 (regs d XSDFEC_FEC_CODE_ADDR)) 1
              =? u32 (code_val hdr (code (config d)) - 1)) eqn:Em; cbn [negb andb].
    + destruct (order (config d) =? XSDFEC_INVALID_ORDER hdr) eqn:Eo; cbn [negb andb].
      * cbn [dev_err modify bind ret fst snd set_dmesg set_hw io_log state].
        rewrite skipn_app, skipn_all, Nat.sub_diag. repeat split; reflexivity.
      * unfold xsdfec_wr_protect.
        rewrite !bind_run, !regwrite_run. clear Ec Em Eo.
        destruct d as [r l m s c ie wp ic cc uc oc iq wk].
        cbn in Hwp. subst wp.
        cbn; rewrite <- ?app_assoc; repeat split; reflexivity.
    + cbn [dev_err modify bind ret fst snd set_dmesg set_hw io_log state].
      rewrite skipn_app, skipn_all, Nat.sub_diag. repeat split; reflexivity.
Qed.

Lemma start_from_idle_witness :
  let ready := sample_dev (upd zero_regs XSDFEC_FEC_CODE_ADDR 1)
                          XSDFEC_STOPPED XSDFEC_LDPC_CODE 1 false in
  let no_order := sample_dev (upd zero_regs XSDFEC_FEC_CODE_ADDR 1)
                             XSDFEC_INIT XSDFEC_LDPC_CODE 0 false in
  (fst (xsdfec_start sample_hdr ready) = 0 /\
   io_log (snd (xsdfec_start sample_hdr ready))
   = io_log ready
     ++ [IoRead XSDFEC_FEC_CODE_ADDR (u32 (regs ready XSDFEC_FEC_CODE_ADDR));
         IoWrite XSDFEC_AXIS_ENABLE_ADDR XSDFEC_AXIS_ENABLE_MASK;
         IoWrite XSDFEC_CODE_WR_PROTECT_ADDR XSDFEC_WRITE_PROTECT_ENABLE;
         IoWrite XSDFEC_AXI_WR_PROTECT_ADDR XSDFEC_WRITE_PROTECT_ENABLE] /\
   regs (snd (xsdfec_start sample_hdr ready)) XSDFEC_AXIS_ENABLE_ADDR
   = XSDFEC_AXIS_ENABLE_MASK /\
   regs (snd (xsdfec_start sample_hdr ready)) XSDFEC_CODE_WR_PROTECT_ADDR
   = XSDFEC_WRITE_PROTECT_ENABLE /\
   regs (snd (xsdfec_start sample_hdr ready)) XSDFEC_AXI_WR_PROTECT_ADDR
   = XSDFEC_WRITE_PROTECT_ENABLE /\
   wr_protect (snd (xsdfec_start sample_hdr ready)) = true /\
   state (snd (xsdfec_start sample_hdr ready)) = XSDFEC_STARTED) /\
  (fst (xsdfec_start sample_hdr no_order) = - EINVAL /\
   state (snd (xsdfec_start sample_hdr no_order)) = state no_order /\
   written (skipn (List.length (io_log no_order))
                  (io_log (snd (xsdfec_start sample_hdr no_order)))) = []).
Proof.
  intros ready no_order. split.
  - apply (start_from_idle sample_hdr ready).
    + right. reflexivity.
    + intros _. reflexivity.
  - apply (start_from_idle sample_hdr no_order).
    + left. reflexivity.
    + intros _. reflexivity.
Defined.

(** ** Bit fields *)

Lemma u32_testbit (x i : Z) :
  0 <= i -> Z.testbit (u32 x) i = Z.testbit x i && (i <? 32).
Proof.
  intros Hi. unfold u32. destruct (i <? 32) eqn:E.
  - apply Z.ltb_lt in E. rewrite Z.mod_pow2_bits_low by lia.
    rewrite andb_true_r. reflexivity.
  - apply Z.ltb_ge in E. rewrite Z.mod_pow2_bits_high by lia.
    rewrite andb_false_r. reflexivity.
Qed.

Lemma ones_testbit (w i : Z) :
  0 <= w -> 0 <= i -> Z.testbit (Z.ones w) i = (i <? w).
Proof.
  intros Hw Hi. destruct (i <? w) eqn:E.
  - apply Z.ltb_lt in E. apply Z.ones_spec_low. lia.
  - apply Z.ltb_ge in E. apply Z.ones_spec_high. lia.
Qed.

(** Shifting a field to its place and masking it there is masking it to
    its width and shifting it, as long as the field lies within 32 bits. *)
Lemma field_encode (x w p : Z) :
  0 <= p -> 0 <= w -> p + w <= 32 ->
  Z.land (shl32 x p) (Z.shiftl (Z.ones w) p) = Z.shiftl (Z.land x (Z.ones w)) p.
Proof.
  intros Hp Hw Hpw. unfold shl32. apply Z.bits_inj'. intros i Hi.
  rewrite Z.land_spec, u32_testbit by lia.
  rewrite !Z.shiftl_spec by lia.
  destruct (Z.ltb_spec i p) as [Hlt | Hge].
  - rewrite !(Z.testbit_neg_r _ (i - p)) by lia. reflexivity.
  - rewrite Z.land_spec, ones_testbit by lia.
    destruct (Z.ltb_spec (i - p) w) as [Hin | Hout].
    + replace (i <? 32) with true by (symmetry; apply Z.ltb_lt; lia).
      rewrite !andb_true_r. reflexivity.
    + rewrite !andb_false_r. reflexivity.
Qed.

(** A 32-bit word has a bit set above its low [w] bits exactly when it is
    at least 2^w. *)
Lemma excess_bits (x w : Z) :
  0 <= x < 2 ^ 32 -> 0 <= w <= 32 ->
  nz (Z.land x (not32 (Z.ones w))) = (2 ^ w <=? x).
Proof.
  intros Hx Hw.
  assert (E : Z.land x (not32 (Z.ones w)) = Z.shiftl (Z.shiftr x w) w).
  { apply Z.bits_inj'. intros i Hi.
    unfold not32. rewrite Z.land_spec, u32_testbit, Z.lnot_spec by lia.
    rewrite ones_testbit by lia.
    rewrite Z.shiftl_spec by lia.
    destruct (Z.ltb_spec i w) as [Hlt | Hge].
    - cbn [negb andb]. rewrite (Z.testbit_neg_r (Z.shiftr x w)) by lia.
      apply andb_false_r.
    - rewrite Z.shiftr_spec by lia. replace (i - w + w) with i by lia.
      cbn [negb andb]. destruct (Z.ltb_spec i 32) as [H32 | H32].
      + apply andb_true_r.
      + rewrite andb_false_r. symmetry.
        destruct (Z.eq_dec x 0) as [-> | Hx0]; [apply Z.testbit_0_l |].
        apply Z.bits_above_log2; [lia |].
        apply Z.lt_le_trans with 32; [| lia].
        apply Z.log2_lt_pow2; lia. }
  rewrite E. unfold nz.
  destruct (Z.leb_spec (2 ^ w) x) as [Hle | Hlt].
  - apply negb_true_iff, Z.eqb_neq. intros H0.
    apply Z.shiftl_eq_0_iff in H0; [| lia].
    apply Z.shiftr_eq_0_iff in H0.
    destruct H0 as [H0 | [H0 H1]]; [subst x; pose proof (Z.pow_pos_nonneg 2 w); lia |].
    apply Z.log2_lt_pow2 in H1; lia.
  - apply negb_false_iff, Z.eqb_eq.
    rewrite Z.shiftr_div_pow2 by lia. rewrite Z.div_small by lia.
    apply Z.shiftl_0_l.
Qed.

(** ** Register codec: encoding of register 0 and register 2 (claim C9) *)

Lemma land_ones_range (x w : Z) : 0 <= w -> 0 <= Z.land x (Z.ones w) < 2 ^ w.
Proof.
  intros Hw. rewrite Z.land_ones by lia. apply Z.mod_pos_bound.
  apply Z.pow_pos_nonneg; lia.
Qed.

Lemma reg0_word (n k : Z) :
  Z.lor (Z.land (shl32 k XSDFEC_REG0_K_LSB) XSDFEC_REG0_K_MASK)
        (shl32 (Z.land n XSDFEC_REG0_N_MASK) XSDFEC_REG0_N_LSB)
  = encode_reg0 n k.
Proof.
  unfold encode_reg0.
  change XSDFEC_REG0_K_MASK with (Z.shiftl (Z.ones 15) 16).
  change XSDFEC_REG0_K_LSB with 16.
  rewrite field_encode by lia.
  change 0x7FFF with (Z.ones 15).
  change XSDFEC_REG0_N_MASK with (Z.ones 16).
  change 0xFFFF with (Z.ones 16).
  change XSDFEC_REG0_N_LSB with 0.
  unfold shl32. rewrite Z.shiftl_0_r.
  rewrite u32_small; [reflexivity |].
  pose proof (land_ones_range n 16). lia.
Qed.

Lemma gtb_false (x y : Z) : x <= y -> (x >? y) = false.
Proof. intros H. rewrite Z.gtb_ltb. apply Z.ltb_ge. exact H. Qed.

Lemma gtb_true (x y : Z) : y < x -> (x >? y) = true.
Proof. intros H. rewrite Z.gtb_ltb. apply Z.ltb_lt. exact H. Qed.

Lemma code_reg_addr (base offset : Z) :
  0 <= base < 0x10000 -> 0 <= offset <= 31 ->
  u32 (base + u32 (offset * XSDFEC_LDPC_REG_JUMP)) = base + 16 * offset.
Proof.
  intros Hb Ho. unfold XSDFEC_LDPC_REG_JUMP.
  rewrite (u32_small (offset * 16)) by lia.
  rewrite u32_small by lia. lia.
Qed.

(** Claim C9 says that every field value wider than its declared width
    is logged by [xsdfec_reg0_write] and [xsdfec_reg2_write], and that the
    word written is the OR of the masked, shifted fields.  For register 0
    the word is as claimed and a wide [n] is logged, but the test on [k]
    looks at bits 16 to 30 of [k] itself: on an unprotected device and a
    valid code id, the message about [k] appears exactly when one of those
    bits is set, so a [k] whose only excess bits are bit 15 or bit 31 is
    truncated without any message. *)
Theorem reg0_write_logs_k_only_for_bits_16_to_30 (n k offset : Z) (d : xsdfec_dev) :
  0 <= n < 2 ^ 32 ->
  0 <= offset <= 31 ->
  wr_protect d = false ->
  let r := xsdfec_reg0_write n k offset d in
  fst r = 0 /\
  io_log (snd r)
  = io_log d ++ [IoWrite (XSDFEC_LDPC_CODE_REG0_ADDR_BASE + 16 * offset)
                         (encode_reg0 n k)] /\
  dmesg (snd r)
  = dmesg d
    ++ (if 2 ^ 16 <=? n then ["N value is beyond 16 bits"] else [])
    ++ (if nz (Z.land k XSDFEC_REG0_K_MASK) then ["K value is beyond 16 bits"] else []).
Proof.
  intros Hn Ho Hwp. cbv zeta. unfold xsdfec_reg0_write.
  rewrite reg0_word.
  rewrite code_reg_addr by (unfold XSDFEC_LDPC_CODE_REG0_ADDR_BASE; lia).
  rewrite gtb_false
    by (unfold XSDFEC_LDPC_CODE_REG0_ADDR_BASE, XSDFEC_LDPC_CODE_REG0_ADDR_HIGH; lia).
  change XSDFEC_REG0_N_MASK with (Z.ones 16).
  rewrite excess_bits by lia.
  generalize (encode_reg0 n k) as w.
  generalize (XSDFEC_LDPC_CODE_REG0_ADDR_BASE + 16 * offset) as addr.
  intros addr w.
  repeat (rewrite bind_run, when_log_run; dev_simpl).
  rewrite bind_run, regwrite_run. dev_simpl. rewrite Hwp. dev_simpl.
  rewrite <- !app_assoc. repeat split; reflexivity.
Qed.

Lemma reg0_write_logs_k_only_for_bits_16_to_30_witness :
  let d := sample_dev zero_regs XSDFEC_INIT XSDFEC_LDPC_CODE 1 false in
  let r := xsdfec_reg0_write 0 0x80000000 0 d in
  fst r = 0 /\
  io_log (snd r) = [IoWrite XSDFEC_LDPC_CODE_REG0_ADDR_BASE 0] /\
  dmesg (snd r) = [].
Proof.
  intros d r.
  apply (reg0_write_logs_k_only_for_bits_16_to_30 0 0x80000000 0 d);
    [ cbn; lia | lia | reflexivity ].
Defined.

Lemma reg2_word (nlayers nmqc norm_type special_qc no_final_parity max_schedule : Z) :
  Z.lor (Z.lor (Z.lor (Z.lor (Z.lor
    (Z.land (shl32 max_schedule XSDFEC_REG2_MAX_SCHEDULE_LSB)
            XSDFEC_REG2_MAX_SCHEDULE_MASK)
    (Z.land (shl32 no_final_parity XSDFEC_REG2_NO_FINAL_PARITY_LSB)
            XSDFEC_REG2_NO_FINAL_PARITY_MASK))
    (Z.land (shl32 special_qc XSDFEC_REG2_SPEICAL_QC_LSB) XSDFEC_REG2_SPECIAL_QC_MASK))
    (Z.land (shl32 norm_type XSDFEC_REG2_NORM_TYPE_LSB) XSDFEC_REG2_NORM_TYPE_MASK))
    (Z.land (shl32 nmqc XSDFEC_REG2_NMQC_LSB) XSDFEC_REG2_NNMQC_MASK))
    (Z.land nlayers XSDFEC_REG2_NLAYERS_MASK)
  = encode_reg2 nlayers nmqc norm_type special_qc no_final_parity max_schedule.
Proof.
  unfold encode_reg2.
  change XSDFEC_REG2_MAX_SCHEDULE_MASK with (Z.shiftl (Z.ones 2) 23).
  change XSDFEC_REG2_NO_FINAL_PARITY_MASK with (Z.shiftl (Z.ones 1) 22).
  change XSDFEC_REG2_SPECIAL_QC_MASK with (Z.shiftl (Z.ones 1) 21).
  change XSDFEC_REG2_NORM_TYPE_MASK with (Z.shiftl (Z.ones 1) 20).
  change XSDFEC_REG2_NNMQC_MASK with (Z.shiftl (Z.ones 11) 9).
  change XSDFEC_REG2_MAX_SCHEDULE_LSB with 23.
  change XSDFEC_REG2_NO_FINAL_PARITY_LSB with 22.
  change XSDFEC_REG2_SPEICAL_QC_LSB with 21.
  change XSDFEC_REG2_NORM_TYPE_LSB with 20.
  change XSDFEC_REG2_NMQC_LSB with 9.
  rewrite !field_encode by lia.
  rewrite Z.shiftl_0_r. reflexivity.
Qed.

(** Register 2 does what claim C9 says: on an unprotected device and a
    valid code id the call returns 0, writes the OR of the masked and
    shifted fields, and logs one message for each field wider than its
    declared width. *)
Lemma reg2_write_masks_and_logs
      (nlayers nmqc norm_type special_qc no_final_parity max_schedule offset : Z)
      (d : xsdfec_dev) :
  0 <= nlayers < 2 ^ 32 -> 0 <= nmqc < 2 ^ 32 -> 0 <= max_schedule < 2 ^ 32 ->
  0 <= offset <= 31 ->
  wr_protect d = false ->
  let r := xsdfec_reg2_write nlayers nmqc norm_type special_qc no_final_parity
                             max_schedule offset d in
  fst r = 0 /\
  io_log (snd r)
  = io_log d ++ [IoWrite (XSDFEC_LDPC_CODE_REG2_ADDR_BASE + 16 * offset)
                         (encode_reg2 nlayers nmqc norm_type special_qc
                                      no_final_parity max_schedule)] /\
  dmesg (snd r)
  = dmesg d
    ++ (if 2 ^ 9 <=? nlayers then ["Nlayers exceeds 9 bits"] else [])
    ++ (if 2 ^ 11 <=? nmqc then ["NMQC exceeds 11 bits"] else [])
    ++ (if norm_type >? 1 then ["Norm type is invalid"] else [])
    ++ (if special_qc >? 1 then ["Special QC in invalid"] else [])
    ++ (if no_final_parity >? 1 then ["No final parity check invalid"] else [])
    ++ (if 2 ^ 2 <=? max_schedule then ["Max Schdule exceeds 2 bits"] else []).
Proof.
  intros Hl Hq Hm Ho Hwp. cbv zeta. unfold xsdfec_reg2_write.
  rewrite reg2_word.
  rewrite code_reg_addr by (unfold XSDFEC_LDPC_CODE_REG2_ADDR_BASE; lia).
  rewrite (gtb_false (XSDFEC_LDPC_CODE_REG2_ADDR_BASE + 16 * offset))
    by (unfold XSDFEC_LDPC_CODE_REG2_ADDR_BASE, XSDFEC_LDPC_CODE_REG2_ADDR_HIGH; lia).
  change (Z.shiftr XSDFEC_REG2_NLAYERS_MASK XSDFEC_REG2_NLAYERS_LSB) with (Z.ones 9).
  change (Z.shiftr XSDFEC_REG2_NNMQC_MASK XSDFEC_REG2_NMQC_LSB) with (Z.ones 11).
  change (Z.shiftr XSDFEC_REG2_MAX_SCHEDULE_MASK XSDFEC_REG2_MAX_SCHEDULE_LSB)
    with (Z.ones 2).
  rewrite !excess_bits by lia.
  generalize (encode_reg2 nlayers nmqc norm_type special_qc no_final_parity
                          max_schedule) as w.
  generalize (XSDFEC_LDPC_CODE_REG2_ADDR_BASE + 16 * offset) as addr.
  intros addr w.
  repeat (rewrite bind_run, when_log_run; dev_simpl).
  rewrite bind_run, regwrite_run. dev_simpl. rewrite Hwp. dev_simpl.
  rewrite <- !app_assoc. repeat split; reflexivity.
Qed.

(** ** Table window manager: bounds (claim C3) *)

(** Without wrap-around in [4 * (offset + len)], a window that reaches past
    the table depth is refused by each of the six table functions before
    any register access. *)
Lemma table_access_refused_without_wrap
      (hdr : uapi_header) (offset len : Z) (ptr : Z -> Z) (d : xsdfec_dev) :
  0 <= offset -> 0 <= len -> 4 * (offset + len) < 2 ^ 32 ->
  (XSDFEC_SC_TABLE_DEPTH < 4 * (offset + len) ->
   xsdfec_sc_table_write hdr offset ptr len d
   = (- EINVAL, set_dmesg (dmesg d ++ ["Write exceeds SC table length"]) d) /\
   xsdfec_collect_sc_table hdr offset ptr len d
   = (- EINVAL, ptr,
      set_dmesg (dmesg d ++ ["Access will exceed SC table length"]) d)) /\
  (XSDFEC_LA_TABLE_DEPTH < 4 * (offset + len) ->
   xsdfec_la_table_write hdr offset ptr len d
   = (- EINVAL, set_dmesg (dmesg d ++ ["Write exceeds LA table length"]) d) /\
   xsdfec_collect_la_table hdr offset ptr len d
   = (- EINVAL, ptr,
      set_dmesg (dmesg d ++ ["Access will exceed LA table length"]) d)) /\
  (XSDFEC_QC_TABLE_DEPTH < 4 * (offset + len) ->
   xsdfec_qc_table_write hdr offset ptr len d
   = (- EINVAL, set_dmesg (dmesg d ++ ["Write exceeds QC table length"]) d) /\
   xsdfec_collect_qc_table hdr offset ptr len d
   = (- EINVAL, ptr,
      set_dmesg (dmesg d ++ ["Access will exceed QC table length"]) d)).
Proof.
  intros Ho Hl Hw.
  assert (E : u32 (XSDFEC_REG_WIDTH_JUMP * u32 (offset + len)) = 4 * (offset + len)).
  { unfold XSDFEC_REG_WIDTH_JUMP. rewrite (u32_small (offset + len)) by lia.
    apply u32_small. lia. }
  repeat split;
    unfold xsdfec_sc_table_write, xsdfec_collect_sc_table,
      xsdfec_la_table_write, xsdfec_collect_la_table,
      xsdfec_qc_table_write, xsdfec_collect_qc_table;
    cbv zeta; rewrite E, gtb_true by assumption; reflexivity.
Qed.

(** Claim C3 says that every offset and length with (offset+length)*4
    above the table depth is refused with -EINVAL and no register access.
    The check is computed in 32 bits: with offset 0x3FFFFFFF and length 1
    the product wraps to 0, the check passes for all three tables, and the
    call accesses one register, at the word before the table base. *)
Theorem table_bounds_check_wraps (hdr : uapi_header) (ptr : Z -> Z) (d : xsdfec_dev) :
  wr_protect d = false ->
  XSDFEC_QC_TABLE_DEPTH < (0x3FFFFFFF + 1) * 4 /\
  (fst (xsdfec_sc_table_write hdr 0x3FFFFFFF ptr 1 d) = 1 /\
   io_log (snd (xsdfec_sc_table_write hdr 0x3FFFFFFF ptr 1 d))
   = io_log d ++ [IoWrite (u32 (XSDFEC_LDPC_SC_TABLE_ADDR_BASE hdr + 0xFFFFFFFC))
                          (ptr 0)]) /\
  (fst (xsdfec_la_table_write hdr 0x3FFFFFFF ptr 1 d) = 1 /\
   io_log (snd (xsdfec_la_table_write hdr 0x3FFFFFFF ptr 1 d))
   = io_log d ++ [IoWrite (u32 (XSDFEC_LDPC_LA_TABLE_ADDR_BASE hdr + 0xFFFFFFFC))
                          (ptr 0)]) /\
  (fst (xsdfec_qc_table_write hdr 0x3FFFFFFF ptr 1 d) = 1 /\
   io_log (snd (xsdfec_qc_table_write hdr 0x3FFFFFFF ptr 1 d))
   = io_log d ++ [IoWrite (u32 (XSDFEC_LDPC_QC_TABLE_ADDR_BASE hdr + 0xFFFFFFFC))
                          (ptr 0)]) /\
  (fst (fst (xsdfec_collect_sc_table hdr 0x3FFFFFFF ptr 1 d)) = 0 /\
   io_log (snd (xsdfec_collect_sc_table hdr 0x3FFFFFFF ptr 1 d))
   = io_log d
     ++ [IoRead (u32 (XSDFEC_LDPC_SC_TABLE_ADDR_BASE hdr + 0xFFFFFFFC))
                (u32 (regs d (u32 (XSDFEC_LDPC_SC_TABLE_ADDR_BASE hdr + 0xFFFFFFFC))))]).
Proof.
  intros Hwp. split; [ reflexivity | ].
  unfold xsdfec_sc_table_write, xsdfec_la_table_write, xsdfec_qc_table_write,
    xsdfec_collect_sc_table.
  cbv zeta.
  change (u32 (XSDFEC_REG_WIDTH_JUMP * u32 (0x3FFFFFFF + 1))) with 0.
  change (Z.to_nat 1) with 1%nat.
  change (0 >? XSDFEC_SC_TABLE_DEPTH) with false.
  change (0 >? XSDFEC_LA_TABLE_DEPTH) with false.
  change (0 >? XSDFEC_QC_TABLE_DEPTH) with false.
  cbn [for_reg].
  unfold table_addr.
  change (u32 (u32 (1073741823 + 0) * XSDFEC_REG_WIDTH_JUMP)) with 0xFFFFFFFC.
  rewrite !bind_run, !regwrite_run, Hwp.
  cbn. repeat split.
Qed.

Lemma table_bounds_check_wraps_witness :
  let d := sample_dev zero_regs XSDFEC_INIT XSDFEC_LDPC_CODE 1 false in
  XSDFEC_SC_TABLE_DEPTH < (0x3FFFFFFF + 1) * 4 /\
  fst (xsdfec_sc_table_write sample_hdr 0x3FFFFFFF (array_of [7]) 1 d) = 1 /\
  io_log (snd (xsdfec_sc_table_write sample_hdr 0x3FFFFFFF (array_of [7]) 1 d))
  = [IoWrite 0xFFFC 7].
Proof.
  intros d.
  split; [ reflexivity | ].
  apply (table_bounds_check_wraps sample_hdr (array_of [7]) d).
  reflexivity.
Defined.

(** ** LDPC programming: order and placement of the writes (claim C4) *)

Lemma for_reg_write_log (base offset : Z) (ptr : Z -> Z) (cnt : nat) :
  forall (reg : Z) (d : xsdfec_dev),
    wr_protect d = false ->
    io_log (snd (for_reg cnt reg
                   (fun reg _ =>
                      xsdfec_regwrite (table_addr base offset reg) (ptr reg))
                   tt d))
    = io_log d
      ++ map (fun i => IoWrite (table_addr base offset (reg + Z.of_nat i))
                               (ptr (reg + Z.of_nat i)))
             (seq 0 cnt).
Proof.
  induction cnt as [| cnt IH]; intros reg d Hwp.
  - cbn. rewrite app_nil_r. reflexivity.
  - cbn [for_reg]. rewrite bind_run, regwrite_run, Hwp. cbn [fst snd].
    rewrite IH by exact Hwp.
    cbn [io_log set_hw seq map]. rewrite <- app_assoc. cbn [app].
    rewrite Z.add_0_r. do 2 f_equal.
    rewrite <- seq_shift, map_map.
    apply map_ext. intros i.
    replace (reg + 1 + Z.of_nat i) with (reg + Z.of_nat (S i)) by lia.
    reflexivity.
Qed.

Lemma table_writes_from_zero (base offset : Z) (ptr : Z -> Z) (len : Z) :
  map (fun i => IoWrite (table_addr base offset (0 + Z.of_nat i))
                        (ptr (0 + Z.of_nat i)))
      (seq 0 (Z.to_nat len))
  = table_writes base offset ptr len.
Proof. reflexivity. Qed.

Section TableWriteLogs.

Variable hdr : uapi_header.

Lemma sc_table_write_log (offset : Z) (ptr : Z -> Z) (len : Z) (d : xsdfec_dev) :
  wr_protect d = false ->
  let r := xsdfec_sc_table_write hdr offset ptr len d in
  (fst r = - EINVAL /\ io_log (snd r) = io_log d) \/
  (fst r = s32 len /\
   io_log (snd r)
   = io_log d ++ table_writes (XSDFEC_LDPC_SC_TABLE_ADDR_BASE hdr) offset ptr len).
Proof.
  intros Hwp. cbv zeta. unfold xsdfec_sc_table_write.
  destruct (_ >? _).
  - left. split; reflexivity.
  - right. rewrite bind_run. cbn [ret fst snd].
    rewrite for_reg_write_log by exact Hwp. split; reflexivity.
Qed.

Lemma la_table_write_log (offset : Z) (ptr : Z -> Z) (len : Z) (d : xsdfec_dev) :
  wr_protect d = false ->
  let r := xsdfec_la_table_write hdr offset ptr len d in
  (fst r = - EINVAL /\ io_log (snd r) = io_log d) \/
  (fst r = s32 len /\
   io_log (snd r)
   = io_log d ++ table_writes (XSDFEC_LDPC_LA_TABLE_ADDR_BASE hdr) offset ptr len).
Proof.
  intros Hwp. cbv zeta. unfold xsdfec_la_table_write.
  destruct (_ >? _).
  - left. split; reflexivity.
  - right. rewrite bind_run. cbn [ret fst snd].
    rewrite for_reg_write_log by exact Hwp. split; reflexivity.
Qed.

Lemma qc_table_write_log (offset : Z) (ptr : Z -> Z) (len : Z) (d : xsdfec_dev) :
  wr_protect d = false ->
  let r := xsdfec_qc_table_write hdr offset ptr len d in
  (fst r = - EINVAL /\ io_log (snd r) = io_log d) \/
  (fst r = s32 len /\
   io_log (snd r)
   = io_log d ++ table_writes (XSDFEC_LDPC_QC_TABLE_ADDR_BASE hdr) offset ptr len).
Proof.
  intros Hwp. cbv zeta. unfold xsdfec_qc_table_write.
  destruct (_ >? _).
  - left. split; reflexivity.
  - right. rewrite bind_run. cbn [ret fst snd].
    rewrite for_reg_write_log by exact Hwp. split; reflexivity.
Qed.

End TableWriteLogs.

(** The log of a code register write on an unprotected device. *)
Ltac reg_write_log :=
  intros Hwp; cbv zeta; unfold code_reg_addr_of;
  repeat (rewrite bind_run, when_log_run; dev_simpl);
  match goal with
  | |- context [if ?c then _ else _] => destruct c
  end;
  [ left; rewrite bind_run, dev_err_run; dev_simpl; split; reflexivity
  | right; rewrite bind_run, regwrite_run; dev_simpl; rewrite Hwp; dev_simpl;
    split; [ reflexivity | eexists; reflexivity ] ].

Lemma reg0_write_log (n k offset : Z) (d : xsdfec_dev) :
  wr_protect d = false ->
  let r := xsdfec_reg0_write n k offset d in
  (fst r = - EINVAL /\ io_log (snd r) = io_log d) \/
  (fst r = 0 /\
   exists w, io_log (snd r)
             = io_log d
               ++ [IoWrite (code_reg_addr_of XSDFEC_LDPC_CODE_REG0_ADDR_BASE offset) w]).
Proof. unfold xsdfec_reg0_write. reg_write_log. Qed.

Lemma reg1_write_log (psize no_packing nm offset : Z) (d : xsdfec_dev) :
  wr_protect d = false ->
  let r := xsdfec_reg1_write psize no_packing nm offset d in
  (fst r = - EINVAL /\ io_log (snd r) = io_log d) \/
  (fst r = 0 /\
   exists w, io_log (snd r)
             = io_log d
               ++ [IoWrite (code_reg_addr_of XSDFEC_LDPC_CODE_REG1_ADDR_BASE offset) w]).
Proof. unfold xsdfec_reg1_write. reg_write_log. Qed.

Lemma reg2_write_log (a b c e f g offset : Z) (d : xsdfec_dev) :
  wr_protect d = false ->
  let r := xsdfec_reg2_write a b c e f g offset d in
  (fst r = - EINVAL /\ io_log (snd r) = io_log d) \/
  (fst r = 0 /\
   exists w, io_log (snd r)
             = io_log d
               ++ [IoWrite (code_reg_addr_of XSDFEC_LDPC_CODE_REG2_ADDR_BASE offset) w]).
Proof. unfold xsdfec_reg2_write. reg_write_log. Qed.

Lemma reg3_write_log (sc la qc offset : Z) (d : xsdfec_dev) :
  wr_protect d = false ->
  let r := xsdfec_reg3_write sc la qc offset d in
  (fst r = - EINVAL /\ io_log (snd r) = io_log d) \/
  (fst r = 0 /\
   exists w, io_log (snd r)
             = io_log d
               ++ [IoWrite (code_reg_addr_of XSDFEC_LDPC_CODE_REG3_ADDR_BASE offset) w]).
Proof. unfold xsdfec_reg3_write. reg_write_log. Qed.

Lemma unprotect_step (d : xsdfec_dev) :
  let d1 := snd (when (wr_protect d) (xsdfec_wr_protect false) d) in
  wr_protect d1 = false /\ io_log d1 = io_log d ++ unprotect_log d.
Proof.
  destruct d as [r l m s c ie wp ic cc uc oc iq wk].
  destruct wp; cbn; rewrite <- ?app_assoc, ?app_nil_r; split; reflexivity.
Qed.

(** One step of the programming sequence: run the step, name its status
    and the device it leaves, and keep what is known about both. *)
Ltac program_step lem keep :=
  rewrite bind_run;
  match goal with
  | Hwp : wr_protect ?d = false |- context [fst (?m ?d)] =>
      let H := fresh "Hstep" in
      let Hk := fresh "Hwp" in
      pose proof (lem d Hwp) as H;
      pose proof (keep d : wr_protect (snd (m d)) = wr_protect d) as Hk;
      rewrite Hwp in Hk;
      cbv zeta in H;
      destruct (m d) as [? ?];
      cbn [fst snd] in H, Hk |- *;
      clear Hwp
  end.

(** Claim C4, amended: a call of [xsdfec_add_ldpc] that returns 0 on a
    device not configured for Turbo has issued, after the writes that
    lift write protection if it was set, the four code register writes in
    the order 0, 1, 2, 3 and then the three payloads in the order sc, la,
    qc; the la payload starts at table word 4 * la_off and the qc payload
    at 4 * qc_off, while the sc payload starts at table word sc_off
    itself. *)
Theorem add_ldpc_program_order
        (hdr : uapi_header) (ua : uaccess) (arg : xsdfec_ldpc_params)
        (d : xsdfec_dev) :
  code (config d) <> XSDFEC_TURBO_CODE ->
  fst (xsdfec_add_ldpc hdr ua arg d) = 0 ->
  exists w0 w1 w2 w3,
    io_log (snd (xsdfec_add_ldpc hdr ua arg d))
    = io_log d ++ unprotect_log d
      ++ ldpc_program_log hdr (sc_off arg) arg w0 w1 w2 w3.
Proof.
  intros Hc. unfold xsdfec_add_ldpc.
  destruct (kzalloc_fails ua); [cbn; discriminate |].
  destruct (nz (s32 (copy_from_user ua))) eqn:Ecfu.
  { rewrite bind_run. cbn [ret fst snd]. apply nz_true in Ecfu.
    intros H. contradiction. }
  rewrite bind_run. cbn [get fst snd].
  replace (code_eqb (code (config d)) XSDFEC_TURBO_CODE) with false
    by (destruct (code (config d)); try reflexivity; contradiction).
  rewrite bind_run.
  destruct (unprotect_step d) as [Hwp Hlog]. cbv zeta in Hwp, Hlog.
  generalize dependent (snd (when (wr_protect d) (xsdfec_wr_protect false) d)).
  intros d1 Hwp Hlog1. cbn [fst].
  program_step (reg0_write_log (n arg) (k arg) (code_id arg))
               (keeps_reg0_write wr_protect wr_protect_driver_part
                                 (n arg) (k arg) (code_id arg)).
  destruct Hstep as [[-> _] | [-> [w0 Hlog2]]]; [cbn; discriminate |].
  change (nz 0) with false. cbv iota.
  program_step (reg1_write_log (psize arg) (no_packing arg) (nm arg) (code_id arg))
               (keeps_reg1_write wr_protect wr_protect_driver_part
                                 (psize arg) (no_packing arg) (nm arg) (code_id arg)).
  destruct Hstep as [[-> _] | [-> [w1 Hlog3]]]; [cbn; discriminate |].
  change (nz 0) with false. cbv iota.
  program_step (reg2_write_log (nlayers arg) (nmqc arg) (norm_type arg)
                               (special_qc arg) (no_final_parity arg)
                               (max_schedule arg) (code_id arg))
               (keeps_reg2_write wr_protect wr_protect_driver_part
                                 (nlayers arg) (nmqc arg) (norm_type arg)
                                 (special_qc arg) (no_final_parity arg)
                                 (max_schedule arg) (code_id arg)).
  destruct Hstep as [[-> _] | [-> [w2 Hlog4]]]; [cbn; discriminate |].
  change (nz 0) with false. cbv iota.
  program_step (reg3_write_log (sc_off arg) (la_off arg) (qc_off arg) (code_id arg))
               (keeps_reg3_write wr_protect wr_protect_driver_part
                                 (sc_off arg) (la_off arg) (qc_off arg) (code_id arg)).
  destruct Hstep as [[-> _] | [-> [w3 Hlog5]]]; [cbn; discriminate |].
  change (nz 0) with false. cbv iota.
  program_step (sc_table_write_log hdr (sc_off arg) (sc_table arg) (nlayers arg))
               (keeps_sc_table_write wr_protect wr_protect_driver_part hdr
                                     (sc_off arg) (sc_table arg) (nlayers arg)).
  destruct Hstep as [[-> _] | [-> Hlog6]]; [cbn; discriminate |].
  destruct (s32 (nlayers arg) <? 0) eqn:Esc.
  { cbn [ret fst]. apply Z.ltb_lt in Esc. intros H. lia. }
  program_step (la_table_write_log hdr (u32 (4 * la_off arg)) (la_table arg)
                                   (nlayers arg))
               (keeps_la_table_write wr_protect wr_protect_driver_part hdr
                                     (u32 (4 * la_off arg)) (la_table arg)
                                     (nlayers arg)).
  destruct Hstep as [[-> _] | [-> Hlog7]]; [cbn; discriminate |].
  rewrite Esc.
  program_step (qc_table_write_log hdr (u32 (4 * qc_off arg)) (qc_table arg)
                                   (nqc arg))
               (keeps_qc_table_write wr_protect wr_protect_driver_part hdr
                                     (u32 (4 * qc_off arg)) (qc_table arg)
                                     (nqc arg)).
  destruct Hstep as [[-> _] | [-> Hlog8]]; [cbn; discriminate |].
  destruct (s32 (nqc arg) <? 0) eqn:Eqc.
  { cbn [ret fst]. apply Z.ltb_lt in Eqc. intros H. lia. }
  intros _. exists w0, w1, w2, w3. cbn [ret snd].
  rewrite Hlog8, Hlog7, Hlog6, Hlog5, Hlog4, Hlog3, Hlog2, Hlog1.
  unfold ldpc_program_log. rewrite <- !app_assoc. reflexivity.
Qed.

Lemma add_ldpc_program_order_witness :
  let d := sample_dev zero_regs XSDFEC_STOPPED XSDFEC_LDPC_CODE 1 false in
  exists w0 w1 w2 w3,
    io_log (snd (xsdfec_add_ldpc sample_hdr ua_ok sample_ldpc d))
    = io_log d ++ unprotect_log d
      ++ ldpc_program_log sample_hdr (sc_off sample_ldpc) sample_ldpc w0 w1 w2 w3.
Proof.
  intros d.
  apply (add_ldpc_program_order sample_hdr ua_ok sample_ldpc d).
  - cbn. discriminate.
  - vm_compute. reflexivity.
Defined.

(** Claim C4 as stated fails for the sample descriptor, whose sc_off is 1:
    the first sc word goes to table word 1, not to table word 4. *)
Lemma add_ldpc_as_specified_fails_for_sc :
  ~ add_ldpc_as_specified sample_hdr ua_ok sample_ldpc
      (sample_dev zero_regs XSDFEC_STOPPED XSDFEC_LDPC_CODE 1 false).
Proof.
  unfold add_ldpc_as_specified. cbv zeta. intros H.
  assert (H0 : fst (xsdfec_add_ldpc sample_hdr ua_ok sample_ldpc
                      (sample_dev zero_regs XSDFEC_STOPPED XSDFEC_LDPC_CODE 1 false))
               = 0) by (vm_compute; reflexivity).
  destruct (H H0) as [w0 [w1 [w2 [w3 Hl]]]].
  vm_compute in Hl. discriminate Hl.
Qed.

(** ** Fault handler: which registers it writes (claim C5) *)

Lemma written_app (l1 l2 : list io_event) :
  written (l1 ++ l2) = written l1 ++ written l2.
Proof. unfold written. apply flat_map_app. Qed.

Lemma leaves_alone_refl (addrs : list Z) (d : xsdfec_dev) : leaves_alone addrs d d.
Proof.
  split; [reflexivity |]. exists []. rewrite app_nil_r.
  split; [reflexivity | intros a _ []].
Qed.

Lemma leaves_alone_trans (addrs : list Z) (d1 d2 d3 : xsdfec_dev) :
  leaves_alone addrs d1 d2 -> leaves_alone addrs d2 d3 -> leaves_alone addrs d1 d3.
Proof.
  intros [Hr1 [l1 [Hl1 Hw1]]] [Hr2 [l2 [Hl2 Hw2]]]. split.
  - intros a Ha. rewrite Hr2, Hr1 by exact Ha. reflexivity.
  - exists (l1 ++ l2). split.
    + rewrite Hl2, Hl1, app_assoc. reflexivity.
    + intros a Ha. rewrite written_app. intros Hin.
      apply in_app_or in Hin. destruct Hin as [Hin | Hin].
      * exact (Hw1 a Ha Hin).
      * exact (Hw2 a Ha Hin).
Qed.

Section HwFrame.

Variable addrs : list Z.

Lemma hw_frame_ret {A : Type} (a : A) : hw_frame addrs (ret a).
Proof. intros d. apply leaves_alone_refl. Qed.

Lemma hw_frame_get : hw_frame addrs get.
Proof. intros d. apply leaves_alone_refl. Qed.

Lemma hw_frame_bind {A C : Type} (m : M A) (f : A -> M C) :
  hw_frame addrs m -> (forall a, hw_frame addrs (f a)) -> hw_frame addrs (bind m f).
Proof.
  intros Hm Hf d. rewrite bind_run.
  eapply leaves_alone_trans; [apply Hm | apply Hf].
Qed.

Lemma hw_frame_if {A : Type} (b : bool) (m1 m2 : M A) :
  hw_frame addrs m1 -> hw_frame addrs m2 -> hw_frame addrs (if b then m1 else m2).
Proof. destruct b; auto. Qed.

Lemma hw_frame_when (b : bool) (m : M unit) :
  hw_frame addrs m -> hw_frame addrs (when b m).
Proof. intros Hm. destruct b; [exact Hm | apply hw_frame_ret]. Qed.

Lemma hw_frame_modify (f : xsdfec_dev -> xsdfec_dev) :
  (forall d, regs (f d) = regs d /\ io_log (f d) = io_log d) ->
  hw_frame addrs (modify f).
Proof.
  intros Hf d. cbn. destruct (Hf d) as [Hr Hl]. split.
  - intros a _. rewrite Hr. reflexivity.
  - exists []. rewrite app_nil_r. split; [exact Hl | intros a _ []].
Qed.

Lemma hw_frame_dev_err (msg : string) : hw_frame addrs (dev_err msg).
Proof. apply hw_frame_modify. intros d. split; reflexivity. Qed.

Lemma hw_frame_regread (addr : Z) : hw_frame addrs (xsdfec_regread addr).
Proof.
  intros d. rewrite regread_run. dev_simpl. split; [reflexivity |].
  eexists. split; [reflexivity | intros a _ []].
Qed.

Lemma hw_frame_regwrite (addr value : Z) :
  ~ In addr addrs -> hw_frame addrs (xsdfec_regwrite addr value).
Proof.
  intros Hnot d. rewrite regwrite_run. dev_simpl.
  destruct (wr_protect d); dev_simpl.
  - apply (hw_frame_dev_err "SDFEC in write protect" d).
  - split.
    + intros a Ha. dev_simpl. unfold upd.
      destruct (Z.eqb_spec a addr) as [-> | _]; [contradiction | reflexivity].
    + dev_simpl. eexists. split; [reflexivity |].
      intros a Ha [E | []]. subst a. contradiction.
Qed.

End HwFrame.

Create HintDb hwframe.

#[local] Hint Resolve hw_frame_ret hw_frame_get hw_frame_dev_err
  hw_frame_regread : hwframe.

Ltac hw_frame_steps :=
  repeat match goal with
         | |- hw_frame _ (bind _ _) => apply hw_frame_bind; [ | intros ? ]
         | |- hw_frame _ (if _ then _ else _) => apply hw_frame_if
         | |- hw_frame _ (when _ _) => apply hw_frame_when
         | |- hw_frame _ (xsdfec_regwrite _ _) =>
             apply hw_frame_regwrite; cbn; intuition discriminate
         | |- hw_frame _ (modify _) =>
             apply hw_frame_modify; intros ?; split; reflexivity
         end;
  eauto with hwframe.

Lemma hw_frame_isr_enable (enable : bool) :
  hw_frame [XSDFEC_ECC_ISR_ADDR; XSDFEC_ISR_ADDR] (xsdfec_isr_enable enable).
Proof. unfold xsdfec_isr_enable. hw_frame_steps. Qed.

Lemma hw_frame_ecc_isr_enable (enable : bool) :
  hw_frame [XSDFEC_ECC_ISR_ADDR; XSDFEC_ISR_ADDR] (xsdfec_ecc_isr_enable enable).
Proof. unfold xsdfec_ecc_isr_enable. hw_frame_steps. Qed.

Lemma leaves_alone_sub (addrs addrs' : list Z) (d d' : xsdfec_dev) :
  incl addrs' addrs -> leaves_alone addrs d d' -> leaves_alone addrs' d d'.
Proof.
  intros Hi [Hr [l [Hl Hw]]]. split.
  - intros a Ha. apply Hr, Hi, Ha.
  - exists l. split; [exact Hl |]. intros a Ha. apply Hw, Hi, Ha.
Qed.

Lemma hw_frame_sub {A : Type} (addrs addrs' : list Z) (m : M A) :
  incl addrs' addrs -> hw_frame addrs m -> hw_frame addrs' m.
Proof. intros Hi Hm d. eapply leaves_alone_sub; [exact Hi | apply Hm]. Qed.

Lemma hw_frame_log_ecc_errors (ecc_err : Z) :
  hw_frame [XSDFEC_ISR_ADDR] (xsdfec_log_ecc_errors ecc_err).
Proof. unfold xsdfec_log_ecc_errors. hw_frame_steps. Qed.

Lemma hw_frame_log_isr_errors (isr_err : Z) :
  hw_frame [XSDFEC_ISR_ADDR] (xsdfec_log_isr_errors isr_err).
Proof. unfold xsdfec_log_isr_errors. hw_frame_steps. Qed.

(** Whatever it finds, the fault handler never writes the general status
    register. *)
Lemma irq_thread_never_writes_isr : hw_frame [XSDFEC_ISR_ADDR] xsdfec_irq_thread.
Proof.
  assert (Hsub : incl [XSDFEC_ISR_ADDR] [XSDFEC_ECC_ISR_ADDR; XSDFEC_ISR_ADDR])
    by (intros a [<- | []]; cbn; auto).
  pose proof (fun b => hw_frame_sub _ _ _ Hsub (hw_frame_isr_enable b)) as H1.
  pose proof (fun b => hw_frame_sub _ _ _ Hsub (hw_frame_ecc_isr_enable b)) as H2.
  unfold xsdfec_irq_thread, xsdfec_reset_required, wake_up_interruptible.
  hw_frame_steps;
    auto using hw_frame_log_ecc_errors, hw_frame_log_isr_errors.
Qed.

Lemma sw_view_driver_part : driver_part sw_view.
Proof. repeat split. Qed.

Lemma log_isr_errors_view (isr_err : Z) (d : xsdfec_dev) :
  sw_view (snd (xsdfec_log_isr_errors isr_err d))
  = (state d, wr_protect d,
     (atomic_add (hweight32 isr_err) (isr_err_count d), cecc_count d, uecc_count d),
     wakeups d).
Proof.
  unfold xsdfec_log_isr_errors.
  rewrite bind_run. cbn [get fst snd].
  rewrite bind_run. cbn [modify fst snd].
  rewrite bind_run, when_log_run. dev_simpl.
  rewrite regwrite_run. dev_simpl.
  destruct (wr_protect d) eqn:E; unfold sw_view; dev_simpl; rewrite ?E; reflexivity.
Qed.

(** One step of the fault handler: run it, forget the device it leaves
    except for its software view and the two status registers. *)
Ltac irq_mask_step keep frame :=
  rewrite bind_run; cbv beta;
  match goal with
  | |- context [snd (?m ?d)] =>
      let K := fresh "K" in
      let R := fresh "R" in
      pose proof (keep d : sw_view (snd (m d)) = sw_view d) as K;
      pose proof (frame d : leaves_alone _ d (snd (m d))) as [R _];
      generalize dependent (snd (m d)); intros ? K R
  end.

Lemma irq_isr_errors_view (d : xsdfec_dev) :
  Z.land (u32 (regs d XSDFEC_ECC_ISR_ADDR)) XSDFEC_ECC_ISR_MBE = 0 ->
  Z.land (u32 (regs d XSDFEC_ISR_ADDR)) XSDFEC_ISR_MASK <> 0 ->
  fst (xsdfec_irq_thread d) = (IRQ_HANDLED, true) /\
  sw_view (snd (xsdfec_irq_thread d))
  = (XSDFEC_NEEDS_RESET, wr_protect d,
     (atomic_add (hweight32 (u32 (regs d XSDFEC_ISR_ADDR))) (isr_err_count d),
      cecc_count d, uecc_count d),
     S (wakeups d)).
Proof.
  intros Hecc Hisr. unfold xsdfec_irq_thread.
  irq_mask_step (keeps_isr_enable sw_view sw_view_driver_part false)
                (hw_frame_isr_enable false).
  irq_mask_step (keeps_ecc_isr_enable sw_view sw_view_driver_part false)
                (hw_frame_ecc_isr_enable false).
  rewrite bind_run, regread_run. dev_simpl.
  rewrite bind_run, regread_run. dev_simpl.
  rewrite !R0, !R by (cbn; tauto).
  apply nz_false in Hecc. apply nz_true in Hisr. rewrite Hecc, Hisr.
  rewrite bind_run.
  match goal with
  | |- context [snd (bind (xsdfec_log_isr_errors ?e) ?f ?d4)] =>
      pose proof (log_isr_errors_view e d4) as V;
      rewrite !(bind_run (xsdfec_log_isr_errors e) f d4) in *;
      generalize dependent (snd (xsdfec_log_isr_errors e d4)); intros d5 V
  end.
  unfold xsdfec_reset_required.
  change ((modify (set_state XSDFEC_NEEDS_RESET) ;; ret (IRQ_HANDLED, true)) d5)
    with ((IRQ_HANDLED, true), set_state XSDFEC_NEEDS_RESET d5).
  cbn [fst snd when].
  unfold wake_up_interruptible. rewrite bind_run. cbn [modify fst snd].
  irq_mask_step (keeps_isr_enable sw_view sw_view_driver_part true)
                (hw_frame_isr_enable true).
  irq_mask_step (keeps_ecc_isr_enable sw_view sw_view_driver_part true)
                (hw_frame_ecc_isr_enable true).
  cbn [ret fst snd]. split; [reflexivity |].
  rewrite K2, K1. unfold sw_view in *. dev_simpl. dev_simpl_in V.
  injection V as V1 V2 V3 V4 V5 V6.
  injection K0 as A1 A2 A3 A4 A5 A6.
  injection K as B1 B2 B3 B4 B5 B6.
  congruence.
Qed.

Lemma sw_view_eq (d : xsdfec_dev) (s : xsdfec_state) (w : bool)
      (c1 c2 c3 : Z) (k : nat) :
  sw_view d = (s, w, (c1, c2, c3), k) ->
  state d = s /\ wr_protect d = w /\ isr_err_count d = c1 /\
  cecc_count d = c2 /\ uecc_count d = c3 /\ wakeups d = k.
Proof.
  unfold sw_view. intros H. inversion H. repeat split.
Qed.

(** Claim C5: on an interrupt with no uncorrectable-ECC bit and at least
    one general-status error bit, the fault handler reports the interrupt
    as handled and fatal, adds the population count of the status word to
    the ISR-error counter, moves the device to NEEDS_RESET and wakes the
    waiters, as claimed; but it does not clear the general status
    register: that register is never written (the clearing write of
    [xsdfec_log_isr_errors] goes to the ECC status register) and still
    holds the error bits when the handler returns. *)
Theorem irq_isr_errors_escalate_status_not_cleared (d : xsdfec_dev) :
  Z.land (u32 (regs d XSDFEC_ECC_ISR_ADDR)) XSDFEC_ECC_ISR_MBE = 0 ->
  Z.land (u32 (regs d XSDFEC_ISR_ADDR)) XSDFEC_ISR_MASK <> 0 ->
  let r := xsdfec_irq_thread d in
  fst r = (IRQ_HANDLED, true) /\
  isr_err_count (snd r)
  = atomic_add (hweight32 (u32 (regs d XSDFEC_ISR_ADDR))) (isr_err_count d) /\
  state (snd r) = XSDFEC_NEEDS_RESET /\
  wakeups (snd r) = S (wakeups d) /\
  regs (snd r) XSDFEC_ISR_ADDR = regs d XSDFEC_ISR_ADDR /\
  exists l, io_log (snd r) = io_log d ++ l /\ ~ In XSDFEC_ISR_ADDR (written l).
Proof.
  intros Hecc Hisr. cbv zeta.
  destruct (irq_isr_errors_view d Hecc Hisr) as [Hret Hview].
  destruct (irq_thread_never_writes_isr d) as [Hregs [l [Hlog Hw]]].
  apply sw_view_eq in Hview. destruct Hview as [Hs [_ [Hc [_ [_ Hk]]]]].
  repeat split; try assumption.
  - apply Hregs. cbn. auto.
  - exists l. split; [exact Hlog |]. apply Hw. cbn. auto.
Qed.

Lemma irq_isr_errors_escalate_status_not_cleared_witness :
  let d := sample_dev (upd zero_regs XSDFEC_ISR_ADDR 3)
                      XSDFEC_STOPPED XSDFEC_LDPC_CODE 1 false in
  let r := xsdfec_irq_thread d in
  fst r = (IRQ_HANDLED, true) /\
  isr_err_count (snd r) = 2 /\
  state (snd r) = XSDFEC_NEEDS_RESET /\
  wakeups (snd r) = 1%nat /\
  regs (snd r) XSDFEC_ISR_ADDR = 3 /\
  exists l, io_log (snd r) = l /\ ~ In XSDFEC_ISR_ADDR (written l).
Proof.
  intros d r.
  apply (irq_isr_errors_escalate_status_not_cleared d).
  - reflexivity.
  - vm_compute. discriminate.
Defined.

(** ** Reading a code back: which fields survive (claim C1) *)

(** A word shifted right by [s] has no bit in a mask that sits above bit
    [32 - s]. *)
Lemma shifted_word_misses_mask (v s c j : Z) :
  0 <= s -> 0 <= j -> 32 - s <= j ->
  Z.land (Z.shiftr (u32 v) s) (Z.shiftl c j) = 0.
Proof.
  intros Hs Hj Hsj. apply Z.bits_inj'. intros i Hi.
  rewrite Z.land_spec, Z.bits_0, Z.shiftr_spec, Z.shiftl_spec by lia.
  destruct (Z.ltb_spec i j) as [Hlt | Hge].
  - rewrite (Z.testbit_neg_r c) by lia. apply andb_false_r.
  - rewrite u32_testbit by lia.
    replace (i + s <? 32) with false by (symmetry; apply Z.ltb_ge; lia).
    rewrite andb_false_r. reflexivity.
Qed.

Lemma some_eq {A : Type} (a b : A) : Some a = Some b -> a = b.
Proof. intros H. inversion H. reflexivity. Qed.

Ltac dead_branch := cbn [ret fst snd]; intros Hdead; discriminate Hdead.

(** Whatever the registers hold, a descriptor delivered by
    [xsdfec_get_ldpc_code_params] has [k], [norm_type], [special_qc],
    [no_final_parity] and [max_schedule] equal to 0: each is extracted by
    shifting the word down and then masking with the mask of the field's
    position before the shift.  [n], [psize] and [nlayers] are extracted
    with masks that fit. *)
Lemma get_ldpc_fields_read_as_zero
      (hdr : uapi_header) (ua : uaccess) (arg p : xsdfec_ldpc_params)
      (d : xsdfec_dev) :
  snd (fst (xsdfec_get_ldpc_code_params hdr ua arg d)) = Some p ->
  k p = 0 /\ norm_type p = 0 /\ special_qc p = 0 /\
  no_final_parity p = 0 /\ max_schedule p = 0 /\
  n p = Z.land (u32 (regs d (code_reg_addr_of XSDFEC_LDPC_CODE_REG0_ADDR_BASE
                                              (code_id arg))))
               0xFFFF.
Proof.
  unfold xsdfec_get_ldpc_code_params.
  rewrite bind_run. cbn [get fst snd].
  destruct (code_eqb _ _); [rewrite bind_run; dead_branch |].
  destruct (kzalloc_fails ua); [dead_branch |].
  destruct (nz (s32 (copy_from_user ua))); [rewrite bind_run; dead_branch |].
  (* register 0 *)
  rewrite bind_run. unfold xsdfec_collect_ldpc_reg0 at 1 2.
  destruct (_ >? _);
    [rewrite !bind_run; cbn [ret fst snd]; change (nz (- EINVAL)) with true;
     dead_branch |].
  rewrite !(bind_run (xsdfec_regread _)), regread_run. dev_simpl.
  change (nz 0) with false. cbv iota.
  (* register 1 *)
  rewrite bind_run. unfold xsdfec_collect_ldpc_reg1 at 1 2.
  destruct (_ >? _);
    [rewrite !bind_run; cbn [ret fst snd]; change (nz (- EINVAL)) with true;
     dead_branch |].
  rewrite !(bind_run (xsdfec_regread _)), regread_run. dev_simpl.
  change (nz 0) with false. cbv iota.
  (* register 2 *)
  rewrite bind_run. unfold xsdfec_collect_ldpc_reg2 at 1 2.
  destruct (_ >? _);
    [rewrite !bind_run; cbn [ret fst snd]; change (nz (- EINVAL)) with true;
     dead_branch |].
  rewrite !(bind_run (xsdfec_regread _)), regread_run. dev_simpl.
  change (nz 0) with false. cbv iota.
  (* register 3 *)
  rewrite bind_run. unfold xsdfec_collect_ldpc_reg3 at 1 2.
  destruct (_ >? _);
    [rewrite !bind_run; cbn [ret fst snd]; change (nz (- EINVAL)) with true;
     dead_branch |].
  rewrite !(bind_run (xsdfec_regread _)), regread_run. dev_simpl.
  change (nz 0) with false. cbv iota.
  (* the three tables *)
  rewrite bind_run.
  destruct (xsdfec_collect_sc_table _ _ _ _ _) as [[e1 t1] d1]. cbn [fst snd].
  destruct (e1 <? 0); [dead_branch |].
  rewrite bind_run.
  destruct (xsdfec_collect_la_table _ _ _ _ _) as [[e2 t2] d2]. cbn [fst snd].
  destruct (e2 <? 0); [dead_branch |].
  rewrite bind_run.
  destruct (xsdfec_collect_qc_table _ _ _ _ _) as [[e3 t3] d3]. cbn [fst snd].
  destruct (e3 <? 0); [dead_branch |].
  destruct (nz (s32 (copy_to_user ua))); [rewrite bind_run; dead_branch |].
  cbn [ret fst snd]. intros Hp. apply some_eq in Hp. subst p.
  cbn [k n norm_type special_qc no_final_parity max_schedule code_id
       set_qc_table set_la_table set_sc_table set_offsets set_reg2_fields
       set_reg1_fields set_reg0_fields].
  change XSDFEC_REG0_K_MASK with (Z.shiftl 0x7fff 16).
  change XSDFEC_REG2_NORM_TYPE_MASK with (Z.shiftl 1 20).
  change XSDFEC_REG2_SPECIAL_QC_MASK with (Z.shiftl 1 21).
  change XSDFEC_REG2_NO_FINAL_PARITY_MASK with (Z.shiftl 1 22).
  change XSDFEC_REG2_MAX_SCHEDULE_MASK with (Z.shiftl 3 23).
  rewrite !shifted_word_misses_mask
    by (unfold XSDFEC_REG0_K_LSB, XSDFEC_REG2_NORM_TYPE_LSB,
        XSDFEC_REG2_SPEICAL_QC_LSB, XSDFEC_REG2_NO_FINAL_PARITY_LSB,
        XSDFEC_REG2_MAX_SCHEDULE_LSB; lia).
  unfold XSDFEC_REG0_N_LSB. rewrite Z.shiftr_0_r.
  repeat split; reflexivity.
Qed.

(** Claim C1 says that reading a code back after a successful
    [xsdfec_add_ldpc] returns the descriptor that was programmed, on n, k,
    psize, no_packing, nm, nlayers, nmqc, norm_type, special_qc,
    no_final_parity, max_schedule and the three payloads.  The read path
    cannot do that: whatever was programmed, and whatever the second call
    is given, a descriptor it delivers has k = 0 (and norm_type,
    special_qc, no_final_parity and max_schedule equal to 0), so no
    descriptor with k different from 0 is read back. *)
Theorem add_then_get_does_not_return_k
        (hdr : uapi_header) (ua1 ua2 : uaccess)
        (desc arg p : xsdfec_ldpc_params) (d : xsdfec_dev) :
  k desc <> 0 ->
  snd (fst (xsdfec_get_ldpc_code_params hdr ua2 arg
              (snd (xsdfec_add_ldpc hdr ua1 desc d)))) = Some p ->
  k p = 0 /\ k p <> k desc /\
  norm_type p = 0 /\ special_qc p = 0 /\ no_final_parity p = 0 /\
  max_schedule p = 0.
Proof.
  intros Hk Hp.
  destruct (get_ldpc_fields_read_as_zero hdr ua2 arg p _ Hp)
    as [H1 [H2 [H3 [H4 [H5 _]]]]].
  repeat split; try assumption.
  rewrite H1. intros E. apply Hk. symmetry. exact E.
Qed.

Lemma add_then_get_does_not_return_k_witness :
  let d := sample_dev zero_regs XSDFEC_INIT XSDFEC_LDPC_CODE 1 false in
  fst (xsdfec_add_ldpc sample_hdr ua_ok sample_ldpc d) = 0 /\
  exists p,
    fst (xsdfec_get_ldpc_code_params sample_hdr ua_ok sample_ldpc
           (snd (xsdfec_add_ldpc sample_hdr ua_ok sample_ldpc d)))
    = (0, Some p) /\
    n p = n sample_ldpc /\
    sc_table p 0 <> sc_table sample_ldpc 0 /\
    k p = 0 /\ k p <> k sample_ldpc /\
    norm_type p = 0 /\ special_qc p = 0 /\ no_final_parity p = 0 /\
    max_schedule p = 0.
Proof.
  intros d. split; [vm_compute; reflexivity |].
  eexists. split; [vm_compute; reflexivity |].
  split; [vm_compute; reflexivity |].
  split; [vm_compute; discriminate |].
  apply (add_then_get_does_not_return_k sample_hdr ua_ok ua_ok sample_ldpc
           sample_ldpc _ d).
  - vm_compute. discriminate.
  - vm_compute. reflexivity.
Defined.

(** What the decoders of register 0 make of a word the encoder produced:
    [n] comes back when it fits its 16 bits, [k] never does. *)
Lemma reg0_decode_of_encode (n k : Z) :
  0 <= n < 2 ^ 16 ->
  Z.land (Z.shiftr (encode_reg0 n k) XSDFEC_REG0_N_LSB) XSDFEC_REG0_N_MASK = n /\
  Z.land (Z.shiftr (encode_reg0 n k) XSDFEC_REG0_K_LSB) XSDFEC_REG0_K_MASK = 0.
Proof.
  intros Hn. split.
  - unfold XSDFEC_REG0_N_LSB, encode_reg0. rewrite Z.shiftr_0_r, Z.shiftl_0_r.
    change XSDFEC_REG0_N_MASK with (Z.ones 16). change 0xFFFF with (Z.ones 16).
    rewrite Z.land_lor_distr_l.
    replace (Z.land (Z.shiftl (Z.land k 0x7FFF) 16) (Z.ones 16)) with 0.
    + rewrite Z.lor_0_l, <- Z.land_assoc, Z.land_diag.
      rewrite Z.land_ones by lia. apply Z.mod_small. exact Hn.
    + symmetry. rewrite Z.land_ones by lia.
      rewrite Z.shiftl_mul_pow2 by lia. apply Z.mod_mul. lia.
  - assert (Hw : 0 <= encode_reg0 n k < 2 ^ 32).
    { unfold encode_reg0. rewrite Z.shiftl_0_r.
      change 0x7FFF with (Z.ones 15). change 0xFFFF with (Z.ones 16).
      pose proof (land_ones_range k 15). pose proof (land_ones_range n 16).
      split.
      - apply Z.lor_nonneg. split; [apply Z.shiftl_nonneg |]; lia.
      - apply Z.log2_lt_cancel. rewrite Z.log2_pow2 by lia.
        destruct (Z.eq_dec (Z.lor (Z.shiftl (Z.land k (Z.ones 15)) 16)
                                   (Z.land n (Z.ones 16))) 0) as [-> | Hnz];
          [cbn; lia |].
        rewrite Z.log2_lor by (try apply Z.shiftl_nonneg; lia).
        apply Z.max_lub_lt.
        + destruct (Z.eq_dec (Z.land k (Z.ones 15)) 0) as [-> | Hk0];
            [cbn; lia |].
          rewrite Z.log2_shiftl by lia.
          assert (Z.log2 (Z.land k (Z.ones 15)) < 15)
            by (apply Z.log2_lt_pow2; lia).
          lia.
        + destruct (Z.eq_dec (Z.land n (Z.ones 16)) 0) as [-> | Hn0];
            [cbn; lia |].
          assert (Z.log2 (Z.land n (Z.ones 16)) < 16)
            by (apply Z.log2_lt_pow2; lia).
          lia. }
    rewrite <- (u32_small (encode_reg0 n k)) by exact Hw.
    change XSDFEC_REG0_K_MASK with (Z.shiftl 0x7fff 16).
    apply shifted_word_misses_mask; unfold XSDFEC_REG0_K_LSB; lia.
Qed.

(** * Further properties of the driver *)

(** ** Write-protection gate *)

(** [xsdfec_wr_protect] always leaves the flag at the requested value.
    Lifting protection always reaches the hardware, interconnect register
    first and code register second; raising it writes the code register
    first and the interconnect register second, unless the flag was
    already set, in which case nothing is written. *)
Theorem wr_protect_flag_and_registers (wr_pr : bool) (d : xsdfec_dev) :
  let d' := snd (xsdfec_wr_protect wr_pr d) in
  wr_protect d' = wr_pr /\
  io_log d'
  = io_log d
    ++ (if wr_pr then
          if wr_protect d then []
          else [IoWrite XSDFEC_CODE_WR_PROTECT_ADDR XSDFEC_WRITE_PROTECT_ENABLE;
                IoWrite XSDFEC_AXI_WR_PROTECT_ADDR XSDFEC_WRITE_PROTECT_ENABLE]
        else [IoWrite XSDFEC_AXI_WR_PROTECT_ADDR XSDFEC_WRITE_PROTECT_DISABLE;
              IoWrite XSDFEC_CODE_WR_PROTECT_ADDR XSDFEC_WRITE_PROTECT_DISABLE]) /\
  (wr_pr && wr_protect d = false ->
   regs d' XSDFEC_CODE_WR_PROTECT_ADDR = Z.b2z wr_pr /\
   regs d' XSDFEC_AXI_WR_PROTECT_ADDR = Z.b2z wr_pr) /\
  state d' = state d /\ config d' = config d.
Proof.
  cbv zeta. unfold xsdfec_wr_protect.
  destruct d as [r l m s c ie wp ic cc uc oc iq wk].
  destruct wr_pr; destruct wp; cbn;
    rewrite <- ?app_assoc, ?app_nil_r;
    repeat split; try reflexivity; easy.
Qed.

Lemma wr_protect_flag_and_registers_witness :
  let d := sample_dev zero_regs XSDFEC_STOPPED XSDFEC_LDPC_CODE 1 false in
  let d' := snd (xsdfec_wr_protect true d) in
  wr_protect d' = true /\
  regs d' XSDFEC_CODE_WR_PROTECT_ADDR = 1 /\
  regs d' XSDFEC_AXI_WR_PROTECT_ADDR = 1.
Proof.
  intros d d'.
  destruct (wr_protect_flag_and_registers true d) as [H1 [_ [H3 _]]].
  split; [exact H1 |]. apply H3. reflexivity.
Defined.

(** ** Device state machine: stop, reinitialisation, order and bypass *)

Lemma clear_enable_bits (v : Z) :
  Z.land (Z.land v (not32 XSDFEC_AXIS_ENABLE_MASK)) XSDFEC_AXIS_ENABLE_MASK = 0.
Proof.
  rewrite <- Z.land_assoc.
  replace (Z.land (not32 XSDFEC_AXIS_ENABLE_MASK) XSDFEC_AXIS_ENABLE_MASK) with 0
    by reflexivity.
  apply Z.land_0_r.
Qed.

(** [xsdfec_stop] cannot fail: from any state it returns 0, lifts write
    protection (flag and both registers), clears the six AXI-stream enable
    bits and keeps the other bits of that register, and moves to STOPPED;
    a device that was not STARTED only gets a message. *)
Theorem stop_characterised (d : xsdfec_dev) :
  let r := xsdfec_stop d in
  let v := u32 (regs d XSDFEC_AXIS_ENABLE_ADDR) in
  fst r = 0 /\
  state (snd r) = XSDFEC_STOPPED /\
  wr_protect (snd r) = false /\
  io_log (snd r)
  = io_log d
    ++ [IoWrite XSDFEC_AXI_WR_PROTECT_ADDR XSDFEC_WRITE_PROTECT_DISABLE;
        IoWrite XSDFEC_CODE_WR_PROTECT_ADDR XSDFEC_WRITE_PROTECT_DISABLE;
        IoRead XSDFEC_AXIS_ENABLE_ADDR v;
        IoWrite XSDFEC_AXIS_ENABLE_ADDR (Z.land v (not32 XSDFEC_AXIS_ENABLE_MASK))] /\
  Z.land (regs (snd r) XSDFEC_AXIS_ENABLE_ADDR) XSDFEC_AXIS_ENABLE_MASK = 0 /\
  regs (snd r) XSDFEC_AXI_WR_PROTECT_ADDR = 0 /\
  regs (snd r) XSDFEC_CODE_WR_PROTECT_ADDR = 0 /\
  dmesg (snd r)
  = dmesg d ++ (if state_eqb (state d) XSDFEC_STARTED then []
                else ["Device not started correctly"]) /\
  config (snd r) = config d.
Proof.
  cbv zeta. unfold xsdfec_stop, xsdfec_wr_protect.
  rewrite bind_run. cbn [get fst snd].
  rewrite bind_run, when_log_run. dev_simpl.
  destruct d as [r l m s c ie wp ic cc uc oc iq wk]. dev_simpl.
  cbn. rewrite <- ?app_assoc. cbn [app].
  rewrite clear_enable_bits.
  destruct (state_eqb s XSDFEC_STARTED); cbn; repeat split; reflexivity.
Qed.

Lemma bind_bind {A B C : Type} (m : M A) (g : A -> M B) (f : B -> M C)
      (d : xsdfec_dev) :
  bind (bind m g) f d = bind m (fun x => bind (g x) f) d.
Proof. reflexivity. Qed.

Lemma cfg_axi_streams_run (d : xsdfec_dev) :
  xsdfec_cfg_axi_streams d
  = (0, snd (xsdfec_regwrite XSDFEC_AXIS_WIDTH_ADDR (axis_width_word (config d)) d)).
Proof.
  unfold xsdfec_cfg_axi_streams. rewrite bind_run. cbn [get fst snd].
  rewrite bind_run. cbn [ret fst snd].
  replace (Z.lor _ _) with (axis_width_word (config d)); [reflexivity |].
  unfold axis_width_word.
  destruct (dout_word_include (config d)), (dout_width (config d)),
    (din_word_include (config d)), (din_width (config d)); reflexivity.
Qed.

(** Runs the first pending step of a sequence on an explicit device. *)
Ltac run_step :=
  repeat rewrite bind_bind;
  rewrite bind_run; cbv beta;
  rewrite ?cfg_axi_streams_run, ?regwrite_run, ?regread_run, ?dev_err_run,
    ?when_log_run;
  cbn [get modify ret fst snd]; dev_simpl.

Lemma set_default_config_run (hdr : uapi_header) (d : xsdfec_dev) :
  xsdfec_set_default_config hdr d
  = (0,
     set_hw
       (upd (upd (upd (upd (regs d) XSDFEC_AXI_WR_PROTECT_ADDR 0)
                      XSDFEC_CODE_WR_PROTECT_ADDR 0)
                 XSDFEC_FEC_CODE_ADDR (u32 (code_val hdr (code (config d)) - 1)))
            XSDFEC_AXIS_WIDTH_ADDR
            (axis_width_word (set_order (XSDFEC_INVALID_ORDER hdr) (config d))))
       (io_log d
        ++ [IoWrite XSDFEC_AXI_WR_PROTECT_ADDR 0;
            IoWrite XSDFEC_CODE_WR_PROTECT_ADDR 0;
            IoWrite XSDFEC_FEC_CODE_ADDR (u32 (code_val hdr (code (config d)) - 1));
            IoWrite XSDFEC_AXIS_WIDTH_ADDR
              (axis_width_word (set_order (XSDFEC_INVALID_ORDER hdr) (config d)))])
       (set_wr_protect false
          (set_config (set_order (XSDFEC_INVALID_ORDER hdr) (config d))
             (set_state XSDFEC_INIT d)))).
Proof.
  unfold xsdfec_set_default_config, xsdfec_wr_protect.
  destruct d as [r l m s c ie wp ic cc uc oc iq wk].
  repeat run_step.
  rewrite <- !app_assoc. reflexivity.
Qed.

(** [xsdfec_set_default_config] cannot fail either: from any state, also
    NEEDS_RESET with protection on, it returns 0, moves to INIT, forgets
    the decode order, lifts write protection and rewrites the code and
    stream-width registers from the configuration.  The code family, the
    stream settings and the three error counters are kept. *)
Theorem set_default_config_characterised (hdr : uapi_header) (d : xsdfec_dev) :
  let r := xsdfec_set_default_config hdr d in
  fst r = 0 /\
  state (snd r) = XSDFEC_INIT /\
  wr_protect (snd r) = false /\
  config (snd r) = set_order (XSDFEC_INVALID_ORDER hdr) (config d) /\
  regs (snd r) XSDFEC_AXI_WR_PROTECT_ADDR = 0 /\
  regs (snd r) XSDFEC_CODE_WR_PROTECT_ADDR = 0 /\
  regs (snd r) XSDFEC_FEC_CODE_ADDR = u32 (code_val hdr (code (config d)) - 1) /\
  (exists l, io_log (snd r) = io_log d ++ l /\
             written l
             = [XSDFEC_AXI_WR_PROTECT_ADDR; XSDFEC_CODE_WR_PROTECT_ADDR;
                XSDFEC_FEC_CODE_ADDR; XSDFEC_AXIS_WIDTH_ADDR]) /\
  (isr_err_count (snd r), cecc_count (snd r), uecc_count (snd r))
  = (isr_err_count d, cecc_count d, uecc_count d).
Proof.
  cbv zeta. rewrite set_default_config_run. dev_simpl.
  repeat split; try reflexivity.
  eexists. split; reflexivity.
Qed.

(** The three outcomes of [xsdfec_set_order]: a value outside the valid
    range is refused with -EINVAL, a started device with -EIO, and in both
    cases nothing but the message log changes; otherwise the order is
    stored in the configuration and order - 1 is written to the order
    register (the write being dropped if protection is on). *)
Theorem set_order_characterised (hdr : uapi_header) (arg : Z) (d : xsdfec_dev) :
  let r := xsdfec_set_order hdr arg d in
  let out_of_range :=
    (arg <=? XSDFEC_INVALID_ORDER hdr) || (arg >=? XSDFEC_ORDER_MAX hdr) in
  let started := state_eqb (state d) XSDFEC_STARTED in
  fst r = (if out_of_range then - EINVAL else if started then - EIO else 0) /\
  (if out_of_range || started then untouched d (snd r)
   else
     config (snd r) = set_order arg (config d) /\
     state (snd r) = state d /\
     wr_protect (snd r) = wr_protect d /\
     io_log (snd r)
     = io_log d ++ (if wr_protect d then []
                    else [IoWrite XSDFEC_ORDER_ADDR (u32 (arg - 1))])).
Proof.
  cbv zeta. unfold xsdfec_set_order.
  destruct ((arg <=? XSDFEC_INVALID_ORDER hdr) || (arg >=? XSDFEC_ORDER_MAX hdr)).
  - rewrite bind_run, dev_err_run. cbn [ret fst snd orb].
    split; [reflexivity |]. repeat split.
  - rewrite bind_run. cbn [get fst snd orb].
    destruct (state_eqb (state d) XSDFEC_STARTED).
    + rewrite bind_run, dev_err_run. cbn [ret fst snd].
      split; [reflexivity |]. repeat split.
    + rewrite !bind_run, regwrite_run. cbn [modify ret fst snd].
      destruct d as [r l m s c ie wp ic cc uc oc iq wk].
      destruct wp; dev_simpl; rewrite ?app_nil_r; repeat split; reflexivity.
Qed.

(** [xsdfec_set_bypass] has the same three outcomes: a value above 1 is
    refused with -EINVAL, a started device with -EIO, both leaving all but
    the message log as it was; otherwise the value is written to the
    bypass register and the call returns 0. *)
Theorem set_bypass_characterised (arg : Z) (d : xsdfec_dev) :
  let r := xsdfec_set_bypass arg d in
  let started := state_eqb (state d) XSDFEC_STARTED in
  fst r = (if arg >? 1 then - EINVAL else if started then - EIO else 0) /\
  (if (arg >? 1) || started then untouched d (snd r)
   else
     config (snd r) = config d /\
     state (snd r) = state d /\
     wr_protect (snd r) = wr_protect d /\
     io_log (snd r)
     = io_log d ++ (if wr_protect d then []
                    else [IoWrite XSDFEC_BYPASS_ADDR (u32 arg)])).
Proof.
  cbv zeta. unfold xsdfec_set_bypass.
  destruct (arg >? 1).
  - rewrite bind_run, dev_err_run. cbn [ret fst snd orb].
    split; [reflexivity |]. repeat split.
  - rewrite bind_run. cbn [get fst snd orb].
    destruct (state_eqb (state d) XSDFEC_STARTED).
    + rewrite bind_run, dev_err_run. cbn [ret fst snd].
      split; [reflexivity |]. repeat split.
    + rewrite !bind_run, regwrite_run. cbn [ret fst snd].
      destruct d as [r l m s c ie wp ic cc uc oc iq wk].
      destruct wp; dev_simpl; rewrite ?app_nil_r; repeat split; reflexivity.
Qed.

Lemma u32_idem (x : Z) : u32 (u32 x) = u32 x.
Proof. apply u32_small, u32_range. Qed.

Lemma land_one_small (x : Z) : 0 <= x <= 1 -> Z.land x 1 = x.
Proof.
  intros H. assert (E : x = 0 \/ x = 1) by lia.
  destruct E as [-> | ->]; reflexivity.
Qed.

Lemma upd_same (r : Z -> Z) (a v : Z) : upd r a v a = v.
Proof. unfold upd. rewrite Z.eqb_refl. reflexivity. Qed.

Lemma upd_other (r : Z -> Z) (a v a' : Z) : a' <> a -> upd r a v a' = r a'.
Proof. intros H. unfold upd. apply Z.eqb_neq in H. rewrite H. reflexivity. Qed.

(** Looks a register up in a store built from updates at known addresses. *)
Ltac upd_simpl :=
  repeat first [ rewrite upd_same
               | rewrite upd_other by (vm_compute; discriminate) ].

Lemma set_order_run_ok (hdr : uapi_header) (o : Z) (d : xsdfec_dev) :
  XSDFEC_INVALID_ORDER hdr < o < XSDFEC_ORDER_MAX hdr ->
  state_eqb (state d) XSDFEC_STARTED = false ->
  wr_protect d = false ->
  xsdfec_set_order hdr o d
  = (0, set_config (set_order o (config d))
          (set_hw (upd (regs d) XSDFEC_ORDER_ADDR (u32 (o - 1)))
                  (io_log d ++ [IoWrite XSDFEC_ORDER_ADDR (u32 (o - 1))]) d)).
Proof.
  intros Ho Hs Hwp. unfold xsdfec_set_order.
  replace (o <=? XSDFEC_INVALID_ORDER hdr) with false
    by (symmetry; apply Z.leb_gt; lia).
  replace (o >=? XSDFEC_ORDER_MAX hdr) with false
    by (symmetry; rewrite Z.geb_leb; apply Z.leb_gt; lia).
  cbn [orb]. rewrite bind_run. cbn [get fst snd]. rewrite Hs.
  rewrite bind_run, regwrite_run, Hwp. cbn [fst snd].
  rewrite bind_run. reflexivity.
Qed.

Lemma start_run_ok (hdr : uapi_header) (d : xsdfec_dev) :
  start_preconditions hdr d = true ->
  wr_protect d = false ->
  xsdfec_start hdr d
  = (0, set_state XSDFEC_STARTED
          (set_wr_protect true
             (set_hw
                (upd (upd (upd (regs d) XSDFEC_AXIS_ENABLE_ADDR
                               XSDFEC_AXIS_ENABLE_MASK)
                          XSDFEC_CODE_WR_PROTECT_ADDR 1)
                     XSDFEC_AXI_WR_PROTECT_ADDR 1)
                (io_log d
                 ++ [IoRead XSDFEC_FEC_CODE_ADDR (u32 (regs d XSDFEC_FEC_CODE_ADDR));
                     IoWrite XSDFEC_AXIS_ENABLE_ADDR XSDFEC_AXIS_ENABLE_MASK;
                     IoWrite XSDFEC_CODE_WR_PROTECT_ADDR 1;
                     IoWrite XSDFEC_AXI_WR_PROTECT_ADDR 1])
                d))).
Proof.
  unfold start_preconditions. intros Hpre Hwp.
  apply andb_prop in Hpre. destruct Hpre as [Hpre Ho].
  apply andb_prop in Hpre. destruct Hpre as [Hc Hm].
  apply negb_true_iff in Hc. apply negb_true_iff in Ho.
  unfold xsdfec_start, xsdfec_wr_protect.
  rewrite bind_run. cbn [get fst snd]. rewrite Hc.
  rewrite bind_run, regread_run. cbn [fst snd]. rewrite Hm, Ho. cbn [negb].
  destruct d as [r l m s c ie wp ic cc uc oc iq wk]. cbn in Hwp. subst wp.
  repeat run_step. rewrite <- !app_assoc. reflexivity.
Qed.

Lemma start_run_no_order (hdr : uapi_header) (d : xsdfec_dev) :
  code_eqb (code (config d)) XSDFEC_CODE_INVALID = false ->
  (Z.land (u32 (regs d XSDFEC_FEC_CODE_ADDR)) 0x1
   =? u32 (code_val hdr (code (config d)) - 1)) = true ->
  order (config d) = XSDFEC_INVALID_ORDER hdr ->
  xsdfec_start hdr d
  = (- EINVAL,
     set_dmesg (dmesg d ++ ["%s : set order before starting SDFEC%d"])
       (set_hw (regs d)
          (io_log d
           ++ [IoRead XSDFEC_FEC_CODE_ADDR (u32 (regs d XSDFEC_FEC_CODE_ADDR))])
          d)).
Proof.
  intros Hc Hm Ho. unfold xsdfec_start.
  rewrite bind_run. cbn [get fst snd]. rewrite Hc.
  rewrite bind_run, regread_run. cbn [fst snd]. rewrite Hm, Ho, Z.eqb_refl.
  cbn [negb]. rewrite bind_run, dev_err_run. reflexivity.
Qed.

(** The bring-up sequence composes: after [xsdfec_set_default_config], a
    [start] is refused with -EINVAL (no order set) and leaves the device
    in INIT; after a [xsdfec_set_order] with a valid order it succeeds,
    and the device is STARTED and write-protected, with the enable bits,
    both protection registers and the order register holding what the
    sequence wrote.  This needs a code family whose number minus one is 0
    or 1, the value the hardware code register is compared with. *)
Theorem default_config_order_start
        (hdr : uapi_header) (o : Z) (d : xsdfec_dev) :
  code (config d) <> XSDFEC_CODE_INVALID ->
  0 <= code_val hdr (code (config d)) - 1 <= 1 ->
  XSDFEC_INVALID_ORDER hdr < o < XSDFEC_ORDER_MAX hdr ->
  let d1 := snd (xsdfec_set_default_config hdr d) in
  let d2 := snd (xsdfec_set_order hdr o d1) in
  let r := xsdfec_start hdr d2 in
  (fst (xsdfec_start hdr d1) = - EINVAL /\
   state (snd (xsdfec_start hdr d1)) = XSDFEC_INIT) /\
  fst (xsdfec_set_order hdr o d1) = 0 /\
  fst r = 0 /\
  state (snd r) = XSDFEC_STARTED /\
  wr_protect (snd r) = true /\
  regs (snd r) XSDFEC_AXIS_ENABLE_ADDR = XSDFEC_AXIS_ENABLE_MASK /\
  regs (snd r) XSDFEC_CODE_WR_PROTECT_ADDR = 1 /\
  regs (snd r) XSDFEC_AXI_WR_PROTECT_ADDR = 1 /\
  regs (snd r) XSDFEC_ORDER_ADDR = u32 (o - 1).
Proof.
  intros Hcode Hval Ho. cbv zeta.
  rewrite set_default_config_run. cbn [snd].
  set (d1 := set_hw _ _ _).
  assert (Ec : code_eqb (code (config d)) XSDFEC_CODE_INVALID = false)
    by (destruct (code (config d)); try reflexivity; contradiction).
  assert (Ev : (Z.land (u32 (u32 (code_val hdr (code (config d)) - 1))) 1
                =? u32 (code_val hdr (code (config d)) - 1)) = true).
  { rewrite u32_idem, u32_small by lia. rewrite land_one_small by lia.
    apply Z.eqb_refl. }
  assert (Hc1 : code_eqb (code (config d1)) XSDFEC_CODE_INVALID = false)
    by exact Ec.
  assert (Hm1 : (Z.land (u32 (regs d1 XSDFEC_FEC_CODE_ADDR)) 0x1
                 =? u32 (code_val hdr (code (config d1)) - 1)) = true).
  { subst d1. dev_simpl. upd_simpl. exact Ev. }
  split.
  - rewrite (start_run_no_order hdr d1 Hc1 Hm1 eq_refl). split; reflexivity.
  - rewrite (set_order_run_ok hdr o d1 Ho eq_refl eq_refl). cbn [fst snd].
    split; [reflexivity |].
    set (d2 := set_config _ _).
    assert (Hpre : start_preconditions hdr d2 = true).
    { unfold start_preconditions. subst d2 d1. dev_simpl. upd_simpl.
      cbn [code order set_order]. rewrite Ec, Ev. cbn [negb andb].
      apply negb_true_iff, Z.eqb_neq. lia. }
    rewrite (start_run_ok hdr d2 Hpre eq_refl). dev_simpl. upd_simpl.
    repeat split; reflexivity.
Qed.

Lemma default_config_order_start_witness :
  let d := sample_dev zero_regs XSDFEC_NEEDS_RESET XSDFEC_LDPC_CODE 2 true in
  let d1 := snd (xsdfec_set_default_config sample_hdr d) in
  let d2 := snd (xsdfec_set_order sample_hdr 1 d1) in
  let r := xsdfec_start sample_hdr d2 in
  fst (xsdfec_start sample_hdr d1) = - EINVAL /\
  fst (xsdfec_set_order sample_hdr 1 d1) = 0 /\
  fst r = 0 /\
  state (snd r) = XSDFEC_STARTED /\
  wr_protect (snd r) = true.
Proof.
  intros d d1 d2 r.
  destruct (default_config_order_start sample_hdr 1 d)
    as [[H1 _] [H2 [H3 [H4 [H5 _]]]]].
  - cbn. discriminate.
  - cbn. lia.
  - cbn. lia.
  - repeat split; assumption.
Defined.

(** ** Fault handler: the four classes of interrupt *)

Lemma log_ecc_errors_view (ecc_err : Z) (d : xsdfec_dev) :
  sw_view (snd (xsdfec_log_ecc_errors ecc_err d))
  = (state d, wr_protect d,
     (isr_err_count d,
      atomic_add (hweight32 (Z.land ecc_err XSDFEC_ECC_ISR_SBE)) (cecc_count d),
      atomic_add (hweight32 (Z.land ecc_err XSDFEC_ECC_ISR_MBE)) (uecc_count d)),
     wakeups d).
Proof.
  unfold xsdfec_log_ecc_errors.
  rewrite bind_run. cbn [get fst snd].
  rewrite bind_run. cbn [modify fst snd].
  rewrite bind_run. cbn [modify fst snd].
  rewrite bind_run, when_log_run. dev_simpl.
  rewrite regwrite_run. dev_simpl.
  destruct (wr_protect d) eqn:E; unfold sw_view; dev_simpl; rewrite ?E; reflexivity.
Qed.

(** The end of the handler: wake the waiters on a fatal error, unmask both
    interrupt classes, return. *)
Lemma irq_tail_view (rv : irqreturn_t) (fatal : bool) (d : xsdfec_dev) :
  let res := (when fatal wake_up_interruptible ;;
              xsdfec_isr_enable true ;;
              xsdfec_ecc_isr_enable true ;;
              ret (rv, fatal)) d in
  fst res = (rv, fatal) /\
  sw_view (snd res)
  = (state d, wr_protect d, (isr_err_count d, cecc_count d, uecc_count d),
     if fatal then S (wakeups d) else wakeups d).
Proof.
  cbv zeta. rewrite bind_run. cbv beta.
  assert (V : sw_view (snd (when fatal wake_up_interruptible d))
              = (state d, wr_protect d,
                 (isr_err_count d, cecc_count d, uecc_count d),
                 if fatal then S (wakeups d) else wakeups d))
    by (destruct fatal; reflexivity).
  generalize dependent (snd (when fatal wake_up_interruptible d)). intros d1 V.
  irq_mask_step (keeps_isr_enable sw_view sw_view_driver_part true)
                (hw_frame_isr_enable true).
  irq_mask_step (keeps_ecc_isr_enable sw_view sw_view_driver_part true)
                (hw_frame_ecc_isr_enable true).
  cbn [ret fst snd]. split; [reflexivity |].
  rewrite K0, K. exact V.
Qed.

(** What the handler does to the software side, for every content of the
    two status registers. *)
Lemma irq_thread_view (d : xsdfec_dev) :
  let ecc := u32 (regs d XSDFEC_ECC_ISR_ADDR) in
  let isr := u32 (regs d XSDFEC_ISR_ADDR) in
  let mbe := nz (Z.land ecc XSDFEC_ECC_ISR_MBE) in
  let ise := nz (Z.land isr XSDFEC_ISR_MASK) in
  let sbe := nz (Z.land ecc XSDFEC_ECC_ISR_SBE) in
  fst (xsdfec_irq_thread d)
  = (if mbe || ise || sbe then IRQ_HANDLED else IRQ_NONE, mbe || ise) /\
  sw_view (snd (xsdfec_irq_thread d))
  = (if mbe || ise then XSDFEC_NEEDS_RESET else state d,
     wr_protect d,
     (if negb mbe && ise then atomic_add (hweight32 isr) (isr_err_count d)
      else isr_err_count d,
      if mbe || (negb ise && sbe)
      then atomic_add (hweight32 (Z.land ecc XSDFEC_ECC_ISR_SBE)) (cecc_count d)
      else cecc_count d,
      if mbe || (negb ise && sbe)
      then atomic_add (hweight32 (Z.land ecc XSDFEC_ECC_ISR_MBE)) (uecc_count d)
      else uecc_count d),
     if mbe || ise then S (wakeups d) else wakeups d).
Proof.
  cbv zeta. unfold xsdfec_irq_thread.
  irq_mask_step (keeps_isr_enable sw_view sw_view_driver_part false)
                (hw_frame_isr_enable false).
  irq_mask_step (keeps_ecc_isr_enable sw_view sw_view_driver_part false)
                (hw_frame_ecc_isr_enable false).
  rewrite bind_run, regread_run. dev_simpl.
  rewrite bind_run, regread_run. dev_simpl.
  rewrite !R0, !R by (cbn; tauto).
  match goal with
  | |- context [set_hw ?rg ?lg (set_hw ?rg' ?lg' x0)] =>
      assert (V4 : sw_view (set_hw rg lg (set_hw rg' lg' x0)) = sw_view d)
        by (rewrite <- K, <- K0; reflexivity);
      generalize dependent (set_hw rg lg (set_hw rg' lg' x0)); intros d4 V4
  end.
  clear K K0 R R0 x x0.
  apply sw_view_eq in V4. destruct V4 as [S4 [W4 [I4 [C4 [U4 K4]]]]].
  rewrite bind_run.
  destruct (nz (Z.land (u32 (regs d XSDFEC_ECC_ISR_ADDR)) XSDFEC_ECC_ISR_MBE)).
  - (* uncorrectable ECC errors *)
    rewrite !(bind_run (xsdfec_log_ecc_errors _)).
    pose proof (log_ecc_errors_view (u32 (regs d XSDFEC_ECC_ISR_ADDR)) d4) as V.
    generalize dependent (snd (xsdfec_log_ecc_errors
                                 (u32 (regs d XSDFEC_ECC_ISR_ADDR)) d4)).
    intros d5 V. apply sw_view_eq in V.
    destruct V as [S5 [W5 [I5 [C5 [U5 K5]]]]].
    unfold xsdfec_reset_required.
    change ((modify (set_state XSDFEC_NEEDS_RESET) ;; ret (IRQ_HANDLED, true)) d5)
      with ((IRQ_HANDLED, true), set_state XSDFEC_NEEDS_RESET d5).
    cbn [fst snd].
    destruct (irq_tail_view IRQ_HANDLED true (set_state XSDFEC_NEEDS_RESET d5))
      as [T1 T2].
    cbv zeta in T1, T2. rewrite T1, T2. dev_simpl. cbn [orb negb andb snd].
    split; [reflexivity |]. congruence.
  - destruct (nz (Z.land (u32 (regs d XSDFEC_ISR_ADDR)) XSDFEC_ISR_MASK)).
    + (* general status errors *)
      rewrite !(bind_run (xsdfec_log_isr_errors _)).
      pose proof (log_isr_errors_view (u32 (regs d XSDFEC_ISR_ADDR)) d4) as V.
      generalize dependent (snd (xsdfec_log_isr_errors
                                   (u32 (regs d XSDFEC_ISR_ADDR)) d4)).
      intros d5 V. apply sw_view_eq in V.
      destruct V as [S5 [W5 [I5 [C5 [U5 K5]]]]].
      unfold xsdfec_reset_required.
      change ((modify (set_state XSDFEC_NEEDS_RESET) ;; ret (IRQ_HANDLED, true)) d5)
        with ((IRQ_HANDLED, true), set_state XSDFEC_NEEDS_RESET d5).
      cbn [fst snd].
      destruct (irq_tail_view IRQ_HANDLED true (set_state XSDFEC_NEEDS_RESET d5))
        as [T1 T2].
      cbv zeta in T1, T2. rewrite T1, T2. dev_simpl. cbn [orb negb andb snd].
      split; [reflexivity |]. congruence.
    + destruct (nz (Z.land (u32 (regs d XSDFEC_ECC_ISR_ADDR)) XSDFEC_ECC_ISR_SBE)).
      * (* correctable ECC errors *)
        rewrite !(bind_run (xsdfec_log_ecc_errors _)).
        pose proof (log_ecc_errors_view (u32 (regs d XSDFEC_ECC_ISR_ADDR)) d4) as V.
        generalize dependent (snd (xsdfec_log_ecc_errors
                                     (u32 (regs d XSDFEC_ECC_ISR_ADDR)) d4)).
        intros d5 V. apply sw_view_eq in V.
        destruct V as [S5 [W5 [I5 [C5 [U5 K5]]]]].
        cbn [ret fst snd].
        destruct (irq_tail_view IRQ_HANDLED false d5) as [T1 T2].
        cbv zeta in T1, T2. rewrite T1, T2. cbn [orb negb andb snd].
        split; [reflexivity |]. congruence.
      * (* not this device's interrupt *)
        cbn [ret fst snd].
        destruct (irq_tail_view IRQ_NONE false d4) as [T1 T2].
        cbv zeta in T1, T2. rewrite T1, T2. cbn [orb negb andb snd].
        split; [reflexivity |]. congruence.
Qed.

Lemma s32_small (x : Z) : - 2 ^ 31 <= x < 2 ^ 31 -> s32 x = x.
Proof.
  intros H. unfold s32. cbv zeta.
  destruct (Z.ltb_spec (x mod 2 ^ 32) (2 ^ 31)) as [Hlt | Hge].
  - destruct (Z.le_gt_cases 0 x) as [Hx | Hx].
    + apply Z.mod_small. lia.
    + replace x with (x + 2 ^ 32 - 1 * 2 ^ 32) in Hlt by lia.
      rewrite Zminus_mod, Z_mod_mult, Z.sub_0_r, Z.mod_mod in Hlt by lia.
      rewrite Z.mod_small in Hlt by lia. lia.
  - destruct (Z.le_gt_cases 0 x) as [Hx | Hx].
    + rewrite Z.mod_small in Hge by lia. lia.
    + replace x with (x + 2 ^ 32 - 1 * 2 ^ 32) at 1 by lia.
      rewrite Zminus_mod, Z_mod_mult, Z.sub_0_r, Z.mod_mod by lia.
      rewrite Z.mod_small by lia. lia.
Qed.

Lemma atomic_add_zero (v : Z) : - 2 ^ 31 <= v < 2 ^ 31 -> atomic_add 0 v = v.
Proof. intros H. unfold atomic_add. rewrite Z.add_0_r. apply s32_small, H. Qed.

(** An interrupt with an uncorrectable-ECC bit set is fatal whatever else
    is pending: the handler adds the number of uncorrectable bits to the
    uncorrectable counter and the number of correctable bits to the
    correctable counter, moves to NEEDS_RESET and wakes the waiters.  The
    general status register is not looked at: its bits are not counted
    in this interrupt. *)
Theorem irq_uncorrectable_is_fatal (d : xsdfec_dev) :
  Z.land (u32 (regs d XSDFEC_ECC_ISR_ADDR)) XSDFEC_ECC_ISR_MBE <> 0 ->
  let r := xsdfec_irq_thread d in
  let ecc := u32 (regs d XSDFEC_ECC_ISR_ADDR) in
  fst r = (IRQ_HANDLED, true) /\
  state (snd r) = XSDFEC_NEEDS_RESET /\
  wakeups (snd r) = S (wakeups d) /\
  uecc_count (snd r)
  = atomic_add (hweight32 (Z.land ecc XSDFEC_ECC_ISR_MBE)) (uecc_count d) /\
  cecc_count (snd r)
  = atomic_add (hweight32 (Z.land ecc XSDFEC_ECC_ISR_SBE)) (cecc_count d) /\
  isr_err_count (snd r) = isr_err_count d /\
  wr_protect (snd r) = wr_protect d.
Proof.
  intros Hmbe. cbv zeta. apply nz_true in Hmbe.
  destruct (irq_thread_view d) as [Hret Hview]. cbv zeta in Hret, Hview.
  rewrite Hmbe in Hret, Hview. cbn [orb negb andb] in Hret, Hview.
  apply sw_view_eq in Hview. destruct Hview as [Hs [Hw [Hi [Hc [Hu Hk]]]]].
  repeat split; assumption.
Qed.

Lemma irq_uncorrectable_is_fatal_witness :
  let d := sample_dev (upd (upd zero_regs XSDFEC_ECC_ISR_ADDR 0x1803) XSDFEC_ISR_ADDR 1)
                      XSDFEC_STOPPED XSDFEC_LDPC_CODE 1 false in
  let r := xsdfec_irq_thread d in
  fst r = (IRQ_HANDLED, true) /\
  state (snd r) = XSDFEC_NEEDS_RESET /\
  wakeups (snd r) = 1%nat /\
  uecc_count (snd r) = 2 /\
  cecc_count (snd r) = 2 /\
  isr_err_count (snd r) = 0 /\
  wr_protect (snd r) = false.
Proof.
  intros d r.
  apply (irq_uncorrectable_is_fatal d).
  vm_compute. discriminate.
Defined.

(** An interrupt with only correctable-ECC bits set is handled without
    escalation: the correctable counter grows by the number of those
    bits, and the state, the other two counters and the wait queue are
    left as they were. *)
Theorem irq_correctable_is_counted (d : xsdfec_dev) :
  Z.land (u32 (regs d XSDFEC_ECC_ISR_ADDR)) XSDFEC_ECC_ISR_MBE = 0 ->
  Z.land (u32 (regs d XSDFEC_ISR_ADDR)) XSDFEC_ISR_MASK = 0 ->
  Z.land (u32 (regs d XSDFEC_ECC_ISR_ADDR)) XSDFEC_ECC_ISR_SBE <> 0 ->
  counters_in_range d ->
  let r := xsdfec_irq_thread d in
  fst r = (IRQ_HANDLED, false) /\
  state (snd r) = state d /\
  wakeups (snd r) = wakeups d /\
  cecc_count (snd r)
  = atomic_add (hweight32 (Z.land (u32 (regs d XSDFEC_ECC_ISR_ADDR))
                                  XSDFEC_ECC_ISR_SBE))
               (cecc_count d) /\
  uecc_count (snd r) = uecc_count d /\
  isr_err_count (snd r) = isr_err_count d.
Proof.
  intros Hmbe Hisr Hsbe [_ [_ Hu]]. cbv zeta.
  destruct (irq_thread_view d) as [Hret Hview]. cbv zeta in Hret, Hview.
  pose proof (proj2 (nz_false _) Hmbe) as Hmbe'.
  apply nz_false in Hisr. apply nz_true in Hsbe.
  rewrite Hmbe', Hisr, Hsbe in Hret. rewrite Hmbe', Hisr, Hsbe in Hview.
  cbn [orb negb andb] in Hret, Hview.
  rewrite Hmbe in Hview.
  change (hweight32 0) with 0 in Hview. rewrite (atomic_add_zero _ Hu) in Hview.
  apply sw_view_eq in Hview. destruct Hview as [Hs [Hw [Hi [Hc [Hu' Hk]]]]].
  repeat split; assumption.
Qed.

Lemma irq_correctable_is_counted_witness :
  let d := sample_dev (upd zero_regs XSDFEC_ECC_ISR_ADDR 0x7)
                      XSDFEC_STARTED XSDFEC_LDPC_CODE 1 true in
  let r := xsdfec_irq_thread d in
  fst r = (IRQ_HANDLED, false) /\
  state (snd r) = XSDFEC_STARTED /\
  wakeups (snd r) = 0%nat /\
  cecc_count (snd r) = 3 /\
  uecc_count (snd r) = 0 /\
  isr_err_count (snd r) = 0.
Proof.
  intros d r.
  apply (irq_correctable_is_counted d).
  - reflexivity.
  - reflexivity.
  - vm_compute. discriminate.
  - unfold counters_in_range. cbn. lia.
Defined.

(** An interrupt that finds no error bit in either status register is not
    claimed (IRQ_NONE) and leaves the state, the write-protect flag, the
    three counters and the wait queue as they were. *)
Theorem irq_without_error_bits_is_not_claimed (d : xsdfec_dev) :
  Z.land (u32 (regs d XSDFEC_ECC_ISR_ADDR)) XSDFEC_ECC_ISR_MASK = 0 ->
  Z.land (u32 (regs d XSDFEC_ISR_ADDR)) XSDFEC_ISR_MASK = 0 ->
  fst (xsdfec_irq_thread d) = (IRQ_NONE, false) /\
  sw_view (snd (xsdfec_irq_thread d)) = sw_view d.
Proof.
  intros Hecc Hisr.
  assert (Hmbe : Z.land (u32 (regs d XSDFEC_ECC_ISR_ADDR)) XSDFEC_ECC_ISR_MBE = 0).
  { change XSDFEC_ECC_ISR_MBE with (Z.land XSDFEC_ECC_ISR_MASK XSDFEC_ECC_ISR_MBE).
    rewrite Z.land_assoc, Hecc. reflexivity. }
  assert (Hsbe : Z.land (u32 (regs d XSDFEC_ECC_ISR_ADDR)) XSDFEC_ECC_ISR_SBE = 0).
  { change XSDFEC_ECC_ISR_SBE with (Z.land XSDFEC_ECC_ISR_MASK XSDFEC_ECC_ISR_SBE).
    rewrite Z.land_assoc, Hecc. reflexivity. }
  destruct (irq_thread_view d) as [Hret Hview]. cbv zeta in Hret, Hview.
  apply nz_false in Hmbe. apply nz_false in Hisr. apply nz_false in Hsbe.
  rewrite Hmbe, Hisr, Hsbe in Hret. rewrite Hmbe, Hisr, Hsbe in Hview.
  cbn [orb negb andb] in Hret, Hview.
  split; assumption.
Qed.

Lemma irq_without_error_bits_is_not_claimed_witness :
  let d := sample_dev (upd zero_regs XSDFEC_ISR_ADDR 0x40)
                      XSDFEC_STARTED XSDFEC_LDPC_CODE 1 true in
  fst (xsdfec_irq_thread d) = (IRQ_NONE, false) /\
  sw_view (snd (xsdfec_irq_thread d)) = sw_view d.
Proof.
  intros d.
  apply (irq_without_error_bits_is_not_claimed d); reflexivity.
Defined.

(** ** Relational frames: what a run may change *)

Section Respects.

Variable R : xsdfec_dev -> xsdfec_dev -> Prop.
Hypothesis Rrefl : forall d, R d d.
Hypothesis Rtrans : forall d1 d2 d3, R d1 d2 -> R d2 d3 -> R d1 d3.

Lemma respects_ret {A : Type} (a : A) : respects R (ret a).
Proof. intros d. apply Rrefl. Qed.

Lemma respects_get : respects R get.
Proof. intros d. apply Rrefl. Qed.

Lemma respects_bind {A C : Type} (m : M A) (f : A -> M C) :
  respects R m -> (forall a, respects R (f a)) -> respects R (bind m f).
Proof.
  intros Hm Hf d. rewrite bind_run.
  apply (Rtrans _ (snd (m d))); [apply Hm | apply Hf].
Qed.

Lemma respects_if {A : Type} (b : bool) (m1 m2 : M A) :
  respects R m1 -> respects R m2 -> respects R (if b then m1 else m2).
Proof. destruct b; auto. Qed.

Lemma respects_when (b : bool) (m : M unit) :
  respects R m -> respects R (when b m).
Proof. intros Hm. destruct b; [exact Hm | apply respects_ret]. Qed.

Lemma respects_for_reg {A : Type} (body : Z -> A -> M A) (cnt : nat) :
  (forall reg acc, respects R (body reg acc)) ->
  forall reg acc, respects R (for_reg cnt reg body acc).
Proof.
  intros Hbody. induction cnt as [| cnt IH]; intros reg acc; cbn [for_reg].
  - apply respects_ret.
  - apply respects_bind; [apply Hbody | intros a; apply IH].
Qed.

Hypothesis Rmsg : forall m d, R d (set_dmesg m d).

Lemma respects_dev_err (msg : string) : respects R (dev_err msg).
Proof. intros d. rewrite dev_err_run. apply Rmsg. Qed.

End Respects.

(** Splits a sequence of steps into its steps; [refl], [trans] and [msg]
    are the three properties of the relation. *)
Ltac respects_steps refl trans msg :=
  repeat match goal with
         | |- respects _ (bind _ _) => apply (respects_bind _ trans); [ | intros ? ]
         | |- respects _ (if _ then _ else _) => apply respects_if
         | |- respects _ (when _ _) => apply (respects_when _ refl)
         | |- respects _ (for_reg _ _ _ _) =>
             apply (respects_for_reg _ refl trans); intros ? ?
         | |- respects _ (let (_, _) := ?r in _) => destruct r
         | |- respects _ (ret _) => apply (respects_ret _ refl)
         | |- respects _ get => apply (respects_get _ refl)
         | |- respects _ (dev_err _) => apply (respects_dev_err _ msg)
         end.

(** *** No register written *)

Lemma reads_only_refl (d : xsdfec_dev) : reads_only d d.
Proof.
  split; [reflexivity |]. exists []. rewrite app_nil_r. split; reflexivity.
Qed.

Lemma reads_only_trans (d1 d2 d3 : xsdfec_dev) :
  reads_only d1 d2 -> reads_only d2 d3 -> reads_only d1 d3.
Proof.
  intros [Hr1 [l1 [Hl1 Hw1]]] [Hr2 [l2 [Hl2 Hw2]]].
  split; [congruence |]. exists (l1 ++ l2).
  rewrite Hl2, Hl1, app_assoc. split; [reflexivity |].
  unfold read_only in *. rewrite written_app, Hw1, Hw2. reflexivity.
Qed.

Lemma reads_only_msg (m : list string) (d : xsdfec_dev) : reads_only d (set_dmesg m d).
Proof. apply (reads_only_refl d). Qed.

Lemma reads_only_regread (addr : Z) : respects reads_only (xsdfec_regread addr).
Proof.
  intros d. rewrite regread_run. cbn [snd]. split; [reflexivity |].
  eexists. split; reflexivity.
Qed.

Lemma reads_only_modify (f : xsdfec_dev -> xsdfec_dev) :
  (forall d, regs (f d) = regs d /\ io_log (f d) = io_log d) ->
  respects reads_only (modify f).
Proof.
  intros Hf d. cbn [modify snd]. destruct (Hf d) as [Hr Hl].
  split; [exact Hr |]. exists []. rewrite app_nil_r. split; [exact Hl | reflexivity].
Qed.

Ltac reads_only_steps :=
  respects_steps reads_only_refl reads_only_trans reads_only_msg;
  try match goal with
      | |- respects _ (xsdfec_regread _) => apply reads_only_regread
      | |- respects _ (modify _) =>
          apply reads_only_modify; intros ?; split; reflexivity
      end.

(** *** A protected device stays as it is *)

Lemma stays_protected_refl (d : xsdfec_dev) : stays_protected d d.
Proof. intros H. split; [exact H | apply reads_only_refl]. Qed.

Lemma stays_protected_trans (d1 d2 d3 : xsdfec_dev) :
  stays_protected d1 d2 -> stays_protected d2 d3 -> stays_protected d1 d3.
Proof.
  intros H12 H23 H1. destruct (H12 H1) as [H2 Hr12].
  destruct (H23 H2) as [H3 Hr23].
  split; [exact H3 | apply (reads_only_trans _ _ _ Hr12 Hr23)].
Qed.

Lemma stays_protected_msg (m : list string) (d : xsdfec_dev) :
  stays_protected d (set_dmesg m d).
Proof. apply (stays_protected_refl d). Qed.

Lemma stays_protected_regread (addr : Z) :
  respects stays_protected (xsdfec_regread addr).
Proof.
  intros d H. split; [rewrite regread_run; exact H | apply reads_only_regread].
Qed.

Lemma stays_protected_regwrite (addr value : Z) :
  respects stays_protected (xsdfec_regwrite addr value).
Proof.
  intros d H. rewrite regwrite_run, H. cbn [snd].
  apply (stays_protected_msg _ d H).
Qed.

Lemma stays_protected_modify (f : xsdfec_dev -> xsdfec_dev) :
  (forall d, wr_protect (f d) = wr_protect d /\
             regs (f d) = regs d /\ io_log (f d) = io_log d) ->
  respects stays_protected (modify f).
Proof.
  intros Hf d H. destruct (Hf d) as [Hw Hrl].
  split; [cbn [modify snd]; congruence |].
  apply reads_only_modify. intros d0. apply Hf.
Qed.

Ltac stays_protected_steps :=
  respects_steps stays_protected_refl stays_protected_trans stays_protected_msg;
  try match goal with
      | |- respects _ (xsdfec_regread _) => apply stays_protected_regread
      | |- respects _ (xsdfec_regwrite _ _) => apply stays_protected_regwrite
      | |- respects _ (modify _) =>
          apply stays_protected_modify; intros ?; repeat split; reflexivity
      end.

(** *** The write-protect flag is not raised *)

Lemma protection_not_raised_refl (d : xsdfec_dev) : protection_not_raised d d.
Proof. split; [reflexivity | auto]. Qed.

Lemma protection_not_raised_trans (d1 d2 d3 : xsdfec_dev) :
  protection_not_raised d1 d2 -> protection_not_raised d2 d3 ->
  protection_not_raised d1 d3.
Proof.
  intros [Hs1 Hw1] [Hs2 Hw2]. split; [congruence | auto].
Qed.

Lemma protection_not_raised_msg (m : list string) (d : xsdfec_dev) :
  protection_not_raised d (set_dmesg m d).
Proof. apply (protection_not_raised_refl d). Qed.

Lemma protection_not_raised_regread (addr : Z) :
  respects protection_not_raised (xsdfec_regread addr).
Proof. intros d. rewrite regread_run. apply (protection_not_raised_refl d). Qed.

Lemma protection_not_raised_regwrite (addr value : Z) :
  respects protection_not_raised (xsdfec_regwrite addr value).
Proof.
  intros d. rewrite regwrite_run. destruct (wr_protect d) eqn:E; cbn [snd].
  - apply (protection_not_raised_msg _ d).
  - split; [reflexivity | intros _; exact E].
Qed.

Lemma protection_not_raised_modify (f : xsdfec_dev -> xsdfec_dev) :
  (forall d, state (f d) = state d /\
             (wr_protect (f d) = wr_protect d \/ wr_protect (f d) = false)) ->
  respects protection_not_raised (modify f).
Proof.
  intros Hf d. cbn [modify snd]. destruct (Hf d) as [Hs [Hw | Hw]].
  - split; [exact Hs | congruence].
  - split; [exact Hs | intros _; exact Hw].
Qed.

Ltac protection_not_raised_steps :=
  respects_steps protection_not_raised_refl protection_not_raised_trans
                 protection_not_raised_msg;
  try match goal with
      | |- respects _ (xsdfec_regread _) => apply protection_not_raised_regread
      | |- respects _ (xsdfec_regwrite _ _) => apply protection_not_raised_regwrite
      | |- respects _ (modify _) =>
          apply protection_not_raised_modify; intros ?;
          split; [reflexivity | first [left; reflexivity | right; reflexivity]]
      end.

(** ** Interrupt paths on a write-protected device *)

Create HintDb respects.

Lemma stays_protected_isr_enable (enable : bool) :
  respects stays_protected (xsdfec_isr_enable enable).
Proof. unfold xsdfec_isr_enable. stays_protected_steps. Qed.

Lemma stays_protected_ecc_isr_enable (enable : bool) :
  respects stays_protected (xsdfec_ecc_isr_enable enable).
Proof. unfold xsdfec_ecc_isr_enable. stays_protected_steps. Qed.

Lemma stays_protected_log_ecc_errors (ecc_err : Z) :
  respects stays_protected (xsdfec_log_ecc_errors ecc_err).
Proof. unfold xsdfec_log_ecc_errors. cbv zeta. stays_protected_steps. Qed.

Lemma stays_protected_log_isr_errors (isr_err : Z) :
  respects stays_protected (xsdfec_log_isr_errors isr_err).
Proof. unfold xsdfec_log_isr_errors. cbv zeta. stays_protected_steps. Qed.

#[export] Hint Resolve stays_protected_isr_enable stays_protected_ecc_isr_enable
  stays_protected_log_ecc_errors stays_protected_log_isr_errors : respects.

Lemma stays_protected_irq_thread : respects stays_protected xsdfec_irq_thread.
Proof.
  unfold xsdfec_irq_thread, xsdfec_reset_required, wake_up_interruptible.
  stays_protected_steps; auto with respects.
Qed.

Lemma stays_protected_set_irq (ua : uaccess) (arg : xsdfec_irq) :
  respects stays_protected (xsdfec_set_irq ua arg).
Proof.
  unfold xsdfec_set_irq. cbv zeta. stays_protected_steps; auto with respects.
Qed.

(** On a write-protected device the interrupt paths write no register:
    the threaded handler cannot mask, unmask or clear anything, and the
    command that enables interrupts cannot enable them.  Both leave the
    registers as they found them, add only reads to the access log, and
    leave the flag set. *)
Theorem interrupt_paths_inert_when_protected
        (ua : uaccess) (arg : xsdfec_irq) (d : xsdfec_dev) :
  wr_protect d = true ->
  (wr_protect (snd (xsdfec_irq_thread d)) = true /\
   reads_only d (snd (xsdfec_irq_thread d))) /\
  (wr_protect (snd (xsdfec_set_irq ua arg d)) = true /\
   reads_only d (snd (xsdfec_set_irq ua arg d))).
Proof.
  intros H. split.
  - apply (stays_protected_irq_thread d H).
  - apply (stays_protected_set_irq ua arg d H).
Qed.

Lemma interrupt_paths_inert_when_protected_witness :
  let d := sample_dev (upd zero_regs XSDFEC_ECC_ISR_ADDR 0x1803)
                      XSDFEC_STARTED XSDFEC_LDPC_CODE 1 true in
  (wr_protect (snd (xsdfec_irq_thread d)) = true /\
   reads_only d (snd (xsdfec_irq_thread d))) /\
  (wr_protect (snd (xsdfec_set_irq ua_ok (mk_irq true true) d)) = true /\
   reads_only d (snd (xsdfec_set_irq ua_ok (mk_irq true true) d))).
Proof.
  intros d.
  apply (interrupt_paths_inert_when_protected ua_ok (mk_irq true true) d).
  reflexivity.
Defined.

(** ** Commands that only look *)

Lemma reads_only_collect_ldpc_reg0 (code_id : Z) (p : xsdfec_ldpc_params) :
  respects reads_only (xsdfec_collect_ldpc_reg0 code_id p).
Proof. unfold xsdfec_collect_ldpc_reg0. cbv zeta. reads_only_steps. Qed.

Lemma reads_only_collect_ldpc_reg1 (code_id : Z) (p : xsdfec_ldpc_params) :
  respects reads_only (xsdfec_collect_ldpc_reg1 code_id p).
Proof. unfold xsdfec_collect_ldpc_reg1. cbv zeta. reads_only_steps. Qed.

Lemma reads_only_collect_ldpc_reg2 (code_id : Z) (p : xsdfec_ldpc_params) :
  respects reads_only (xsdfec_collect_ldpc_reg2 code_id p).
Proof. unfold xsdfec_collect_ldpc_reg2. cbv zeta. reads_only_steps. Qed.

Lemma reads_only_collect_ldpc_reg3 (code_id : Z) (p : xsdfec_ldpc_params) :
  respects reads_only (xsdfec_collect_ldpc_reg3 code_id p).
Proof. unfold xsdfec_collect_ldpc_reg3. cbv zeta. reads_only_steps. Qed.

#[export] Hint Resolve reads_only_collect_ldpc_reg0 reads_only_collect_ldpc_reg1
  reads_only_collect_ldpc_reg2 reads_only_collect_ldpc_reg3 : respects.

Section ReadsOnly.

Variable hdr : uapi_header.

Lemma reads_only_collect_sc_table (offset : Z) (ptr : Z -> Z) (len : Z) :
  respects reads_only (xsdfec_collect_sc_table hdr offset ptr len).
Proof. unfold xsdfec_collect_sc_table. cbv zeta. reads_only_steps. Qed.

Lemma reads_only_collect_la_table (offset : Z) (ptr : Z -> Z) (len : Z) :
  respects reads_only (xsdfec_collect_la_table hdr offset ptr len).
Proof. unfold xsdfec_collect_la_table. cbv zeta. reads_only_steps. Qed.

Lemma reads_only_collect_qc_table (offset : Z) (ptr : Z -> Z) (len : Z) :
  respects reads_only (xsdfec_collect_qc_table hdr offset ptr len).
Proof. unfold xsdfec_collect_qc_table. cbv zeta. reads_only_steps. Qed.

Lemma reads_only_get_ldpc_code_params (ua : uaccess) (arg : xsdfec_ldpc_params) :
  respects reads_only (xsdfec_get_ldpc_code_params hdr ua arg).
Proof.
  unfold xsdfec_get_ldpc_code_params. cbv zeta.
  reads_only_steps;
    auto using reads_only_collect_sc_table, reads_only_collect_la_table,
      reads_only_collect_qc_table with respects.
Qed.

End ReadsOnly.

(** The commands that report (status, configuration, statistics,
    activity, Turbo parameters, LDPC code parameters), the command that
    clears the statistics, and open, release and poll never write a
    register: whatever the device and the arguments, the registers keep
    their contents and the accesses added to the log are reads. *)
Theorem reporting_paths_write_no_register
        (hdr : uapi_header) (ua : uaccess) (arg : xsdfec_ldpc_params) :
  writes_nothing (xsdfec_get_status ua) /\
  writes_nothing (xsdfec_get_config ua) /\
  writes_nothing (xsdfec_get_stats ua) /\
  writes_nothing xsdfec_clear_stats /\
  writes_nothing xsdfec_is_active /\
  writes_nothing (xsdfec_get_turbo ua) /\
  writes_nothing (xsdfec_get_ldpc_code_params hdr ua arg) /\
  writes_nothing xsdfec_dev_open /\
  writes_nothing xsdfec_dev_release /\
  writes_nothing xsdfec_poll.
Proof.
  unfold writes_nothing.
  repeat match goal with |- _ /\ _ => split end;
    try apply reads_only_get_ldpc_code_params;
    unfold xsdfec_get_status, xsdfec_get_config, xsdfec_get_stats,
      xsdfec_clear_stats, xsdfec_is_active, xsdfec_get_turbo,
      xsdfec_dev_open, xsdfec_dev_release, xsdfec_poll;
    cbv zeta; reads_only_steps.
Qed.

(** ** The write-protect flag over the life of a device *)

Lemma protection_not_raised_unprotect :
  respects protection_not_raised (xsdfec_wr_protect false).
Proof. unfold xsdfec_wr_protect. protection_not_raised_steps. Qed.

Lemma protection_not_raised_isr_enable (enable : bool) :
  respects protection_not_raised (xsdfec_isr_enable enable).
Proof. unfold xsdfec_isr_enable. protection_not_raised_steps. Qed.

Lemma protection_not_raised_ecc_isr_enable (enable : bool) :
  respects protection_not_raised (xsdfec_ecc_isr_enable enable).
Proof. unfold xsdfec_ecc_isr_enable. protection_not_raised_steps. Qed.

Lemma protection_not_raised_reg0_write (n k offset : Z) :
  respects protection_not_raised (xsdfec_reg0_write n k offset).
Proof. unfold xsdfec_reg0_write. cbv zeta. protection_not_raised_steps. Qed.

Lemma protection_not_raised_reg1_write (psize no_packing nm offset : Z) :
  respects protection_not_raised (xsdfec_reg1_write psize no_packing nm offset).
Proof. unfold xsdfec_reg1_write. cbv zeta. protection_not_raised_steps. Qed.

Lemma protection_not_raised_reg2_write (a b c e f g offset : Z) :
  respects protection_not_raised (xsdfec_reg2_write a b c e f g offset).
Proof. unfold xsdfec_reg2_write. cbv zeta. protection_not_raised_steps. Qed.

Lemma protection_not_raised_reg3_write (sc la qc offset : Z) :
  respects protection_not_raised (xsdfec_reg3_write sc la qc offset).
Proof. unfold xsdfec_reg3_write. cbv zeta. protection_not_raised_steps. Qed.

#[export] Hint Resolve protection_not_raised_unprotect
  protection_not_raised_isr_enable protection_not_raised_ecc_isr_enable
  protection_not_raised_reg0_write protection_not_raised_reg1_write
  protection_not_raised_reg2_write protection_not_raised_reg3_write : respects.

Section Protection.

Variable hdr : uapi_header.

Lemma protection_not_raised_sc_table_write (offset : Z) (ptr : Z -> Z) (len : Z) :
  respects protection_not_raised (xsdfec_sc_table_write hdr offset ptr len).
Proof. unfold xsdfec_sc_table_write. protection_not_raised_steps. Qed.

Lemma protection_not_raised_la_table_write (offset : Z) (ptr : Z -> Z) (len : Z) :
  respects protection_not_raised (xsdfec_la_table_write hdr offset ptr len).
Proof. unfold xsdfec_la_table_write. protection_not_raised_steps. Qed.

Lemma protection_not_raised_qc_table_write (offset : Z) (ptr : Z -> Z) (len : Z) :
  respects protection_not_raised (xsdfec_qc_table_write hdr offset ptr len).
Proof. unfold xsdfec_qc_table_write. protection_not_raised_steps. Qed.

Lemma protection_not_raised_add_ldpc (ua : uaccess) (arg : xsdfec_ldpc_params) :
  respects protection_not_raised (xsdfec_add_ldpc hdr ua arg).
Proof.
  unfold xsdfec_add_ldpc. cbv zeta. protection_not_raised_steps;
    auto using protection_not_raised_sc_table_write,
      protection_not_raised_la_table_write,
      protection_not_raised_qc_table_write with respects.
Qed.

Lemma protection_not_raised_get_ldpc_code_params
      (ua : uaccess) (arg : xsdfec_ldpc_params) :
  respects protection_not_raised (xsdfec_get_ldpc_code_params hdr ua arg).
Proof.
  unfold xsdfec_get_ldpc_code_params, xsdfec_collect_ldpc_reg0,
    xsdfec_collect_ldpc_reg1, xsdfec_collect_ldpc_reg2, xsdfec_collect_ldpc_reg3,
    xsdfec_collect_sc_table, xsdfec_collect_la_table, xsdfec_collect_qc_table.
  cbv zeta. protection_not_raised_steps.
Qed.

Lemma protection_not_raised_set_turbo (ua : uaccess) (arg : xsdfec_turbo) :
  respects protection_not_raised (xsdfec_set_turbo ua arg).
Proof.
  unfold xsdfec_set_turbo. cbv zeta. protection_not_raised_steps;
    auto with respects.
Qed.

Lemma protection_not_raised_set_irq (ua : uaccess) (arg : xsdfec_irq) :
  respects protection_not_raised (xsdfec_set_irq ua arg).
Proof.
  unfold xsdfec_set_irq. cbv zeta. protection_not_raised_steps;
    auto with respects.
Qed.

Lemma protection_not_raised_set_order (arg : Z) :
  respects protection_not_raised (xsdfec_set_order hdr arg).
Proof. unfold xsdfec_set_order. cbv zeta. protection_not_raised_steps. Qed.

Lemma protection_not_raised_set_bypass (arg : Z) :
  respects protection_not_raised (xsdfec_set_bypass arg).
Proof. unfold xsdfec_set_bypass. cbv zeta. protection_not_raised_steps. Qed.

Lemma protection_not_raised_reporting (ua : uaccess) :
  respects protection_not_raised (xsdfec_get_status ua) /\
  respects protection_not_raised (xsdfec_get_config ua) /\
  respects protection_not_raised (xsdfec_get_stats ua) /\
  respects protection_not_raised xsdfec_clear_stats /\
  respects protection_not_raised xsdfec_is_active /\
  respects protection_not_raised (xsdfec_get_turbo ua).
Proof.
  repeat match goal with |- _ /\ _ => split end;
    unfold xsdfec_get_status, xsdfec_get_config, xsdfec_get_stats,
      xsdfec_clear_stats, xsdfec_is_active, xsdfec_get_turbo;
    cbv zeta; protection_not_raised_steps.
Qed.

(** The two commands that change the state to an idle one leave the
    device unprotected. *)
Lemma stop_unprotects (d : xsdfec_dev) : wr_protect (snd (xsdfec_stop d)) = false.
Proof.
  unfold xsdfec_stop, xsdfec_wr_protect.
  rewrite bind_run. cbn [get fst snd].
  rewrite bind_run, when_log_run. dev_simpl.
  destruct d as [r l m s c ie wp ic cc uc oc iq wk]. reflexivity.
Qed.

Lemma set_default_config_unprotects (d : xsdfec_dev) :
  wr_protect (snd (xsdfec_set_default_config hdr d)) = false.
Proof. rewrite set_default_config_run. reflexivity. Qed.

(** [xsdfec_start] either refuses and keeps the state and the flag, or
    leaves the device started. *)
Lemma start_state_or_refused (d : xsdfec_dev) :
  let d' := snd (xsdfec_start hdr d) in
  (state d' = state d /\ wr_protect d' = wr_protect d) \/
  state d' = XSDFEC_STARTED.
Proof.
  cbv zeta. unfold xsdfec_start.
  rewrite bind_run. cbn [get fst snd].
  destruct (code_eqb _ _); [left; split; reflexivity |].
  rewrite bind_run, regread_run. cbn [fst snd].
  destruct (negb _); [left; split; reflexivity |].
  destruct (_ =? _); [left; split; reflexivity |].
  right.
  repeat (rewrite bind_run; cbv beta).
  reflexivity.
Qed.

End Protection.

Lemma bind_ret_snd {A B : Type} (m : M A) (g : A -> B) (d : xsdfec_dev) :
  snd (bind m (fun a => ret (g a)) d) = snd (m d).
Proof. reflexivity. Qed.

(** What one control call does to the state and the flag: it keeps the
    state without raising the flag, or leaves the flag clear, or is a
    start command that leaves the device started. *)
Lemma ioctl_protection (hdr : uapi_header) (cmd : Z) (a : ioctl_arg) (d : xsdfec_dev) :
  let d' := snd (xsdfec_dev_ioctl hdr cmd a d) in
  protection_not_raised d d' \/
  wr_protect d' = false \/
  (cmd = XSDFEC_START_DEV hdr /\ state d' = XSDFEC_STARTED).
Proof.
  cbv zeta. unfold xsdfec_dev_ioctl. cbv zeta.
  rewrite bind_run. cbn [get fst snd].
  pose proof (protection_not_raised_reporting (user a))
    as [Hstatus [Hconfig [Hstats [Hclear [Hactive Hturbo]]]]].
  repeat match goal with
         | |- context [snd ((if ?c then _ else _) d)] =>
             lazymatch c with
             | (cmd =? _) => fail
             | _ => destruct c; [left; apply (protection_not_raised_msg _ d) |]
             end
         end.
  destruct (Z.eqb_spec cmd (XSDFEC_START_DEV hdr)) as [Hstart | _].
  { rewrite (bind_ret_snd (xsdfec_start hdr) (fun rval => (rval, OutNothing))).
    destruct (start_state_or_refused hdr d) as [[Hs Hw] | Hs].
    - left. split; [exact Hs | congruence].
    - right. right. split; assumption. }
  destruct (cmd =? _).
  { right. left.
    rewrite (bind_ret_snd xsdfec_stop (fun rval => (rval, OutNothing))).
    apply stop_unprotects. }
  destruct (cmd =? _).
  { left. rewrite (bind_ret_snd xsdfec_clear_stats (fun rval => (rval, OutNothing))).
    apply Hclear. }
  destruct (cmd =? _).
  { left. rewrite (bind_ret_snd (xsdfec_get_stats (user a)) (out_of OutStats)).
    apply Hstats. }
  destruct (cmd =? _).
  { left. rewrite (bind_ret_snd (xsdfec_get_status (user a)) (out_of OutStatus)).
    apply Hstatus. }
  destruct (cmd =? _).
  { left. rewrite (bind_ret_snd (xsdfec_get_config (user a)) (out_of OutConfig)).
    apply Hconfig. }
  destruct (cmd =? _).
  { right. left.
    rewrite (bind_ret_snd (xsdfec_set_default_config hdr)
                          (fun rval => (rval, OutNothing))).
    apply set_default_config_unprotects. }
  destruct (cmd =? _).
  { left. rewrite (bind_ret_snd (xsdfec_set_irq (user a) (as_irq a))
                                (fun rval => (rval, OutNothing))).
    apply protection_not_raised_set_irq. }
  destruct (cmd =? _).
  { left. rewrite (bind_ret_snd (xsdfec_set_turbo (user a) (as_turbo a))
                                (fun rval => (rval, OutNothing))).
    apply protection_not_raised_set_turbo. }
  destruct (cmd =? _).
  { left. rewrite (bind_ret_snd (xsdfec_get_turbo (user a)) (out_of OutTurbo)).
    apply Hturbo. }
  destruct (cmd =? _).
  { left. rewrite (bind_ret_snd (xsdfec_add_ldpc hdr (user a) (as_ldpc a))
                                (fun rval => (rval, OutNothing))).
    apply protection_not_raised_add_ldpc. }
  destruct (cmd =? _).
  { left. rewrite (bind_ret_snd (xsdfec_get_ldpc_code_params hdr (user a) (as_ldpc a))
                                (out_of OutLdpc)).
    apply protection_not_raised_get_ldpc_code_params. }
  destruct (cmd =? _).
  { left. rewrite (bind_ret_snd (xsdfec_set_order hdr (as_order a))
                                (fun rval => (rval, OutNothing))).
    apply protection_not_raised_set_order. }
  destruct (cmd =? _).
  { left. rewrite (bind_ret_snd (xsdfec_set_bypass (as_bypass a))
                                (fun rval => (rval, OutNothing))).
    apply protection_not_raised_set_bypass. }
  destruct (cmd =? _).
  { left. rewrite (bind_ret_snd xsdfec_is_active (out_of OutActive)).
    apply Hactive. }
  left. apply (protection_not_raised_msg _ d).
Qed.

(** An idle device is never left write-protected.  The default
    configuration establishes this (the state is INIT and the flag is
    clear), and every control call and every run of the interrupt handler
    preserves it: whenever the state is INIT or STOPPED, register writes
    go through. *)
Theorem idle_device_is_never_protected
        (hdr : uapi_header) (cmd : Z) (a : ioctl_arg) (d : xsdfec_dev) :
  unprotected_when_idle (snd (xsdfec_set_default_config hdr d)) /\
  (unprotected_when_idle d ->
   unprotected_when_idle (snd (xsdfec_dev_ioctl hdr cmd a d)) /\
   unprotected_when_idle (snd (xsdfec_irq_thread d))).
Proof.
  split; [intros _; apply set_default_config_unprotects |].
  intros Hinv. split.
  - destruct (ioctl_protection hdr cmd a d) as [[Hs Hw] | [Hw | [_ Hs]]];
      intros Hidle.
    + rewrite Hs in Hidle. apply Hw, Hinv, Hidle.
    + exact Hw.
    + rewrite Hs in Hidle. destruct Hidle; discriminate.
  - destruct (irq_thread_view d) as [_ Hview]. cbv zeta in Hview.
    apply sw_view_eq in Hview. destruct Hview as [Hs [Hw _]].
    intros Hidle. rewrite Hw. apply Hinv.
    rewrite Hs in Hidle. destruct (_ || _); [destruct Hidle; discriminate | exact Hidle].
Qed.

Lemma idle_device_is_never_protected_witness :
  let d := sample_dev zero_regs XSDFEC_STOPPED XSDFEC_LDPC_CODE 1 false in
  let a := mk_ioctl_arg 0 (fun _ => true) ua_ok (mk_irq true true)
                        (mk_turbo 0 0) sample_ldpc 1 0 in
  unprotected_when_idle (snd (xsdfec_set_default_config sample_hdr d)) /\
  (unprotected_when_idle (snd (xsdfec_dev_ioctl sample_hdr
                                 (XSDFEC_START_DEV sample_hdr) a d)) /\
   unprotected_when_idle (snd (xsdfec_irq_thread d))).
Proof.
  intros d a.
  destruct (idle_device_is_never_protected
              sample_hdr (XSDFEC_START_DEV sample_hdr) a d) as [Hinit Hstep].
  split; [exact Hinit | apply Hstep].
  intros _. reflexivity.
Defined.

(** Only the start command raises the write-protect flag: any other
    control call on an unprotected device leaves it unprotected, whatever
    its arguments and outcome. *)
Theorem only_start_raises_protection
        (hdr : uapi_header) (cmd : Z) (a : ioctl_arg) (d : xsdfec_dev) :
  cmd <> XSDFEC_START_DEV hdr ->
  wr_protect d = false ->
  wr_protect (snd (xsdfec_dev_ioctl hdr cmd a d)) = false.
Proof.
  intros Hcmd Hwp.
  destruct (ioctl_protection hdr cmd a d) as [[_ Hw] | [Hw | [Hs _]]].
  - apply Hw, Hwp.
  - exact Hw.
  - contradiction.
Qed.

Lemma only_start_raises_protection_witness :
  let d := sample_dev zero_regs XSDFEC_STOPPED XSDFEC_LDPC_CODE 1 false in
  let a := mk_ioctl_arg 1 (fun _ => true) ua_ok (mk_irq true true)
                        (mk_turbo 0 0) sample_ldpc 1 0 in
  wr_protect (snd (xsdfec_dev_ioctl sample_hdr
                     (XSDFEC_ADD_LDPC_CODE_PARAMS sample_hdr) a d)) = false.
Proof.
  intros d a.
  apply (only_start_raises_protection sample_hdr).
  - vm_compute. discriminate.
  - reflexivity.
Defined.

(** ** Control dispatch: what is refused before any handler runs *)

Lemma state_eqb_false (s t : xsdfec_state) : s <> t -> state_eqb s t = false.
Proof. destruct s, t; intros H; try reflexivity; contradiction H; reflexivity. Qed.

Lemma rejected_by_message (code : Z) (msg : string) (d : xsdfec_dev) :
  rejected code msg d ((dev_err msg ;; ret (code, OutNothing)) d).
Proof.
  rewrite bind_run, dev_err_run. cbn [ret fst snd].
  unfold rejected, untouched. cbn. repeat split; reflexivity.
Qed.

(** On a device that does not need a reset, a control call is refused
    before any handler runs, with the device left as it was up to one
    logged message, in each of these cases, tested in this order: the
    command is not of the driver's type (-ENOTTY); the command carries
    data and the argument is null (-EINVAL); the command reads and the
    user memory is not writable, or the command only writes and the user
    memory is not readable (-EFAULT).  A command of the driver's type that
    carries no data and is none of the fifteen known ones is refused with
    -EINVAL in the same way. *)
Theorem ioctl_refused_before_dispatch
        (hdr : uapi_header) (cmd : Z) (a : ioctl_arg) (d : xsdfec_dev) :
  state d <> XSDFEC_NEEDS_RESET ->
  let r := xsdfec_dev_ioctl hdr cmd a d in
  (_IOC_TYPE cmd <> XSDFEC_MAGIC hdr ->
   rejected (- ENOTTY) "Not a xilinx sdfec ioctl" d r) /\
  (_IOC_TYPE cmd = XSDFEC_MAGIC hdr -> _IOC_DIR cmd <> _IOC_NONE -> data a = 0 ->
   rejected (- EINVAL) "xilinx sdfec ioctl argument is NULL Pointer" d r) /\
  (_IOC_TYPE cmd = XSDFEC_MAGIC hdr -> data a <> 0 ->
   Z.land (_IOC_DIR cmd) _IOC_READ <> 0 -> access_ok a VERIFY_WRITE = false ->
   rejected (- EFAULT) "Invalid xilinx sdfec ioctl argument" d r) /\
  (_IOC_TYPE cmd = XSDFEC_MAGIC hdr -> data a <> 0 ->
   Z.land (_IOC_DIR cmd) _IOC_READ = 0 -> Z.land (_IOC_DIR cmd) _IOC_WRITE <> 0 ->
   access_ok a VERIFY_READ = false ->
   rejected (- EFAULT) "Invalid xilinx sdfec ioctl argument" d r) /\
  (_IOC_TYPE cmd = XSDFEC_MAGIC hdr -> _IOC_DIR cmd = _IOC_NONE ->
   ~ In cmd (ioctl_cases hdr) ->
   rejected (- EINVAL) "Undefined SDFEC IOCTL" d r).
Proof.
  intros Hstate. cbv zeta. unfold xsdfec_dev_ioctl. cbv zeta.
  rewrite bind_run. cbn [get fst snd].
  rewrite (state_eqb_false _ _ Hstate). cbn [andb].
  repeat match goal with |- _ /\ _ => split end.
  - intros Htype. rewrite (eqb_false_of_neq _ _ Htype). cbn [negb].
    apply rejected_by_message.
  - intros Htype Hdir Hdata. rewrite Htype, Z.eqb_refl. cbn [negb].
    rewrite (eqb_false_of_neq _ _ Hdir), Hdata. cbn [negb andb Z.eqb].
    apply rejected_by_message.
  - intros Htype Hdata Hread Hok. rewrite Htype, Z.eqb_refl. cbn [negb].
    rewrite (eqb_false_of_neq _ _ Hdata), andb_false_r.
    apply nz_true in Hread. rewrite Hread, Hok. cbn [negb Z.b2z nz Z.eqb].
    apply rejected_by_message.
  - intros Htype Hdata Hread Hwrite Hok. rewrite Htype, Z.eqb_refl. cbn [negb].
    rewrite (eqb_false_of_neq _ _ Hdata), andb_false_r.
    apply nz_false in Hread. apply nz_true in Hwrite.
    rewrite Hread, Hwrite, Hok. cbn [negb Z.b2z nz Z.eqb].
    apply rejected_by_message.
  - intros Htype Hdir Hcases. rewrite Htype, Z.eqb_refl. cbn [negb].
    rewrite Hdir. cbn [_IOC_NONE Z.eqb negb andb Z.land nz].
    unfold ioctl_cases in Hcases. cbn [In] in Hcases.
    repeat match goal with
           | |- context [cmd =? ?c] =>
               rewrite (eqb_false_of_neq cmd c) by (intros E; symmetry in E; apply Hcases; tauto)
           end.
    apply rejected_by_message.
Qed.

Lemma ioctl_refused_before_dispatch_witness :
  let d := sample_dev zero_regs XSDFEC_INIT XSDFEC_LDPC_CODE 1 false in
  let a := mk_ioctl_arg 0 (fun _ => false) ua_ok (mk_irq true true)
                        (mk_turbo 0 0) sample_ldpc 1 0 in
  rejected (- ENOTTY) "Not a xilinx sdfec ioctl" d
           (xsdfec_dev_ioctl sample_hdr 0 a d) /\
  rejected (- EINVAL) "xilinx sdfec ioctl argument is NULL Pointer" d
           (xsdfec_dev_ioctl sample_hdr (XSDFEC_SET_ORDER sample_hdr) a d).
Proof.
  intros d a. split.
  - apply (ioctl_refused_before_dispatch sample_hdr 0 a d).
    + discriminate.
    + vm_compute. discriminate.
  - apply (ioctl_refused_before_dispatch sample_hdr (XSDFEC_SET_ORDER sample_hdr) a d).
    + discriminate.
    + reflexivity.
    + vm_compute. discriminate.
    + reflexivity.
Defined.

(** ** Code slots: the bound on the code id *)

Lemma code_reg_addr_wide (base offset : Z) :
  0 <= base < 0x10000 -> 0 <= offset < 2 ^ 27 ->
  u32 (base + u32 (offset * XSDFEC_LDPC_REG_JUMP)) = base + 16 * offset.
Proof.
  intros Hb Ho. unfold XSDFEC_LDPC_REG_JUMP.
  rewrite (u32_small (offset * 16)) by lia.
  rewrite u32_small by lia. lia.
Qed.

Lemma untouched_msg (m : list string) (d d' : xsdfec_dev) :
  untouched d d' -> untouched d (set_dmesg m d').
Proof. intros H. exact H. Qed.

Lemma untouched_refl (d : xsdfec_dev) : untouched d d.
Proof. unfold untouched. repeat split; reflexivity. Qed.

(** Runs a code register function whose address check has been decided. *)
Ltac code_slot_run :=
  repeat (rewrite bind_run, when_log_run; cbn [fst snd]);
  rewrite bind_run; cbn [ret fst snd];
  rewrite ?dev_err_run; cbn [ret fst snd];
  first [ reflexivity
        | repeat apply untouched_msg; apply untouched_refl ].

Ltac code_slot base high Hid :=
  cbv zeta;
  rewrite (code_reg_addr_wide base) by (unfold base; lia);
  match goal with
  | |- context [?x <=? 31] =>
      destruct (Z.leb_spec x 31);
      [ rewrite (gtb_false (base + 16 * x)) by (unfold base, high; lia)
      | rewrite (gtb_true (base + 16 * x)) by (unfold base, high; lia) ]
  | |- _ => rewrite (gtb_true (base + 16 * _)) by (unfold base, high; lia)
  end;
  code_slot_run.

Lemma reg0_slot (n k id : Z) (d : xsdfec_dev) :
  0 <= id < 2 ^ 27 ->
  fst (xsdfec_reg0_write n k id d) = (if id <=? 31 then 0 else - EINVAL) /\
  (31 < id -> untouched d (snd (xsdfec_reg0_write n k id d))).
Proof.
  intros Hid. unfold xsdfec_reg0_write. split; [| intros Hhigh];
    code_slot XSDFEC_LDPC_CODE_REG0_ADDR_BASE XSDFEC_LDPC_CODE_REG0_ADDR_HIGH Hid.
Qed.

Lemma reg1_slot (psize no_packing nm id : Z) (d : xsdfec_dev) :
  0 <= id < 2 ^ 27 ->
  fst (xsdfec_reg1_write psize no_packing nm id d)
  = (if id <=? 31 then 0 else - EINVAL) /\
  (31 < id -> untouched d (snd (xsdfec_reg1_write psize no_packing nm id d))).
Proof.
  intros Hid. unfold xsdfec_reg1_write. split; [| intros Hhigh];
    code_slot XSDFEC_LDPC_CODE_REG1_ADDR_BASE XSDFEC_LDPC_CODE_REG1_ADDR_HIGH Hid.
Qed.

Lemma reg2_slot (a b c e f g id : Z) (d : xsdfec_dev) :
  0 <= id < 2 ^ 27 ->
  fst (xsdfec_reg2_write a b c e f g id d) = (if id <=? 31 then 0 else - EINVAL) /\
  (31 < id -> untouched d (snd (xsdfec_reg2_write a b c e f g id d))).
Proof.
  intros Hid. unfold xsdfec_reg2_write. split; [| intros Hhigh];
    code_slot XSDFEC_LDPC_CODE_REG2_ADDR_BASE XSDFEC_LDPC_CODE_REG2_ADDR_HIGH Hid.
Qed.

Lemma reg3_slot (sc la qc id : Z) (d : xsdfec_dev) :
  0 <= id < 2 ^ 27 ->
  fst (xsdfec_reg3_write sc la qc id d) = (if id <=? 31 then 0 else - EINVAL) /\
  (31 < id -> untouched d (snd (xsdfec_reg3_write sc la qc id d))).
Proof.
  intros Hid. unfold xsdfec_reg3_write. split; [| intros Hhigh];
    code_slot XSDFEC_LDPC_CODE_REG3_ADDR_BASE XSDFEC_LDPC_CODE_REG3_ADDR_HIGH Hid.
Qed.

Ltac collect_slot base high Hid :=
  cbv zeta;
  rewrite (code_reg_addr_wide base) by (unfold base; lia);
  match goal with
  | |- context [?x <=? 31] =>
      destruct (Z.leb_spec x 31);
      [ rewrite (gtb_false (base + 16 * x)) by (unfold base, high; lia)
      | rewrite (gtb_true (base + 16 * x)) by (unfold base, high; lia) ]
  | |- _ => rewrite (gtb_true (base + 16 * _)) by (unfold base, high; lia)
  end;
  rewrite bind_run; cbn [ret fst snd];
  rewrite ?dev_err_run; cbn [ret fst snd];
  first [ reflexivity | apply untouched_msg; apply untouched_refl ].

Lemma collect_slots (id : Z) (p : xsdfec_ldpc_params) (d : xsdfec_dev) :
  0 <= id < 2 ^ 27 ->
  let status := if id <=? 31 then 0 else - EINVAL in
  (fst (fst (xsdfec_collect_ldpc_reg0 id p d)) = status /\
   fst (fst (xsdfec_collect_ldpc_reg1 id p d)) = status /\
   fst (fst (xsdfec_collect_ldpc_reg2 id p d)) = status /\
   fst (fst (xsdfec_collect_ldpc_reg3 id p d)) = status) /\
  (31 < id ->
   (snd (fst (xsdfec_collect_ldpc_reg0 id p d)) = p /\
    untouched d (snd (xsdfec_collect_ldpc_reg0 id p d))) /\
   (snd (fst (xsdfec_collect_ldpc_reg1 id p d)) = p /\
    untouched d (snd (xsdfec_collect_ldpc_reg1 id p d))) /\
   (snd (fst (xsdfec_collect_ldpc_reg2 id p d)) = p /\
    untouched d (snd (xsdfec_collect_ldpc_reg2 id p d))) /\
   (snd (fst (xsdfec_collect_ldpc_reg3 id p d)) = p /\
    untouched d (snd (xsdfec_collect_ldpc_reg3 id p d)))).
Proof.
  intros Hid. cbv zeta.
  unfold xsdfec_collect_ldpc_reg0, xsdfec_collect_ldpc_reg1,
    xsdfec_collect_ldpc_reg2, xsdfec_collect_ldpc_reg3.
  split; [| intros Hhigh]; repeat match goal with |- _ /\ _ => split end.
  - collect_slot XSDFEC_LDPC_CODE_REG0_ADDR_BASE XSDFEC_LDPC_CODE_REG0_ADDR_HIGH Hid.
  - collect_slot XSDFEC_LDPC_CODE_REG1_ADDR_BASE XSDFEC_LDPC_CODE_REG1_ADDR_HIGH Hid.
  - collect_slot XSDFEC_LDPC_CODE_REG2_ADDR_BASE XSDFEC_LDPC_CODE_REG2_ADDR_HIGH Hid.
  - collect_slot XSDFEC_LDPC_CODE_REG3_ADDR_BASE XSDFEC_LDPC_CODE_REG3_ADDR_HIGH Hid.
  - collect_slot XSDFEC_LDPC_CODE_REG0_ADDR_BASE XSDFEC_LDPC_CODE_REG0_ADDR_HIGH Hid.
  - collect_slot XSDFEC_LDPC_CODE_REG0_ADDR_BASE XSDFEC_LDPC_CODE_REG0_ADDR_HIGH Hid.
  - collect_slot XSDFEC_LDPC_CODE_REG1_ADDR_BASE XSDFEC_LDPC_CODE_REG1_ADDR_HIGH Hid.
  - collect_slot XSDFEC_LDPC_CODE_REG1_ADDR_BASE XSDFEC_LDPC_CODE_REG1_ADDR_HIGH Hid.
  - collect_slot XSDFEC_LDPC_CODE_REG2_ADDR_BASE XSDFEC_LDPC_CODE_REG2_ADDR_HIGH Hid.
  - collect_slot XSDFEC_LDPC_CODE_REG2_ADDR_BASE XSDFEC_LDPC_CODE_REG2_ADDR_HIGH Hid.
  - collect_slot XSDFEC_LDPC_CODE_REG3_ADDR_BASE XSDFEC_LDPC_CODE_REG3_ADDR_HIGH Hid.
  - collect_slot XSDFEC_LDPC_CODE_REG3_ADDR_BASE XSDFEC_LDPC_CODE_REG3_ADDR_HIGH Hid.
Qed.

(** The four code registers of a slot take code ids 0 to 31 and no other:
    for an id below 2^27, each of the four write functions and each of the
    four read-back functions returns 0 when the id is at most 31 and
    -EINVAL otherwise; a refused call accesses no register, changes
    nothing in the device but the message log, and a refused read-back
    hands the descriptor back as it received it. *)
Theorem code_id_bound
        (id : Z) (p : xsdfec_ldpc_params) (d : xsdfec_dev) :
  0 <= id < 2 ^ 27 ->
  let status := if id <=? 31 then 0 else - EINVAL in
  (fst (xsdfec_reg0_write (n p) (k p) id d) = status /\
   fst (xsdfec_reg1_write (psize p) (no_packing p) (nm p) id d) = status /\
   fst (xsdfec_reg2_write (nlayers p) (nmqc p) (norm_type p) (special_qc p)
                          (no_final_parity p) (max_schedule p) id d) = status /\
   fst (xsdfec_reg3_write (sc_off p) (la_off p) (qc_off p) id d) = status /\
   fst (fst (xsdfec_collect_ldpc_reg0 id p d)) = status /\
   fst (fst (xsdfec_collect_ldpc_reg1 id p d)) = status /\
   fst (fst (xsdfec_collect_ldpc_reg2 id p d)) = status /\
   fst (fst (xsdfec_collect_ldpc_reg3 id p d)) = status) /\
  (31 < id ->
   untouched d (snd (xsdfec_reg0_write (n p) (k p) id d)) /\
   untouched d (snd (xsdfec_reg1_write (psize p) (no_packing p) (nm p) id d)) /\
   untouched d (snd (xsdfec_reg2_write (nlayers p) (nmqc p) (norm_type p)
                                       (special_qc p) (no_final_parity p)
                                       (max_schedule p) id d)) /\
   untouched d (snd (xsdfec_reg3_write (sc_off p) (la_off p) (qc_off p) id d)) /\
   (snd (fst (xsdfec_collect_ldpc_reg0 id p d)) = p /\
    untouched d (snd (xsdfec_collect_ldpc_reg0 id p d))) /\
   (snd (fst (xsdfec_collect_ldpc_reg1 id p d)) = p /\
    untouched d (snd (xsdfec_collect_ldpc_reg1 id p d))) /\
   (snd (fst (xsdfec_collect_ldpc_reg2 id p d)) = p /\
    untouched d (snd (xsdfec_collect_ldpc_reg2 id p d))) /\
   (snd (fst (xsdfec_collect_ldpc_reg3 id p d)) = p /\
    untouched d (snd (xsdfec_collect_ldpc_reg3 id p d)))).
Proof.
  intros Hid. cbv zeta.
  destruct (collect_slots id p d Hid) as [[Hc0 [Hc1 [Hc2 Hc3]]] Hcol].
  cbv zeta in Hc0, Hc1, Hc2, Hc3.
  split.
  - repeat match goal with |- _ /\ _ => split end;
      first [ apply reg0_slot | apply reg1_slot | apply reg2_slot | apply reg3_slot
            | assumption ]; exact Hid.
  - intros Hhigh. destruct (Hcol Hhigh) as [H0 [H1 [H2 H3]]].
    repeat match goal with |- _ /\ _ => split end;
      first [ apply reg0_slot | apply reg1_slot | apply reg2_slot | apply reg3_slot
            | apply H0 | apply H1 | apply H2 | apply H3 ];
      assumption.
Qed.

Lemma code_id_bound_witness :
  let d := sample_dev zero_regs XSDFEC_INIT XSDFEC_LDPC_CODE 1 false in
  (fst (xsdfec_reg0_write 64800 32400 32 d) = - EINVAL /\
   untouched d (snd (xsdfec_reg0_write 64800 32400 32 d))) /\
  fst (xsdfec_reg0_write 64800 32400 31 d) = 0.
Proof.
  intros d.
  assert (H32 : 0 <= 32 < 2 ^ 27) by lia.
  assert (H31 : 0 <= 31 < 2 ^ 27) by lia.
  destruct (code_id_bound 32 sample_ldpc d H32) as [[Hhigh _] Hkept].
  destruct (code_id_bound 31 sample_ldpc d H31) as [[Hlow _] _].
  split; [split |].
  - exact Hhigh.
  - apply Hkept. lia.
  - exact Hlow.
Defined.

(** ** Register codec: registers 1 and 3 *)

Lemma reg1_word (psize no_packing nm : Z) :
  Z.lor (Z.lor (Z.land (shl32 nm XSDFEC_REG1_NM_LSB) XSDFEC_REG1_NM_MASK)
               (Z.land (shl32 no_packing XSDFEC_REG1_NO_PACKING_LSB)
                       XSDFEC_REG1_NO_PACKING_MASK))
        (Z.land psize XSDFEC_REG1_PSIZE_MASK)
  = encode_reg1 psize no_packing nm.
Proof.
  unfold encode_reg1.
  change XSDFEC_REG1_NM_MASK with (Z.shiftl (Z.ones 9) 11).
  change XSDFEC_REG1_NO_PACKING_MASK with (Z.shiftl (Z.ones 1) 10).
  change XSDFEC_REG1_NM_LSB with 11.
  change XSDFEC_REG1_NO_PACKING_LSB with 10.
  rewrite !field_encode by lia.
  reflexivity.
Qed.

(** Register 1: on an unprotected device and a valid code id the call
    returns 0 and writes the three fields masked to 9, 1 and 9 bits at
    bits 0, 10 and 11.  A message is logged for a [psize] or an [nm] of
    2^9 or more and for a [no_packing] other than 0 and 1; the value is
    truncated and written all the same. *)
Theorem reg1_write_masks_and_logs
        (psize no_packing nm offset : Z) (d : xsdfec_dev) :
  0 <= psize < 2 ^ 32 -> 0 <= nm < 2 ^ 32 ->
  0 <= offset <= 31 ->
  wr_protect d = false ->
  let r := xsdfec_reg1_write psize no_packing nm offset d in
  fst r = 0 /\
  io_log (snd r)
  = io_log d ++ [IoWrite (XSDFEC_LDPC_CODE_REG1_ADDR_BASE + 16 * offset)
                         (encode_reg1 psize no_packing nm)] /\
  regs (snd r) (XSDFEC_LDPC_CODE_REG1_ADDR_BASE + 16 * offset)
  = encode_reg1 psize no_packing nm /\
  dmesg (snd r)
  = dmesg d
    ++ (if 2 ^ 9 <=? psize then ["Psize is beyond 10 bits"] else [])
    ++ (if negb (no_packing =? 0) && negb (no_packing =? 1)
        then ["No-packing bit register invalid"] else [])
    ++ (if 2 ^ 9 <=? nm then ["NM is beyond 10 bits"] else []).
Proof.
  intros Hp Hn Ho Hwp. cbv zeta. unfold xsdfec_reg1_write.
  rewrite reg1_word.
  rewrite code_reg_addr by (unfold XSDFEC_LDPC_CODE_REG1_ADDR_BASE; lia).
  rewrite (gtb_false (XSDFEC_LDPC_CODE_REG1_ADDR_BASE + 16 * offset))
    by (unfold XSDFEC_LDPC_CODE_REG1_ADDR_BASE, XSDFEC_LDPC_CODE_REG1_ADDR_HIGH; lia).
  change XSDFEC_REG1_PSIZE_MASK with (Z.ones 9).
  change (Z.shiftr XSDFEC_REG1_NM_MASK XSDFEC_REG1_NM_LSB) with (Z.ones 9).
  rewrite !excess_bits by lia.
  generalize (encode_reg1 psize no_packing nm) as w.
  generalize (XSDFEC_LDPC_CODE_REG1_ADDR_BASE + 16 * offset) as addr.
  intros addr w.
  repeat (rewrite bind_run, when_log_run; dev_simpl).
  rewrite bind_run, regwrite_run. dev_simpl. rewrite Hwp. dev_simpl.
  rewrite upd_same, <- !app_assoc. repeat split; reflexivity.
Qed.

Lemma reg1_write_masks_and_logs_witness :
  let d := sample_dev zero_regs XSDFEC_INIT XSDFEC_LDPC_CODE 1 false in
  let r := xsdfec_reg1_write 600 2 90 3 d in
  fst r = 0 /\
  io_log (snd r)
  = io_log d ++ [IoWrite (XSDFEC_LDPC_CODE_REG1_ADDR_BASE + 16 * 3)
                         (encode_reg1 600 2 90)] /\
  regs (snd r) (XSDFEC_LDPC_CODE_REG1_ADDR_BASE + 16 * 3) = encode_reg1 600 2 90 /\
  dmesg (snd r)
  = dmesg d ++ ["Psize is beyond 10 bits"] ++ ["No-packing bit register invalid"] ++ [].
Proof.
  intros d r.
  apply (reg1_write_masks_and_logs 600 2 90 3 d); try lia.
  reflexivity.
Defined.

Lemma reg3_word (sc_off la_off qc_off : Z) :
  u32 (Z.lor (Z.lor (Z.shiftl (u16 qc_off) XSDFEC_REG3_QC_OFF_LSB)
                    (Z.shiftl (u8 la_off) XSDFEC_REG3_LA_OFF_LSB))
             (u8 sc_off))
  = encode_reg3 sc_off la_off qc_off.
Proof.
  unfold encode_reg3, u16, u8, XSDFEC_REG3_QC_OFF_LSB, XSDFEC_REG3_LA_OFF_LSB.
  apply Z.bits_inj'. intros i Hi.
  rewrite u32_testbit by lia.
  destruct (Z.ltb_spec i 32) as [Hlt | Hge]; [apply andb_true_r |].
  rewrite andb_false_r. symmetry.
  rewrite !Z.lor_spec, !Z.shiftl_spec by lia.
  rewrite !Z.mod_pow2_bits_high by lia. reflexivity.
Qed.

(** Register 3: on an unprotected device and a valid code id the call
    returns 0 and writes the three table offsets narrowed to 8, 8 and 16
    bits; an offset that does not fit is narrowed without any message, so
    two offsets that differ by a multiple of 256 program the same word. *)
Theorem reg3_write_narrows_silently
        (sc_off la_off qc_off offset : Z) (d : xsdfec_dev) :
  0 <= offset <= 31 ->
  wr_protect d = false ->
  let r := xsdfec_reg3_write sc_off la_off qc_off offset d in
  fst r = 0 /\
  io_log (snd r)
  = io_log d ++ [IoWrite (XSDFEC_LDPC_CODE_REG3_ADDR_BASE + 16 * offset)
                         (encode_reg3 sc_off la_off qc_off)] /\
  dmesg (snd r) = dmesg d /\
  snd (xsdfec_reg3_write (sc_off + 256) (la_off + 256) (qc_off + 65536) offset d)
  = snd r.
Proof.
  intros Ho Hwp. cbv zeta. unfold xsdfec_reg3_write. cbv zeta.
  rewrite !reg3_word.
  rewrite code_reg_addr by (unfold XSDFEC_LDPC_CODE_REG3_ADDR_BASE; lia).
  rewrite (gtb_false (XSDFEC_LDPC_CODE_REG3_ADDR_BASE + 16 * offset))
    by (unfold XSDFEC_LDPC_CODE_REG3_ADDR_BASE, XSDFEC_LDPC_CODE_REG3_ADDR_HIGH; lia).
  replace (encode_reg3 (sc_off + 256) (la_off + 256) (qc_off + 65536))
    with (encode_reg3 sc_off la_off qc_off).
  - rewrite bind_run, regwrite_run. dev_simpl. rewrite Hwp. dev_simpl.
    repeat split; reflexivity.
  - unfold encode_reg3.
    replace (sc_off + 256) with (sc_off + 1 * 2 ^ 8) by lia.
    replace (la_off + 256) with (la_off + 1 * 2 ^ 8) by lia.
    replace (qc_off + 65536) with (qc_off + 1 * 2 ^ 16) by lia.
    rewrite !Z_mod_plus_full. reflexivity.
Qed.

Lemma reg3_write_narrows_silently_witness :
  let d := sample_dev zero_regs XSDFEC_INIT XSDFEC_LDPC_CODE 1 false in
  let r := xsdfec_reg3_write 1 2 3 5 d in
  fst r = 0 /\
  io_log (snd r)
  = io_log d ++ [IoWrite (XSDFEC_LDPC_CODE_REG3_ADDR_BASE + 16 * 5)
                         (encode_reg3 1 2 3)] /\
  dmesg (snd r) = dmesg d /\
  snd (xsdfec_reg3_write (1 + 256) (2 + 256) (3 + 65536) 5 d) = snd r.
Proof.
  intros d r.
  apply (reg3_write_narrows_silently 1 2 3 5 d); [lia | reflexivity].
Defined.

(** ** Table windows: what is written is what is read back *)

Lemma table_addr_linear (base offset reg : Z) :
  0 <= base -> 0 <= offset -> 0 <= reg ->
  base + 4 * (offset + reg) < 2 ^ 32 ->
  table_addr base offset reg = base + 4 * (offset + reg).
Proof.
  intros Hb Ho Hr Hw. unfold table_addr, XSDFEC_REG_WIDTH_JUMP.
  rewrite (u32_small (offset + reg)) by lia.
  rewrite (u32_small ((offset + reg) * 4)) by lia.
  rewrite u32_small by lia. lia.
Qed.

(** The write loop on an unprotected device: registers outside the
    window keep their contents, and with distinct addresses each register
    of the window holds its word. *)
Lemma for_reg_write_regs (addr : Z -> Z) (ptr : Z -> Z) (cnt : nat) :
  forall (reg : Z) (d : xsdfec_dev),
    wr_protect d = false ->
    let d' := snd (for_reg cnt reg
                     (fun reg _ => xsdfec_regwrite (addr reg) (ptr reg)) tt d) in
    wr_protect d' = false /\
    (forall a, (forall i, reg <= i < reg + Z.of_nat cnt -> a <> addr i) ->
               regs d' a = regs d a) /\
    ((forall i j, reg <= i < reg + Z.of_nat cnt -> reg <= j < reg + Z.of_nat cnt ->
                  addr i = addr j -> i = j) ->
     forall i, reg <= i < reg + Z.of_nat cnt -> regs d' (addr i) = ptr i).
Proof.
  induction cnt as [| cnt IH]; intros reg d Hwp; cbv zeta.
  - cbn [for_reg ret snd]. repeat split; [exact Hwp | lia].
  - cbn [for_reg]. rewrite bind_run, regwrite_run, Hwp. cbn [fst snd].
    set (d1 := set_hw (upd (regs d) (addr reg) (ptr reg))
                      (io_log d ++ [IoWrite (addr reg) (ptr reg)]) d).
    assert (Hwp1 : wr_protect d1 = false) by exact Hwp.
    destruct (IH (reg + 1) d1 Hwp1) as [Hw [Hout Hin]].
    split; [exact Hw |]. split.
    + intros a Ha. rewrite Hout by (intros i Hi; apply Ha; lia).
      unfold d1. cbn [regs set_hw]. apply upd_other. apply Ha. lia.
    + intros Hinj i Hi.
      destruct (Z.eq_dec i reg) as [-> | Hne].
      * rewrite Hout.
        -- unfold d1. cbn [regs set_hw]. apply upd_same.
        -- intros j Hj E. apply Hinj in E; lia.
      * apply Hin; [| lia].
        intros i' j' Hi' Hj'. apply Hinj; lia.
Qed.

(** The read loop: the registers are left alone, and the buffer holds
    the register contents at the indices of the window and its former
    contents elsewhere. *)
Lemma for_reg_read_buffer (addr : Z -> Z) (cnt : nat) :
  forall (reg : Z) (q : Z -> Z) (d : xsdfec_dev),
    let r := for_reg cnt reg
               (fun reg ptr => v <- xsdfec_regread (addr reg) ;; ret (upd ptr reg v))
               q d in
    regs (snd r) = regs d /\
    forall j, fst r j
              = if (reg <=? j) && (j <? reg + Z.of_nat cnt)
                then u32 (regs d (addr j)) else q j.
Proof.
  induction cnt as [| cnt IH]; intros reg q d; cbv zeta.
  - cbn [for_reg ret fst snd]. split; [reflexivity |].
    intros j. replace ((reg <=? j) && (j <? reg + Z.of_nat 0)) with false;
      [reflexivity |].
    symmetry. apply andb_false_iff.
    destruct (Z.leb_spec reg j); [right; apply Z.ltb_ge; lia | left; reflexivity].
  - cbn [for_reg]. rewrite bind_run, bind_run, regread_run. cbn [ret fst snd].
    set (d1 := set_hw (regs d)
                      (io_log d ++ [IoRead (addr reg) (u32 (regs d (addr reg)))]) d).
    destruct (IH (reg + 1) (upd q reg (u32 (regs d (addr reg)))) d1) as [Hr Hb].
    split; [rewrite Hr; reflexivity |].
    intros j. rewrite Hb. change (regs d1) with (regs d).
    destruct (Z.eq_dec j reg) as [-> | Hne].
    + replace (reg + 1 <=? reg) with false by (symmetry; apply Z.leb_gt; lia).
      rewrite Z.leb_refl.
      replace (reg <? reg + Z.of_nat (S cnt)) with true
        by (symmetry; apply Z.ltb_lt; lia).
      cbn [andb]. apply upd_same.
    + replace (reg + 1 + Z.of_nat cnt) with (reg + Z.of_nat (S cnt)) by lia.
      destruct (Z.leb_spec (reg + 1) j) as [H1 | H1];
        destruct (Z.leb_spec reg j) as [H2 | H2]; try lia; cbn [andb];
        try reflexivity.
      * destruct (_ <? _); [reflexivity | apply upd_other; exact Hne].
      * apply upd_other; exact Hne.
Qed.

(** One table on an unprotected device: a window written with the write
    loop and read with the read loop. *)
Lemma table_loops_round_trip
      (base offset len : Z) (ptr q : Z -> Z) (d : xsdfec_dev) :
  0 <= base -> 0 <= offset -> 0 <= len ->
  base + 4 * (offset + len) < 2 ^ 32 ->
  wr_protect d = false ->
  let d' := snd (for_reg (Z.to_nat len) 0
                   (fun reg _ => xsdfec_regwrite (table_addr base offset reg) (ptr reg))
                   tt d) in
  let r := for_reg (Z.to_nat len) 0
             (fun reg ptr =>
                v <- xsdfec_regread (table_addr base offset reg) ;;
                ret (upd ptr reg v))
             q d' in
  forall j, fst r j = if (0 <=? j) && (j <? len) then u32 (ptr j) else q j.
Proof.
  intros Hb Ho Hl Hw Hwp. cbv zeta. intros j.
  destruct (for_reg_write_regs (table_addr base offset) ptr (Z.to_nat len) 0 d Hwp)
    as [_ [_ Hin]]. cbv zeta in Hin.
  destruct (for_reg_read_buffer (table_addr base offset) (Z.to_nat len) 0 q
              (snd (for_reg (Z.to_nat len) 0
                      (fun reg _ => xsdfec_regwrite (table_addr base offset reg)
                                                    (ptr reg)) tt d)))
    as [_ Hbuf]. cbv zeta in Hbuf.
  rewrite Hbuf. rewrite Z.add_0_l, Z2Nat.id by exact Hl.
  destruct (Z.leb_spec 0 j) as [H0 | H0]; [| reflexivity].
  destruct (Z.ltb_spec j len) as [H1 | H1]; [| reflexivity].
  cbn [andb]. rewrite Hin; [reflexivity | | lia].
  intros i i' Hi Hi'. rewrite Z2Nat.id in Hi, Hi' by exact Hl.
  rewrite !table_addr_linear by lia. lia.
Qed.

Lemma table_check_passes (offset len depth : Z) :
  0 <= offset -> 0 <= len -> 4 * (offset + len) <= depth -> depth < 2 ^ 32 ->
  (u32 (XSDFEC_REG_WIDTH_JUMP * u32 (offset + len)) >? depth) = false.
Proof.
  intros Ho Hl Hd Hw. unfold XSDFEC_REG_WIDTH_JUMP.
  rewrite (u32_small (offset + len)) by lia.
  rewrite u32_small by lia. apply gtb_false. exact Hd.
Qed.

(** A window written to one of the three tables of an unprotected device
    is read back word for word.  With the window inside the table, and
    the table inside the 32-bit address space, the write reports [len]
    words, the read-back reports success, and the buffer it fills holds
    at each index below [len] the word that was written (as a 32-bit
    value) and its former contents from [len] on. *)
Theorem table_write_then_collect
        (hdr : uapi_header) (offset len : Z) (ptr q : Z -> Z) (d : xsdfec_dev) :
  0 <= offset -> 0 <= len ->
  wr_protect d = false ->
  (0 <= XSDFEC_LDPC_SC_TABLE_ADDR_BASE hdr ->
   XSDFEC_LDPC_SC_TABLE_ADDR_BASE hdr + XSDFEC_SC_TABLE_DEPTH < 2 ^ 32 ->
   4 * (offset + len) <= XSDFEC_SC_TABLE_DEPTH ->
   let w := xsdfec_sc_table_write hdr offset ptr len d in
   let r := xsdfec_collect_sc_table hdr offset q len (snd w) in
   fst w = len /\ fst (fst r) = 0 /\
   forall j, snd (fst r) j = if (0 <=? j) && (j <? len) then u32 (ptr j) else q j) /\
  (0 <= XSDFEC_LDPC_LA_TABLE_ADDR_BASE hdr ->
   XSDFEC_LDPC_LA_TABLE_ADDR_BASE hdr + XSDFEC_LA_TABLE_DEPTH < 2 ^ 32 ->
   4 * (offset + len) <= XSDFEC_LA_TABLE_DEPTH ->
   let w := xsdfec_la_table_write hdr offset ptr len d in
   let r := xsdfec_collect_la_table hdr offset q len (snd w) in
   fst w = len /\ fst (fst r) = 0 /\
   forall j, snd (fst r) j = if (0 <=? j) && (j <? len) then u32 (ptr j) else q j) /\
  (0 <= XSDFEC_LDPC_QC_TABLE_ADDR_BASE hdr ->
   XSDFEC_LDPC_QC_TABLE_ADDR_BASE hdr + XSDFEC_QC_TABLE_DEPTH < 2 ^ 32 ->
   4 * (offset + len) <= XSDFEC_QC_TABLE_DEPTH ->
   let w := xsdfec_qc_table_write hdr offset ptr len d in
   let r := xsdfec_collect_qc_table hdr offset q len (snd w) in
   fst w = len /\ fst (fst r) = 0 /\
   forall j, snd (fst r) j = if (0 <=? j) && (j <? len) then u32 (ptr j) else q j).
Proof.
  intros Ho Hl Hwp.
  repeat match goal with |- _ /\ _ => split end;
    intros Hb Hw Hd; cbv zeta;
    unfold xsdfec_sc_table_write, xsdfec_collect_sc_table,
      xsdfec_la_table_write, xsdfec_collect_la_table,
      xsdfec_qc_table_write, xsdfec_collect_qc_table; cbv zeta;
    rewrite table_check_passes
      by (unfold XSDFEC_SC_TABLE_DEPTH, XSDFEC_LA_TABLE_DEPTH,
            XSDFEC_QC_TABLE_DEPTH in *; lia);
    rewrite !bind_run; cbn [ret fst snd];
    (split; [apply s32_small;
             unfold XSDFEC_SC_TABLE_DEPTH, XSDFEC_LA_TABLE_DEPTH,
               XSDFEC_QC_TABLE_DEPTH in *; lia |]);
    (split; [reflexivity |]);
    apply table_loops_round_trip;
    unfold XSDFEC_SC_TABLE_DEPTH, XSDFEC_LA_TABLE_DEPTH,
      XSDFEC_QC_TABLE_DEPTH in *; lia || assumption.
Qed.

Lemma table_write_then_collect_witness :
  let d := sample_dev zero_regs XSDFEC_INIT XSDFEC_LDPC_CODE 1 false in
  let w := xsdfec_sc_table_write sample_hdr 2 (array_of [11; 12; 13; 14]) 4 d in
  let r := xsdfec_collect_sc_table sample_hdr 2 (array_of []) 4 (snd w) in
  fst w = 4 /\ fst (fst r) = 0 /\
  forall j, snd (fst r) j
            = if (0 <=? j) && (j <? 4) then u32 (array_of [11; 12; 13; 14] j)
              else array_of [] j.
Proof.
  intros d.
  apply (table_write_then_collect sample_hdr 2 4 (array_of [11; 12; 13; 14])
                                  (array_of []) d);
    try reflexivity; vm_compute; discriminate.
Defined.

(** ** Turbo parameters *)

Lemma turbo_scale_decodes_to_zero (reg_value : Z) :
  Z.shiftr (Z.land reg_value XSDFEC_TURBO_SCALE_MASK) XSDFEC_TURBO_SCALE_BIT_POS = 0.
Proof.
  change XSDFEC_TURBO_SCALE_MASK with (Z.ones 4).
  unfold XSDFEC_TURBO_SCALE_BIT_POS.
  pose proof (land_ones_range reg_value 4).
  rewrite Z.shiftr_div_pow2 by lia. apply Z.div_small. lia.
Qed.

Lemma turbo_alg_bit (s a : Z) :
  Z.land (u32 (u32 (Z.lor (Z.shiftl s XSDFEC_TURBO_SCALE_BIT_POS) a))) 1 = Z.land a 1.
Proof.
  unfold XSDFEC_TURBO_SCALE_BIT_POS.
  apply Z.bits_inj'. intros i Hi.
  rewrite !Z.land_spec, !u32_testbit by lia.
  destruct (Z.eq_dec i 0) as [-> | Hne].
  - rewrite Z.lor_spec, Z.shiftl_spec_low by lia. cbn [orb].
    change (0 <? 32) with true. rewrite !andb_true_r. reflexivity.
  - rewrite (Z.bits_above_log2 1 i) by (cbn; lia).
    rewrite !andb_false_r. reflexivity.
Qed.

(** What [xsdfec_set_turbo] leaves behind when it goes through. *)
Lemma set_turbo_run (ua : uaccess) (arg : xsdfec_turbo) (d : xsdfec_dev) :
  s32 (copy_from_user ua) = 0 ->
  code (config d) <> XSDFEC_LDPC_CODE ->
  let r := xsdfec_set_turbo ua arg d in
  fst r = 0 /\
  code (config (snd r)) = XSDFEC_TURBO_CODE /\
  wr_protect (snd r) = false /\
  state (snd r) = state d /\
  regs (snd r) XSDFEC_TURBO_ADDR
  = u32 (Z.lor (Z.shiftl (Z.land (scale arg) XSDFEC_TURBO_SCALE_MASK)
                         XSDFEC_TURBO_SCALE_BIT_POS)
               (alg arg)) /\
  io_log (snd r)
  = io_log d ++ unprotect_log d
    ++ [IoWrite XSDFEC_TURBO_ADDR
                (u32 (Z.lor (Z.shiftl (Z.land (scale arg) XSDFEC_TURBO_SCALE_MASK)
                                      XSDFEC_TURBO_SCALE_BIT_POS)
                            (alg arg)))].
Proof.
  intros Hc Hcode. cbv zeta. unfold xsdfec_set_turbo. cbv zeta.
  rewrite Hc. cbn [nz Z.eqb negb].
  generalize (u32 (Z.lor (Z.shiftl (Z.land (scale arg) XSDFEC_TURBO_SCALE_MASK)
                                   XSDFEC_TURBO_SCALE_BIT_POS) (alg arg))) as w.
  intros w.
  destruct d as [r l m s c ie wp ic cc uc oc iq wk].
  destruct c as [fid cd ord dw dwi ow owi].
  cbn [config code] in Hcode.
  unfold unprotect_log.
  destruct cd; [| | contradiction Hcode; reflexivity];
    destruct wp; cbn; rewrite ?Z.eqb_refl, <- ?app_assoc; repeat split; reflexivity.
Qed.

(** Turbo parameters written and read back: on a device that is not
    configured for LDPC, with both copies succeeding, [xsdfec_set_turbo]
    returns 0, makes the device a Turbo device, leaves it unprotected and
    writes one word; [xsdfec_get_turbo] then returns bit 0 of the
    algorithm that was written and a scale of 0, whatever scale was
    written. *)
Theorem turbo_set_then_get (ua : uaccess) (arg : xsdfec_turbo) (d : xsdfec_dev) :
  s32 (copy_from_user ua) = 0 ->
  s32 (copy_to_user ua) = 0 ->
  code (config d) <> XSDFEC_LDPC_CODE ->
  let w := xsdfec_set_turbo ua arg d in
  let r := xsdfec_get_turbo ua (snd w) in
  fst w = 0 /\
  code (config (snd w)) = XSDFEC_TURBO_CODE /\
  wr_protect (snd w) = false /\
  fst r = (0, Some (mk_turbo (Z.land (alg arg) 1) 0)).
Proof.
  intros Hin Hout Hcode. cbv zeta.
  destruct (set_turbo_run ua arg d Hin Hcode) as [Hret [Hc [Hw [_ [Hreg _]]]]].
  cbv zeta in Hret, Hc, Hw, Hreg.
  repeat split; try assumption.
  unfold xsdfec_get_turbo. cbv zeta.
  rewrite bind_run. cbn [get fst snd]. rewrite Hc. cbn [code_eqb].
  rewrite bind_run, regread_run. cbn [fst snd].
  rewrite Hout. cbn [nz Z.eqb negb ret fst].
  rewrite Hreg, turbo_scale_decodes_to_zero, turbo_alg_bit. reflexivity.
Qed.

Lemma turbo_set_then_get_witness :
  let d := sample_dev zero_regs XSDFEC_STARTED XSDFEC_TURBO_CODE 1 true in
  let w := xsdfec_set_turbo ua_ok (mk_turbo 1 5) d in
  let r := xsdfec_get_turbo ua_ok (snd w) in
  fst w = 0 /\
  code (config (snd w)) = XSDFEC_TURBO_CODE /\
  wr_protect (snd w) = false /\
  fst r = (0, Some (mk_turbo (Z.land 1 1) 0)).
Proof.
  intros d.
  apply (turbo_set_then_get ua_ok (mk_turbo 1 5) d); try reflexivity.
  discriminate.
Defined.

Lemma untouched_by_message {A : Type} (msg : string) (a : A) (d : xsdfec_dev) :
  untouched d (snd ((dev_err msg ;; ret a) d)).
Proof.
  rewrite bind_run, dev_err_run. cbn [ret fst snd].
  apply untouched_msg, untouched_refl.
Qed.

(** Both Turbo commands refuse a device configured for LDPC with -EIO,
    and a failed copy from user space stops [xsdfec_set_turbo] with
    -EFAULT; in each case no register is accessed and nothing but the
    message log changes. *)
Theorem turbo_refusals (ua : uaccess) (arg : xsdfec_turbo) (d : xsdfec_dev) :
  (s32 (copy_from_user ua) <> 0 ->
   fst (xsdfec_set_turbo ua arg d) = - EFAULT /\
   untouched d (snd (xsdfec_set_turbo ua arg d))) /\
  (code (config d) = XSDFEC_LDPC_CODE ->
   (s32 (copy_from_user ua) = 0 ->
    fst (xsdfec_set_turbo ua arg d) = - EIO /\
    untouched d (snd (xsdfec_set_turbo ua arg d))) /\
   fst (xsdfec_get_turbo ua d) = (- EIO, None) /\
   untouched d (snd (xsdfec_get_turbo ua d))).
Proof.
  split.
  - intros Hc. unfold xsdfec_set_turbo. cbv zeta.
    apply nz_true in Hc. rewrite Hc.
    split; [reflexivity | apply untouched_by_message].
  - intros Hl. split; [intros Hc; unfold xsdfec_set_turbo; cbv zeta |
                       unfold xsdfec_get_turbo].
    + apply nz_false in Hc. rewrite Hc.
      rewrite bind_run. cbn [get fst snd]. rewrite Hl. cbn [code_eqb].
      split; [reflexivity | apply untouched_by_message].
    + rewrite bind_run. cbn [get fst snd]. rewrite Hl. cbn [code_eqb].
      split; [reflexivity | apply untouched_by_message].
Qed.

Lemma turbo_refusals_witness :
  let d := sample_dev zero_regs XSDFEC_INIT XSDFEC_LDPC_CODE 1 false in
  (fst (xsdfec_set_turbo (mk_uaccess false 8 0) (mk_turbo 1 5) d) = - EFAULT /\
   untouched d (snd (xsdfec_set_turbo (mk_uaccess false 8 0) (mk_turbo 1 5) d))) /\
  fst (xsdfec_get_turbo (mk_uaccess false 8 0) d) = (- EIO, None).
Proof.
  intros d.
  destruct (turbo_refusals (mk_uaccess false 8 0) (mk_turbo 1 5) d) as [Hcopy Hldpc].
  split.
  - apply Hcopy. vm_compute. discriminate.
  - apply Hldpc. reflexivity.
Defined.

(** ** LDPC programming: entry and exit *)

(** [xsdfec_add_ldpc] fails before touching the device when the
    allocation fails (-ENOMEM, the device is the same) and when the copy
    from user space fails; in the second case the status is the number of
    bytes left uncopied, a positive value, not a negative error code. *)
Theorem add_ldpc_entry_failures
        (hdr : uapi_header) (ua : uaccess) (arg : xsdfec_ldpc_params) (d : xsdfec_dev) :
  (kzalloc_fails ua = true ->
   xsdfec_add_ldpc hdr ua arg d = (- ENOMEM, d)) /\
  (kzalloc_fails ua = false -> s32 (copy_from_user ua) <> 0 ->
   fst (xsdfec_add_ldpc hdr ua arg d) = s32 (copy_from_user ua) /\
   untouched d (snd (xsdfec_add_ldpc hdr ua arg d))).
Proof.
  unfold xsdfec_add_ldpc. cbv zeta. split.
  - intros Hk. rewrite Hk. reflexivity.
  - intros Hk Hc. rewrite Hk. apply nz_true in Hc. rewrite Hc.
    split; [reflexivity | apply untouched_by_message].
Qed.

Lemma add_ldpc_entry_failures_witness :
  let d := sample_dev zero_regs XSDFEC_INIT XSDFEC_LDPC_CODE 1 false in
  xsdfec_add_ldpc sample_hdr (mk_uaccess true 0 0) sample_ldpc d = (- ENOMEM, d) /\
  fst (xsdfec_add_ldpc sample_hdr (mk_uaccess false 8 0) sample_ldpc d) = 8.
Proof.
  intros d. split.
  - apply (add_ldpc_entry_failures sample_hdr (mk_uaccess true 0 0) sample_ldpc d).
    reflexivity.
  - apply (add_ldpc_entry_failures sample_hdr (mk_uaccess false 8 0) sample_ldpc d).
    + reflexivity.
    + vm_compute. discriminate.
Defined.

(** Once past the allocation, the copy and the code family test,
    [xsdfec_add_ldpc] leaves the device unprotected whatever happens
    next and whatever it returns, and it keeps the state: on a started,
    write-protected device it lifts the protection and does not put it
    back. *)
Theorem add_ldpc_leaves_device_unprotected
        (hdr : uapi_header) (ua : uaccess) (arg : xsdfec_ldpc_params) (d : xsdfec_dev) :
  kzalloc_fails ua = false ->
  s32 (copy_from_user ua) = 0 ->
  code (config d) <> XSDFEC_TURBO_CODE ->
  wr_protect (snd (xsdfec_add_ldpc hdr ua arg d)) = false /\
  state (snd (xsdfec_add_ldpc hdr ua arg d)) = state d.
Proof.
  intros Hk Hc Hcode.
  split; [| apply protection_not_raised_add_ldpc].
  unfold xsdfec_add_ldpc. cbv zeta. rewrite Hk, Hc. cbn [nz Z.eqb negb].
  rewrite bind_run. cbn [get fst snd].
  replace (code_eqb (code (config d)) XSDFEC_TURBO_CODE) with false
    by (destruct (code (config d)); try reflexivity; contradiction Hcode; reflexivity).
  rewrite bind_run. cbv beta.
  destruct (unprotect_step d) as [Hwp _]. cbv zeta in Hwp.
  match goal with
  | |- wr_protect (snd (?m (snd ?x))) = false =>
      assert (Hrest : respects protection_not_raised m)
  end.
  { protection_not_raised_steps;
      auto using protection_not_raised_sc_table_write,
        protection_not_raised_la_table_write,
        protection_not_raised_qc_table_write with respects. }
  apply Hrest. exact Hwp.
Qed.

Lemma add_ldpc_leaves_device_unprotected_witness :
  let d := sample_dev zero_regs XSDFEC_STARTED XSDFEC_LDPC_CODE 1 true in
  wr_protect (snd (xsdfec_add_ldpc sample_hdr ua_ok sample_ldpc d)) = false /\
  state (snd (xsdfec_add_ldpc sample_hdr ua_ok sample_ldpc d)) = XSDFEC_STARTED.
Proof.
  intros d.
  apply (add_ldpc_leaves_device_unprotected sample_hdr ua_ok sample_ldpc d).
  - reflexivity.
  - reflexivity.
  - discriminate.
Defined.

(** A descriptor whose code id is above 31 is refused with -EINVAL at the
    first code register, before anything is programmed; the only
    register writes of the call are the two that lift write protection,
    which stays lifted. *)
Theorem add_ldpc_refuses_code_id_above_31
        (hdr : uapi_header) (ua : uaccess) (arg : xsdfec_ldpc_params) (d : xsdfec_dev) :
  kzalloc_fails ua = false ->
  s32 (copy_from_user ua) = 0 ->
  code (config d) <> XSDFEC_TURBO_CODE ->
  31 < code_id arg < 2 ^ 27 ->
  let r := xsdfec_add_ldpc hdr ua arg d in
  fst r = - EINVAL /\
  io_log (snd r) = io_log d ++ unprotect_log d /\
  wr_protect (snd r) = false.
Proof.
  intros Hk Hc Hcode Hid. cbv zeta.
  unfold xsdfec_add_ldpc. cbv zeta. rewrite Hk, Hc. cbn [nz Z.eqb negb].
  rewrite bind_run. cbn [get fst snd].
  replace (code_eqb (code (config d)) XSDFEC_TURBO_CODE) with false
    by (destruct (code (config d)); try reflexivity; contradiction Hcode; reflexivity).
  rewrite bind_run. cbv beta.
  destruct (unprotect_step d) as [Hwp Hlog]. cbv zeta in Hwp, Hlog.
  generalize dependent (snd (when (wr_protect d) (xsdfec_wr_protect false) d)).
  intros d1 Hwp Hlog.
  rewrite bind_run. cbv beta.
  assert (Hid' : 0 <= code_id arg < 2 ^ 27) by lia.
  destruct (reg0_slot (n arg) (k arg) (code_id arg) d1 Hid') as [Hret Hkept].
  replace (code_id arg <=? 31) with false in Hret by (symmetry; apply Z.leb_gt; lia).
  destruct (Hkept (proj1 Hid)) as [_ [Hl [_ [_ [Hw _]]]]].
  rewrite Hret. cbn [nz EINVAL Z.opp Z.eqb negb ret fst snd].
  rewrite Hl, Hw. repeat split; assumption.
Qed.

Lemma add_ldpc_refuses_code_id_above_31_witness :
  let d := sample_dev zero_regs XSDFEC_STARTED XSDFEC_LDPC_CODE 1 true in
  let arg := mk_ldpc 64800 32400 360 4 8 8 90 1 1 1 1 1 1 1 1
                     (array_of [11; 12; 13; 14]) (array_of [21; 22; 23; 24])
                     (array_of [31; 32; 33; 34; 35; 36; 37; 38]) 32 in
  let r := xsdfec_add_ldpc sample_hdr ua_ok arg d in
  fst r = - EINVAL /\
  io_log (snd r) = io_log d ++ unprotect_log d /\
  wr_protect (snd r) = false.
Proof.
  intros d arg.
  apply (add_ldpc_refuses_code_id_above_31 sample_hdr ua_ok arg d).
  - reflexivity.
  - reflexivity.
  - discriminate.
  - cbn. lia.
Defined.

(** ** Statistics: from the handler to the report *)

Lemma popcount_range (n : nat) : forall w, 0 <= popcount n w <= Z.of_nat n.
Proof.
  induction n as [| n IH]; intros w.
  - cbn. lia.
  - cbn [popcount]. specialize (IH (Z.div2 w)).
    destruct (Z.odd w); cbn [Z.b2z]; lia.
Qed.

Lemma hweight32_range (w : Z) : 0 <= hweight32 w <= 32.
Proof. unfold hweight32. apply (popcount_range 32). Qed.

Lemma atomic_add_from_zero (w : Z) : atomic_add (hweight32 w) 0 = hweight32 w.
Proof.
  unfold atomic_add. pose proof (hweight32_range w).
  rewrite Z.add_0_l. apply s32_small. lia.
Qed.

Lemma get_stats_run (ua : uaccess) (d : xsdfec_dev) :
  s32 (copy_to_user ua) = 0 ->
  fst (xsdfec_get_stats ua d)
  = (0, Some (mk_stats (isr_err_count d) (cecc_count d) (uecc_count d))).
Proof.
  intros Hc. unfold xsdfec_get_stats. cbv zeta.
  rewrite bind_run. cbn [get fst snd]. rewrite Hc. reflexivity.
Qed.

(** From cleared statistics, one run of the interrupt handler followed by
    the statistics command reports exactly what the interrupt carried: the
    number of general status bits when they are what the handler acted on,
    and the numbers of correctable and uncorrectable ECC bits when the ECC
    status is what it acted on. *)
Theorem stats_report_what_the_handler_counted (ua : uaccess) (d : xsdfec_dev) :
  s32 (copy_to_user ua) = 0 ->
  let ecc := u32 (regs d XSDFEC_ECC_ISR_ADDR) in
  let isr := u32 (regs d XSDFEC_ISR_ADDR) in
  let mbe := nz (Z.land ecc XSDFEC_ECC_ISR_MBE) in
  let ise := nz (Z.land isr XSDFEC_ISR_MASK) in
  let sbe := nz (Z.land ecc XSDFEC_ECC_ISR_SBE) in
  let d1 := snd (xsdfec_irq_thread (snd (xsdfec_clear_stats d))) in
  fst (xsdfec_clear_stats d) = 0 /\
  fst (xsdfec_get_stats ua d1)
  = (0, Some (mk_stats
                (if negb mbe && ise then hweight32 isr else 0)
                (if mbe || (negb ise && sbe)
                 then hweight32 (Z.land ecc XSDFEC_ECC_ISR_SBE) else 0)
                (if mbe || (negb ise && sbe)
                 then hweight32 (Z.land ecc XSDFEC_ECC_ISR_MBE) else 0))).
Proof.
  intros Hc. cbv zeta. split; [reflexivity |].
  rewrite (get_stats_run ua _ Hc).
  destruct (irq_thread_view (snd (xsdfec_clear_stats d))) as [_ Hview].
  cbv zeta in Hview. apply sw_view_eq in Hview.
  destruct Hview as [_ [_ [Hi [Hce [Hue _]]]]].
  rewrite Hi, Hce, Hue.
  replace (regs (snd (xsdfec_clear_stats d))) with (regs d) by reflexivity.
  replace (isr_err_count (snd (xsdfec_clear_stats d))) with 0 by reflexivity.
  replace (cecc_count (snd (xsdfec_clear_stats d))) with 0 by reflexivity.
  replace (uecc_count (snd (xsdfec_clear_stats d))) with 0 by reflexivity.
  rewrite !atomic_add_from_zero. reflexivity.
Qed.

Lemma stats_report_what_the_handler_counted_witness :
  let d := sample_dev (upd zero_regs XSDFEC_ECC_ISR_ADDR 0x1803)
                      XSDFEC_STARTED XSDFEC_LDPC_CODE 1 false in
  let d1 := snd (xsdfec_irq_thread (snd (xsdfec_clear_stats d))) in
  fst (xsdfec_clear_stats d) = 0 /\
  fst (xsdfec_get_stats ua_ok d1) = (0, Some (mk_stats 0 2 2)).
Proof.
  intros d.
  apply (stats_report_what_the_handler_counted ua_ok d).
  reflexivity.
Defined.

(** ** Session: one open at a time *)

Lemma s32_add_s32 (a b : Z) : s32 (s32 a + b) = s32 (a + b).
Proof.
  assert (E : (s32 a + b) mod 2 ^ 32 = (a + b) mod 2 ^ 32).
  { unfold s32. cbv zeta. destruct (_ <? _).
    - apply Zplus_mod_idemp_l.
    - replace (a mod 2 ^ 32 - 2 ^ 32 + b)
        with (a mod 2 ^ 32 + b + (- 1) * 2 ^ 32) by lia.
      rewrite Z_mod_plus_full. apply Zplus_mod_idemp_l. }
  unfold s32 at 1 3. cbv zeta. rewrite E. reflexivity.
Qed.

(** The device admits one open at a time.  With the open count at its
    initial value 1, open succeeds and takes the count to 0; with any
    other value it returns -EBUSY and leaves the count as it was.  So a
    second open fails until release has given the count back, after
    which open succeeds again. *)
Theorem open_is_exclusive (d : xsdfec_dev) :
  - 2 ^ 31 <= open_count d < 2 ^ 31 ->
  let r := xsdfec_dev_open d in
  (fst r, open_count (snd r))
  = (if open_count d =? 1 then (0, 0) else (- EBUSY, open_count d)) /\
  (open_count d = 1 ->
   fst (xsdfec_dev_open (snd r)) = - EBUSY /\
   fst (xsdfec_dev_release (snd r)) = 0 /\
   fst (xsdfec_dev_open (snd (xsdfec_dev_release (snd r)))) = 0).
Proof.
  intros Hr. cbv zeta.
  assert (Hopen : forall d0, - 2 ^ 31 <= open_count d0 < 2 ^ 31 ->
            (fst (xsdfec_dev_open d0), open_count (snd (xsdfec_dev_open d0)))
            = (if open_count d0 =? 1 then (0, 0) else (- EBUSY, open_count d0))).
  { intros d0 H0. unfold xsdfec_dev_open.
    rewrite bind_run. cbn [get fst snd].
    rewrite bind_run. cbn [modify fst snd].
    destruct (Z.eqb_spec (open_count d0) 1) as [E | E].
    - rewrite E. reflexivity.
    - replace (atomic_add (- 1) (open_count d0) =? 0) with false.
      + cbn [negb]. rewrite bind_run. cbn [modify ret fst snd]. dev_simpl.
        unfold atomic_add. rewrite s32_add_s32.
        replace (open_count d0 + - 1 + 1) with (open_count d0) by lia.
        rewrite s32_small by exact H0. reflexivity.
      + symmetry. apply Z.eqb_neq. unfold atomic_add. intros Hz.
        assert (Hs : s32 (s32 (open_count d0 + - 1) + 1) = s32 (0 + 1))
          by (rewrite Hz; reflexivity).
        rewrite s32_add_s32 in Hs.
        replace (open_count d0 + - 1 + 1) with (open_count d0) in Hs by lia.
        rewrite s32_small in Hs by exact H0. apply E. exact Hs. }
  split; [apply Hopen, Hr |].
  intros Hone.
  pose proof (Hopen d Hr) as H1. rewrite Hone in H1. cbn [Z.eqb Pos.eqb] in H1.
  assert (Hc : open_count (snd (xsdfec_dev_open d)) = 0)
    by (apply (f_equal snd) in H1; exact H1).
  generalize dependent (snd (xsdfec_dev_open d)). intros d1 _ Hc.
  split; [| split].
  - pose proof (Hopen d1) as H2. rewrite Hc in H2.
    apply (f_equal fst) in H2; [exact H2 | lia].
  - reflexivity.
  - pose proof (Hopen (snd (xsdfec_dev_release d1))) as H3.
    assert (Hc3 : open_count (snd (xsdfec_dev_release d1)) = 1).
    { unfold xsdfec_dev_release. rewrite bind_run. cbn [modify ret fst snd].
      dev_simpl. rewrite Hc. reflexivity. }
    rewrite Hc3 in H3. apply (f_equal fst) in H3; [exact H3 | lia].
Qed.

Lemma open_is_exclusive_witness :
  let d := sample_dev zero_regs XSDFEC_INIT XSDFEC_LDPC_CODE 1 false in
  let d1 := set_open_count 1 d in
  (fst (xsdfec_dev_open d1), open_count (snd (xsdfec_dev_open d1)))
  = (if open_count d1 =? 1 then (0, 0) else (- EBUSY, open_count d1)).
Proof.
  intros d d1.
  apply (open_is_exclusive d1).
  cbn. lia.
Defined.

(** ** Poll after an interrupt *)

Lemma poll_run (d : xsdfec_dev) :
  fst (xsdfec_poll d)
  = if state_eqb (state d) XSDFEC_NEEDS_RESET
    then Z.lor POLLIN POLLRDNORM else Z.lor POLLPRI POLLERR.
Proof.
  unfold xsdfec_poll. rewrite bind_run. cbn [get fst snd].
  destruct (state_eqb _ _); reflexivity.
Qed.

(** What poll reports after one run of the interrupt handler: readable
    data (POLLIN | POLLRDNORM) exactly when the device needed a reset
    before or the interrupt was fatal, and POLLPRI | POLLERR otherwise. *)
Theorem poll_after_interrupt (d : xsdfec_dev) :
  let ecc := u32 (regs d XSDFEC_ECC_ISR_ADDR) in
  let isr := u32 (regs d XSDFEC_ISR_ADDR) in
  let fatal := nz (Z.land ecc XSDFEC_ECC_ISR_MBE) || nz (Z.land isr XSDFEC_ISR_MASK) in
  fst (xsdfec_poll (snd (xsdfec_irq_thread d)))
  = (if fatal || state_eqb (state d) XSDFEC_NEEDS_RESET
     then Z.lor POLLIN POLLRDNORM else Z.lor POLLPRI POLLERR) /\
  snd (fst (xsdfec_irq_thread d)) = fatal.
Proof.
  cbv zeta. destruct (irq_thread_view d) as [Hret Hview].
  cbv zeta in Hret, Hview. apply sw_view_eq in Hview.
  destruct Hview as [Hs _].
  split; [| rewrite Hret; reflexivity].
  clear Hret.
  rewrite poll_run, Hs.
  destruct (nz _ || nz _); reflexivity.
Qed.

(** ** Enabling interrupts *)

Lemma isr_enable_true_run (d : xsdfec_dev) :
  wr_protect d = false ->
  let imr := u32 (regs d XSDFEC_IMR_ADDR) in
  let r := xsdfec_isr_enable true d in
  fst r = (if nz (Z.land imr XSDFEC_ISR_MASK) then - EIO else 0) /\
  io_log (snd r)
  = io_log d ++ [IoWrite XSDFEC_IER_ADDR XSDFEC_ISR_MASK; IoRead XSDFEC_IMR_ADDR imr] /\
  wr_protect (snd r) = false /\
  regs (snd r) XSDFEC_ECC_IMR_ADDR = regs d XSDFEC_ECC_IMR_ADDR.
Proof.
  intros Hwp. cbv zeta. unfold xsdfec_isr_enable.
  rewrite bind_run, regwrite_run, Hwp. cbn [fst snd].
  rewrite bind_run, regread_run. cbn [fst snd]. dev_simpl.
  rewrite (upd_other _ XSDFEC_IER_ADDR _ XSDFEC_IMR_ADDR) by (vm_compute; discriminate).
  destruct (nz _).
  - rewrite bind_run, dev_err_run. dev_simpl. rewrite <- app_assoc.
    repeat split; try assumption; reflexivity.
  - dev_simpl. rewrite <- app_assoc. repeat split; try assumption; reflexivity.
Qed.

Lemma ecc_isr_enable_true_run (d : xsdfec_dev) :
  wr_protect d = false ->
  let imr := u32 (regs d XSDFEC_ECC_IMR_ADDR) in
  let r := xsdfec_ecc_isr_enable true d in
  fst r = (if nz (Z.land imr XSDFEC_ECC_ISR_MASK) then - EIO else 0) /\
  io_log (snd r)
  = io_log d ++ [IoWrite XSDFEC_ECC_IER_ADDR XSDFEC_ECC_ISR_MASK;
                 IoRead XSDFEC_ECC_IMR_ADDR imr].
Proof.
  intros Hwp. cbv zeta. unfold xsdfec_ecc_isr_enable.
  rewrite bind_run, regwrite_run, Hwp. cbn [fst snd].
  rewrite bind_run, regread_run. cbn [fst snd]. dev_simpl.
  rewrite (upd_other _ XSDFEC_ECC_IER_ADDR _ XSDFEC_ECC_IMR_ADDR)
    by (vm_compute; discriminate).
  destruct (nz _).
  - rewrite bind_run, dev_err_run. dev_simpl. rewrite <- app_assoc.
    split; reflexivity.
  - dev_simpl. rewrite <- app_assoc. split; reflexivity.
Qed.

(** The command that enables interrupts, on an unprotected device with
    the copy from user space succeeding.  Each class that is asked for is
    enabled by one write to its enable register followed by one read of
    its mask register, and counts as failed (-EIO) when the mask register
    still shows a masked bit.  The general class goes first, and when it
    fails the ECC class is not attempted. *)
Theorem set_irq_characterised (ua : uaccess) (arg : xsdfec_irq) (d : xsdfec_dev) :
  s32 (copy_from_user ua) = 0 ->
  wr_protect d = false ->
  let imr := u32 (regs d XSDFEC_IMR_ADDR) in
  let ecc_imr := u32 (regs d XSDFEC_ECC_IMR_ADDR) in
  let isr_fails := enable_isr arg && nz (Z.land imr XSDFEC_ISR_MASK) in
  let r := xsdfec_set_irq ua arg d in
  fst r
  = (if isr_fails then - EIO
     else if enable_ecc_isr arg && nz (Z.land ecc_imr XSDFEC_ECC_ISR_MASK)
          then - EIO else 0) /\
  io_log (snd r)
  = io_log d
    ++ (if enable_isr arg
        then [IoWrite XSDFEC_IER_ADDR XSDFEC_ISR_MASK; IoRead XSDFEC_IMR_ADDR imr]
        else [])
    ++ (if negb isr_fails && enable_ecc_isr arg
        then [IoWrite XSDFEC_ECC_IER_ADDR XSDFEC_ECC_ISR_MASK;
              IoRead XSDFEC_ECC_IMR_ADDR ecc_imr]
        else []).
Proof.
  intros Hc Hwp. cbv zeta. unfold xsdfec_set_irq. cbv zeta.
  rewrite Hc. cbn [nz Z.eqb negb].
  rewrite bind_run. cbv beta.
  assert (H1 : let r1 := (if enable_isr arg then xsdfec_isr_enable true else ret 0) d in
               fst r1 = (if enable_isr arg && nz (Z.land (u32 (regs d XSDFEC_IMR_ADDR))
                                                         XSDFEC_ISR_MASK)
                         then - EIO else 0) /\
               io_log (snd r1)
               = io_log d ++ (if enable_isr arg
                              then [IoWrite XSDFEC_IER_ADDR XSDFEC_ISR_MASK;
                                    IoRead XSDFEC_IMR_ADDR
                                           (u32 (regs d XSDFEC_IMR_ADDR))]
                              else []) /\
               wr_protect (snd r1) = false /\
               regs (snd r1) XSDFEC_ECC_IMR_ADDR = regs d XSDFEC_ECC_IMR_ADDR).
  { cbv zeta. destruct (enable_isr arg).
    - cbn [andb]. apply (isr_enable_true_run d Hwp).
    - cbn [andb ret fst snd]. rewrite app_nil_r. repeat split; try assumption. }
  cbv zeta in H1. destruct H1 as [Hret1 [Hlog1 [Hwp1 Hreg1]]].
  generalize dependent ((if enable_isr arg then xsdfec_isr_enable true else ret 0) d).
  intros [e1 d1]. cbn [fst snd]. intros Hret1 Hlog1 Hwp1 Hreg1.
  subst e1.
  destruct (enable_isr arg && nz _).
  - cbn [Z.ltb EIO Z.opp Z.compare ret fst snd negb andb].
    rewrite app_nil_r. split; [reflexivity | exact Hlog1].
  - cbn [Z.ltb Z.compare negb andb].
    rewrite bind_run. cbv beta.
    destruct (enable_ecc_isr arg).
    + destruct (ecc_isr_enable_true_run d1 Hwp1) as [Hret2 Hlog2].
      cbv zeta in Hret2, Hlog2. rewrite Hreg1 in Hret2, Hlog2.
      rewrite Hret2. cbn [andb].
      destruct (nz _); cbn [Z.ltb EIO Z.opp Z.compare ret fst snd];
        rewrite Hlog2, Hlog1, <- app_assoc; split; reflexivity.
    + cbn [andb ret fst snd Z.ltb Z.compare]. rewrite app_nil_r.
      split; [reflexivity | exact Hlog1].
Qed.

Lemma set_irq_characterised_witness :
  let d := sample_dev (upd zero_regs XSDFEC_IMR_ADDR 0x3F)
                      XSDFEC_INIT XSDFEC_LDPC_CODE 1 false in
  let r := xsdfec_set_irq ua_ok (mk_irq true true) d in
  fst r = - EIO /\
  io_log (snd r)
  = io_log d ++ [IoWrite XSDFEC_IER_ADDR XSDFEC_ISR_MASK; IoRead XSDFEC_IMR_ADDR 0x3F]
    ++ [].
Proof.
  intros d.
  apply (set_irq_characterised ua_ok (mk_irq true true) d); reflexivity.
Defined.

(** ** Instances of the register 2 and table bound lemmas *)

Lemma reg2_write_masks_and_logs_witness :
  let d := sample_dev zero_regs XSDFEC_INIT XSDFEC_LDPC_CODE 1 false in
  let r := xsdfec_reg2_write 600 8 1 1 1 5 3 d in
  fst r = 0 /\
  io_log (snd r)
  = io_log d ++ [IoWrite (XSDFEC_LDPC_CODE_REG2_ADDR_BASE + 16 * 3)
                         (encode_reg2 600 8 1 1 1 5)] /\
  dmesg (snd r)
  = dmesg d ++ ["Nlayers exceeds 9 bits"] ++ [] ++ [] ++ [] ++ []
    ++ ["Max Schdule exceeds 2 bits"].
Proof.
  intros d r.
  apply (reg2_write_masks_and_logs 600 8 1 1 1 5 3 d); try lia.
  reflexivity.
Defined.

Lemma table_access_refused_without_wrap_witness :
  let d := sample_dev zero_regs XSDFEC_INIT XSDFEC_LDPC_CODE 1 false in
  xsdfec_sc_table_write sample_hdr 0x100 (array_of [7]) 1 d
  = (- EINVAL, set_dmesg (dmesg d ++ ["Write exceeds SC table length"]) d) /\
  xsdfec_collect_sc_table sample_hdr 0x100 (array_of [7]) 1 d
  = (- EINVAL, array_of [7],
     set_dmesg (dmesg d ++ ["Access will exceed SC table length"]) d).
Proof.
  intros d.
  assert (H0 : 0 <= 0x100) by lia.
  assert (H1 : 0 <= 1) by lia.
  assert (H2 : 4 * (0x100 + 1) < 2 ^ 32) by lia.
  destruct (table_access_refused_without_wrap sample_hdr 0x100 1 (array_of [7]) d
              H0 H1 H2) as [Hsc _].
  apply Hsc. reflexivity.
Defined.

(** ** Stream configuration *)

(** The stream-width word keeps its four fields apart.  On an unprotected
    device [xsdfec_cfg_axi_streams] returns 0 and writes one word to the
    AXIS width register; the word is below 64, its bits 0-1 and 3-4 are
    the width classes of the input and output streams, and its bits 2 and
    5 say whether the input and output word counts come with each
    transaction (the two other word modes both read as 0). *)
Theorem cfg_axi_streams_word (d : xsdfec_dev) :
  wr_protect d = false ->
  let r := xsdfec_cfg_axi_streams d in
  let w := regs (snd r) XSDFEC_AXIS_WIDTH_ADDR in
  fst r = 0 /\
  io_log (snd r) = io_log d ++ [IoWrite XSDFEC_AXIS_WIDTH_ADDR w] /\
  0 <= w < 64 /\
  Z.land w 3 = xsdfec_translate_axis_width_cfg_val (din_width (config d)) /\
  Z.land (Z.shiftr w 2) 1
  = xsdfec_translate_axis_words_cfg_val (din_word_include (config d)) /\
  Z.land (Z.shiftr w 3) 3 = xsdfec_translate_axis_width_cfg_val (dout_width (config d)) /\
  Z.land (Z.shiftr w 5) 1
  = xsdfec_translate_axis_words_cfg_val (dout_word_include (config d)) /\
  config (snd r) = config d.
Proof.
  intros Hwp. cbv zeta.
  rewrite cfg_axi_streams_run, regwrite_run, Hwp. dev_simpl.
  rewrite upd_same. unfold axis_width_word.
  destruct (dout_word_include (config d)), (dout_width (config d)),
    (din_word_include (config d)), (din_width (config d));
    cbn; repeat split; (reflexivity || discriminate).
Qed.

Lemma cfg_axi_streams_word_witness :
  let d := sample_dev zero_regs XSDFEC_INIT XSDFEC_LDPC_CODE 1 false in
  let r := xsdfec_cfg_axi_streams d in
  let w := regs (snd r) XSDFEC_AXIS_WIDTH_ADDR in
  fst r = 0 /\
  io_log (snd r) = io_log d ++ [IoWrite XSDFEC_AXIS_WIDTH_ADDR w] /\
  0 <= w < 64 /\
  Z.land w 3 = xsdfec_translate_axis_width_cfg_val (din_width (config d)) /\
  Z.land (Z.shiftr w 2) 1
  = xsdfec_translate_axis_words_cfg_val (din_word_include (config d)) /\
  Z.land (Z.shiftr w 3) 3 = xsdfec_translate_axis_width_cfg_val (dout_width (config d)) /\
  Z.land (Z.shiftr w 5) 1
  = xsdfec_translate_axis_words_cfg_val (dout_word_include (config d)) /\
  config (snd r) = config d.
Proof.
  intros d.
  apply (cfg_axi_streams_word d).
  reflexivity.
Defined.
